(** * CareConnect booking engine: a shallow embedding of
      [backend/models.py] and [backend/booking_service.py].

    Tables are finite maps from the integer primary key to the row; a
    query is the list of rows of a table, narrowed with [filter] and
    consumed by [first] or [count]; the service functions run in a small
    state-and-exception monad over the session. *)

From Stdlib Require Import ZArith QArith String DecimalString.
From stdpp Require Import base decidable option list strings gmap fin_maps.

Local Open Scope string_scope.
Local Open Scope Z_scope.

(** ** models.py: enumerations *)

Inductive MembershipTier := ADHOC | WEEKLY_1 | WEEKLY_2 | UNLIMITED.
Inductive UserRole := PARTICIPANT | CAREGIVER | STAFF | VOLUNTEER.
Inductive BookingStatus := CONFIRMED | WAITLIST | CANCELLED.

#[global] Instance MembershipTier_eq_dec : EqDecision MembershipTier.
Proof. solve_decision. Defined.
#[global] Instance UserRole_eq_dec : EqDecision UserRole.
Proof. solve_decision. Defined.
#[global] Instance BookingStatus_eq_dec : EqDecision BookingStatus.
Proof. solve_decision. Defined.

(** ** Values of the JSON columns ([medical_flags], [requirements]) *)

#[warnings="-register-all"]
Inductive json :=
| JNull
| JBool (b : bool)
| JNum (q : Q)
| JStr (s : string)
| JArr (l : list json)
| JObj (d : gmap string json).

(** Python truthiness of a loaded JSON value. *)
Definition truthy (v : json) : bool :=
  match v with
  | JNull => false
  | JBool b => b
  | JNum q => negb (Z.eqb (Qnum q) 0)
  | JStr s => negb (String.eqb s "")
  | JArr l => match l with [] => false | _ => true end
  | JObj d => negb (bool_decide (d = ∅))
  end.

(** The exceptions: the [BookingError] of the service, and the
    [AttributeError] of a method call on a value that has no such method. *)
Inductive exn :=
| BookingError (message error_code : string)
| AttributeError.

Inductive result (A : Type) :=
| Return (a : A)
| Raise (e : exn).
Arguments Return {A} a.
Arguments Raise {A} e.

(** [d.get(key, default)]: only a dict has the method. *)
Definition dict_get (d : json) (key : string) (fallback : json) : result json :=
  match d with
  | JObj m => Return (default fallback (m !! key))
  | _ => Raise AttributeError
  end.

(** [v or w] *)
Definition py_or (v w : json) : json := if truthy v then v else w.

(** An [int], or [float('inf')]. *)
Inductive number := Int (n : Z) | Inf.

Definition is_inf (x : number) : bool :=
  match x with Inf => true | Int _ => false end.

(** [n >= x] for an [int] n. *)
Definition int_ge (n : Z) (x : number) : bool :=
  match x with Int k => bool_decide (k ≤ n) | Inf => false end.

(** [str(n)] of an [int], as an f-string renders it. *)
Definition str (n : Z) : string := NilZero.string_of_int (Z.to_int n).

Definition str_number (x : number) : string :=
  match x with Int k => str k | Inf => "inf" end.

(** ** Time: a naive UTC [datetime] is its number of microseconds since
    1970-01-01T00:00:00 (a Thursday). *)

Definition datetime := Z.
Definition DAY : Z := 86400000000.

(** [now.weekday()], Monday = 0. *)
Definition weekday (now : datetime) : Z := (now / DAY + 3) mod 7.

(** ** models.py: rows.  The primary key [id] is the key of the table. *)

Module User.
Record t := mk {
  name : string;
  email : string;
  role : UserRole;
  membership_tier : MembershipTier;
  medical_flags : json;
  linked_account_id : option Z;
  created_at : datetime;
  updated_at : datetime }.
End User.

Module Activity.
Record t := mk {
  title : string;
  description : string;
  start_time : datetime;
  end_time : option datetime;
  location : string;
  base_capacity : Z;
  volunteer_slots : Z;
  requirements : json;
  created_at : datetime;
  updated_at : datetime }.
End Activity.

Module Booking.
Record t := mk {
  user_id : Z;
  activity_id : Z;
  status : BookingStatus;
  created_at : datetime;
  updated_at : datetime }.
End Booking.

(** The session: the three tables it reads and writes. *)
Record Session := mkSession {
  users : gmap Z User.t;
  activities : gmap Z Activity.t;
  bookings : gmap Z Booking.t }.

(** A loaded entity: its [id] and its row. *)
Abbreviation entity A := (Z * A)%type (only parsing).

(** ** Queries *)

(** [session.query(T)]: the rows of a table, in no particular order. *)
Definition query {A} (table : gmap Z A) : list (entity A) := map_to_list table.

(** [.join(User)]: the inner join on the foreign key [Booking.user_id]. *)
Definition join {A B} (q : list (entity A)) (fk : A → Z) (table : gmap Z B)
  : list (entity A * entity B) :=
  b ← q; u ← query table; if decide (fk b.2 = u.1) then [(b, u)] else [].

Definition first {A} (q : list A) : option A := head q.
Definition count {A} (q : list A) : Z := Z.of_nat (length q).

(** The key an autoincrement table gives its next row. *)
Definition next_id {A} (table : gmap Z A) : Z := foldr Z.max 0 (query table).*1 + 1.

(** ** models.py: methods *)

(** [d.get(key, default)] of a dict literal with enum keys. *)
Definition enum_get `{EqDecision K} {V} (d : list (K * V)) (key : K) (fallback : V) : V :=
  default fallback (snd <$> head (filter (λ kv : K * V, kv.1 = key) d)).

Definition token_limits : list (MembershipTier * number) :=
  [(ADHOC, Int 0); (WEEKLY_1, Int 1); (WEEKLY_2, Int 2); (UNLIMITED, Inf)].

Definition get_weekly_token_limit (self : entity User.t) : number :=
  enum_get token_limits (User.membership_tier self.2) (Int 0).

Definition get_current_capacity (self : entity Activity.t) (session : Session) : Z :=
  let volunteer_count :=
    count (filter (λ r : entity Booking.t * entity User.t,
                     Booking.activity_id r.1.2 = self.1
                     ∧ Booking.status r.1.2 = CONFIRMED
                     ∧ User.role r.2.2 = VOLUNTEER)
                  (join (query (bookings session)) Booking.user_id (users session))) in
  Activity.base_capacity self.2 + volunteer_count * 2.

Definition get_current_attendees (self : entity Activity.t) (session : Session) : Z :=
  let attendee_count :=
    count (filter (λ r : entity Booking.t * entity User.t,
                     Booking.activity_id r.1.2 = self.1
                     ∧ Booking.status r.1.2 = CONFIRMED
                     ∧ User.role r.2.2 ≠ VOLUNTEER)
                  (join (query (bookings session)) Booking.user_id (users session))) in
  attendee_count.

Definition is_accessible (self : entity Activity.t) : result json :=
  dict_get (Activity.requirements self.2) "accessible" (JBool false).

(** ** The service monad: state of the session, and exceptions *)

Definition M (A : Type) : Type := Session → result A * Session.

#[global] Instance M_ret : MRet M := λ A a session, (Return a, session).
#[global] Instance M_bind : MBind M := λ A B f m session,
  match m session with
  | (Return a, session') => f a session'
  | (Raise e, session') => (Raise e, session')
  end.

Definition raise {A} (e : exn) : M A := λ session, (Raise e, session).
Definition gets {A} (f : Session → A) : M A := λ session, (Return (f session), session).
Definition lift {A} (r : result A) : M A := λ session, (r, session).

(** [if cond: raise e] *)
Definition raise_if (cond : bool) (e : exn) : M unit :=
  if cond then raise e else mret ().

(** [session.add(row); session.commit(); session.refresh(row)] on the
    bookings table: the row is stored under a new id and comes back
    loaded. *)
Definition add_commit_refresh (row : Booking.t) : M (entity Booking.t) := λ session,
  let id := next_id (bookings session) in
  (Return (id, row),
   {| users := users session;
      activities := activities session;
      bookings := <[id := row]> (bookings session) |}).

(** The pending changes of a loaded booking, then [session.commit()]. *)
Definition update_commit (booking : entity Booking.t) : M unit := λ session,
  (Return (),
   {| users := users session;
      activities := activities session;
      bookings := <[booking.1 := booking.2]> (bookings session) |}).

(** ** booking_service.py *)

(** [get_week_start_end], from the clock reading [now]. *)
Definition get_week_start_end (now : datetime) : datetime * datetime :=
  let start_of_week := now - weekday now * DAY in
  let start_of_week := start_of_week / DAY * DAY in
  let end_of_week := start_of_week + 7 * DAY in
  (start_of_week, end_of_week).

(** The readings of [datetime.utcnow()] one call of [attempt_booking]
    makes, in the order of the code: for the week of the token check, for
    [created_at], for the default of [updated_at] at the insert, and for
    the week of the reported balance. *)
Record Clock := mkClock {
  now_check : datetime;
  now_created : datetime;
  now_insert : datetime;
  now_report : datetime }.

Inductive tokens := Tokens (n : Z) | Unlimited | NA_Volunteer.

(** The success response; [activity_start] is left as the [datetime]
    its ISO rendering is made of. *)
Record Confirmation := mkConfirmation {
  booking_id : Z;
  message : string;
  user_name : string;
  activity_title : string;
  activity_start : datetime;
  tokens_remaining : tokens;
  booking_status : BookingStatus }.

(** The user's confirmed bookings created in the week. *)
Definition weekly_bookings (user_id : Z) (week : datetime * datetime) (session : Session)
  : list (entity Booking.t) :=
  filter (λ b : entity Booking.t,
            Booking.user_id b.2 = user_id
            ∧ Booking.status b.2 = CONFIRMED
            ∧ week.1 ≤ Booking.created_at b.2
            ∧ Booking.created_at b.2 < week.2)
         (query (bookings session)).

Definition attempt_booking (clock : Clock) (user_id activity_id : Z) : M Confirmation :=
  user ← gets (λ session, first (filter (λ u : entity User.t, u.1 = user_id)
                                        (query (users session))));
  match user with
  | None => raise (BookingError "User not found" "USER_NOT_FOUND")
  | Some user =>
  activity ← gets (λ session, first (filter (λ a : entity Activity.t, a.1 = activity_id)
                                            (query (activities session))));
  match activity with
  | None => raise (BookingError "Activity not found" "ACTIVITY_NOT_FOUND")
  | Some activity =>
  existing_booking ← gets (λ session,
    first (filter (λ b : entity Booking.t,
                     Booking.user_id b.2 = user_id
                     ∧ Booking.activity_id b.2 = activity_id
                     ∧ Booking.status b.2 = CONFIRMED)
                  (query (bookings session))));
  _ ← raise_if (bool_decide (is_Some existing_booking))
        (BookingError "You have already booked this activity" "DUPLICATE_BOOKING");
  (* CHECK 1: membership tier token validation *)
  _ ← (if bool_decide (User.role user.2 ≠ VOLUNTEER) then
         let week := get_week_start_end (now_check clock) in
         weekly_bookings_count ← gets (λ session, count (weekly_bookings user_id week session));
         let token_limit := get_weekly_token_limit user in
         _ ← raise_if (bool_decide (User.membership_tier user.2 = ADHOC))
               (BookingError "Ad-hoc members must complete payment before booking"
                             "PAYMENT_REQUIRED");
         raise_if (negb (is_inf token_limit) && int_ge weekly_bookings_count token_limit)
           (BookingError ("Weekly Token Limit Reached. You have used "
                            +:+ str weekly_bookings_count +:+ "/" +:+ str_number token_limit
                            +:+ " tokens this week.")
                         "TOKEN_LIMIT_REACHED")
       else mret ());
  (* CHECK 2: capacity validation *)
  current_capacity ← gets (get_current_capacity activity);
  current_attendees ← gets (get_current_attendees activity);
  _ ← (if bool_decide (User.role user.2 = VOLUNTEER) then
         current_volunteer_count ← gets (λ session,
           count (filter (λ r : entity Booking.t * entity User.t,
                            Booking.activity_id r.1.2 = activity_id
                            ∧ Booking.status r.1.2 = CONFIRMED
                            ∧ User.role r.2.2 = VOLUNTEER)
                         (join (query (bookings session)) Booking.user_id (users session))));
         raise_if (bool_decide (Activity.volunteer_slots activity.2 ≤ current_volunteer_count))
           (BookingError ("All volunteer slots are filled (" +:+ str current_volunteer_count
                            +:+ "/" +:+ str (Activity.volunteer_slots activity.2) +:+ ")")
                         "VOLUNTEER_SLOTS_FULL")
       else
         raise_if (bool_decide (current_capacity ≤ current_attendees))
           (BookingError ("Activity at capacity (" +:+ str current_attendees +:+ "/"
                            +:+ str current_capacity +:+ " attendees)")
                         "ACTIVITY_FULL"));
  (* CHECK 3: medical accessibility validation *)
  let user_medical_flags := py_or (User.medical_flags user.2) (JObj ∅) in
  requires_wheelchair ← lift (dict_get user_medical_flags "wheelchair" (JBool false));
  mismatch ← (if truthy requires_wheelchair
              then accessible ← lift (is_accessible activity); mret (negb (truthy accessible))
              else mret false);
  _ ← raise_if mismatch
        (BookingError
           "This activity is not wheelchair accessible. Please contact staff for assistance."
           "ACCESSIBILITY_MISMATCH");
  (* all checks passed: create the booking *)
  new_booking ← add_commit_refresh
    {| Booking.user_id := user_id;
       Booking.activity_id := activity_id;
       Booking.status := CONFIRMED;
       Booking.created_at := now_created clock;
       Booking.updated_at := now_insert clock |};
  remaining_tokens ←
    (if bool_decide (User.role user.2 ≠ VOLUNTEER) then
       let week := get_week_start_end (now_report clock) in
       updated_weekly_count ← gets (λ session, count (weekly_bookings user_id week session));
       let token_limit := get_weekly_token_limit user in
       mret (match token_limit with
             | Int limit => Tokens (Z.max 0 (limit - updated_weekly_count))
             | Inf => Unlimited
             end)
     else mret NA_Volunteer);
  mret {| booking_id := new_booking.1;
          message := "Booking confirmed successfully";
          user_name := User.name user.2;
          activity_title := Activity.title activity.2;
          activity_start := Activity.start_time activity.2;
          tokens_remaining := remaining_tokens;
          booking_status := Booking.status new_booking.2 |}
  end end.

Record Cancellation := mkCancellation {
  cancel_message : string;
  cancelled_booking_id : Z }.

Definition cancel_booking (now : datetime) (booking_id user_id : Z) : M Cancellation :=
  booking ← gets (λ session,
    first (filter (λ b : entity Booking.t, b.1 = booking_id ∧ Booking.user_id b.2 = user_id)
                  (query (bookings session))));
  match booking with
  | None => raise (BookingError "Booking not found or unauthorized" "BOOKING_NOT_FOUND")
  | Some booking =>
    _ ← raise_if (bool_decide (Booking.status booking.2 = CANCELLED))
          (BookingError "Booking already cancelled" "ALREADY_CANCELLED");
    _ ← update_commit
          (booking.1,
           {| Booking.user_id := Booking.user_id booking.2;
              Booking.activity_id := Booking.activity_id booking.2;
              Booking.status := CANCELLED;
              Booking.created_at := Booking.created_at booking.2;
              Booking.updated_at := now |});
    mret {| cancel_message := "Booking cancelled successfully";
            cancelled_booking_id := booking_id |}
  end.

(** ** Sample data: the seed of app.py, and an activity of capacity 1 *)

Module Sample.
Definition user (name email : string) (role : UserRole) (tier : MembershipTier)
    (flags : json) : User.t :=
  {| User.name := name; User.email := email; User.role := role;
     User.membership_tier := tier; User.medical_flags := flags;
     User.linked_account_id := None; User.created_at := 0; User.updated_at := 0 |}.

Definition activity (title : string) (capacity slots : Z) (requirements : json)
  : Activity.t :=
  {| Activity.title := title; Activity.description := ""; Activity.start_time := 0;
     Activity.end_time := None; Activity.location := "";
     Activity.base_capacity := capacity; Activity.volunteer_slots := slots;
     Activity.requirements := requirements;
     Activity.created_at := 0; Activity.updated_at := 0 |}.

Definition flags (l : list (string * bool)) : json :=
  JObj (list_to_map (prod_map id JBool <$> l)).

Definition alice := user "Alice Tan" "alice@example.com" PARTICIPANT WEEKLY_1
  (flags [("wheelchair", false); ("seizure_risk", false)]).
Definition bob := user "Bob Chen (Wheelchair User)" "bob@example.com" PARTICIPANT WEEKLY_2
  (flags [("wheelchair", true); ("seizure_risk", false)]).
Definition carol := user "Carol Lim (Premium)" "carol@example.com" PARTICIPANT UNLIMITED
  (flags [("wheelchair", false); ("seizure_risk", true)]).
Definition david := user "David Ng (Ad-hoc)" "david@example.com" PARTICIPANT ADHOC (JObj ∅).
Definition emma := user "Emma Wong (Volunteer)" "emma@example.com" VOLUNTEER ADHOC (JObj ∅).
Definition frank := user "Frank Lee (Staff)" "frank@example.com" STAFF UNLIMITED (JObj ∅).

Definition yoga := activity "Morning Yoga Session" 10 3
  (flags [("accessible", true); ("payment_required", false)]).
Definition art := activity "Art & Craft Workshop" 8 2
  (flags [("accessible", false); ("payment_required", false)]).
Definition dance := activity "Social Dance Class" 15 4
  (flags [("accessible", true); ("payment_required", false)]).
Definition music := activity "Music Therapy" 6 1
  (flags [("accessible", true); ("payment_required", false)]).
Definition tiny := activity "Tea for one" 1 1 (flags [("accessible", true)]).

Definition seed : Session :=
  {| users := list_to_map [(1, alice); (2, bob); (3, carol); (4, david); (5, emma); (6, frank)];
     activities := list_to_map [(1, yoga); (2, art); (3, dance); (4, music); (5, tiny)];
     bookings := ∅ |}.

(** Monday 2026-01-05 00:00:00 is day 20458 after the epoch. *)
Definition monday : datetime := 20458 * DAY.

(** A clock that reads [t] at every call. *)
Definition at_ (t : datetime) : Clock := mkClock t t t t.
End Sample.

(** ** The blocks of [attempt_booking], each as a computation of its own *)

Definition load_user (user_id : Z) : M (entity User.t) :=
  user ← gets (λ session, first (filter (λ u : entity User.t, u.1 = user_id)
                                        (query (users session))));
  match user with
  | None => raise (BookingError "User not found" "USER_NOT_FOUND")
  | Some user => mret user
  end.

Definition load_activity (activity_id : Z) : M (entity Activity.t) :=
  activity ← gets (λ session, first (filter (λ a : entity Activity.t, a.1 = activity_id)
                                            (query (activities session))));
  match activity with
  | None => raise (BookingError "Activity not found" "ACTIVITY_NOT_FOUND")
  | Some activity => mret activity
  end.

(** The confirmed bookings of a user on an activity. *)
Definition confirmed_pair (user_id activity_id : Z) (session : Session)
  : list (entity Booking.t) :=
  filter (λ b : entity Booking.t,
            Booking.user_id b.2 = user_id
            ∧ Booking.activity_id b.2 = activity_id
            ∧ Booking.status b.2 = CONFIRMED)
         (query (bookings session)).

Definition duplicate_guard (user_id activity_id : Z) : M unit :=
  existing_booking ← gets (λ session, first (confirmed_pair user_id activity_id session));
  raise_if (bool_decide (is_Some existing_booking))
    (BookingError "You have already booked this activity" "DUPLICATE_BOOKING").

Definition membership_check (clock : Clock) (user : entity User.t) (user_id : Z) : M unit :=
  if bool_decide (User.role user.2 ≠ VOLUNTEER) then
    let week := get_week_start_end (now_check clock) in
    weekly_bookings_count ← gets (λ session, count (weekly_bookings user_id week session));
    let token_limit := get_weekly_token_limit user in
    _ ← raise_if (bool_decide (User.membership_tier user.2 = ADHOC))
          (BookingError "Ad-hoc members must complete payment before booking"
                        "PAYMENT_REQUIRED");
    raise_if (negb (is_inf token_limit) && int_ge weekly_bookings_count token_limit)
      (BookingError ("Weekly Token Limit Reached. You have used "
                       +:+ str weekly_bookings_count +:+ "/" +:+ str_number token_limit
                       +:+ " tokens this week.")
                    "TOKEN_LIMIT_REACHED")
  else mret ().

(** The confirmed bookings on an activity joined with their volunteer owners. *)
Definition volunteer_rows (activity_id : Z) (session : Session)
  : list (entity Booking.t * entity User.t) :=
  filter (λ r : entity Booking.t * entity User.t,
            Booking.activity_id r.1.2 = activity_id
            ∧ Booking.status r.1.2 = CONFIRMED
            ∧ User.role r.2.2 = VOLUNTEER)
         (join (query (bookings session)) Booking.user_id (users session)).

Definition capacity_check (user : entity User.t) (activity : entity Activity.t)
    (activity_id : Z) : M unit :=
  current_capacity ← gets (get_current_capacity activity);
  current_attendees ← gets (get_current_attendees activity);
  if bool_decide (User.role user.2 = VOLUNTEER) then
    current_volunteer_count ← gets (λ session, count (volunteer_rows activity_id session));
    raise_if (bool_decide (Activity.volunteer_slots activity.2 ≤ current_volunteer_count))
      (BookingError ("All volunteer slots are filled (" +:+ str current_volunteer_count
                       +:+ "/" +:+ str (Activity.volunteer_slots activity.2) +:+ ")")
                    "VOLUNTEER_SLOTS_FULL")
  else
    raise_if (bool_decide (current_capacity ≤ current_attendees))
      (BookingError ("Activity at capacity (" +:+ str current_attendees +:+ "/"
                       +:+ str current_capacity +:+ " attendees)")
                    "ACTIVITY_FULL").

Definition medical_check (user : entity User.t) (activity : entity Activity.t) : M unit :=
  let user_medical_flags := py_or (User.medical_flags user.2) (JObj ∅) in
  requires_wheelchair ← lift (dict_get user_medical_flags "wheelchair" (JBool false));
  mismatch ← (if truthy requires_wheelchair
              then accessible ← lift (is_accessible activity); mret (negb (truthy accessible))
              else mret false);
  raise_if mismatch
    (BookingError
       "This activity is not wheelchair accessible. Please contact staff for assistance."
       "ACCESSIBILITY_MISMATCH").

Definition new_booking (clock : Clock) (user_id activity_id : Z) : Booking.t :=
  {| Booking.user_id := user_id;
     Booking.activity_id := activity_id;
     Booking.status := CONFIRMED;
     Booking.created_at := now_created clock;
     Booking.updated_at := now_insert clock |}.

Definition create_booking (clock : Clock) (user : entity User.t)
    (activity : entity Activity.t) (user_id activity_id : Z) : M Confirmation :=
  new_booking ← add_commit_refresh (new_booking clock user_id activity_id);
  remaining_tokens ←
    (if bool_decide (User.role user.2 ≠ VOLUNTEER) then
       let week := get_week_start_end (now_report clock) in
       updated_weekly_count ← gets (λ session, count (weekly_bookings user_id week session));
       let token_limit := get_weekly_token_limit user in
       mret (match token_limit with
             | Int limit => Tokens (Z.max 0 (limit - updated_weekly_count))
             | Inf => Unlimited
             end)
     else mret NA_Volunteer);
  mret {| booking_id := new_booking.1;
          message := "Booking confirmed successfully";
          user_name := User.name user.2;
          activity_title := Activity.title activity.2;
          activity_start := Activity.start_time activity.2;
          tokens_remaining := remaining_tokens;
          booking_status := Booking.status new_booking.2 |}.

Definition attempt_booking_blocks (clock : Clock) (user_id activity_id : Z) : M Confirmation :=
  user ← load_user user_id;
  activity ← load_activity activity_id;
  _ ← duplicate_guard user_id activity_id;
  _ ← membership_check clock user user_id;
  _ ← capacity_check user activity activity_id;
  _ ← medical_check user activity;
  create_booking clock user activity user_id activity_id.

(** ** Calls and reachable states *)

Inductive call :=
| AttemptBooking (clock : Clock) (user_id activity_id : Z)
| CancelBooking (now : datetime) (booking_id user_id : Z).

(** The session a call leaves behind, whether it returns or raises. *)
Definition run (c : call) (session : Session) : Session :=
  match c with
  | AttemptBooking clock user_id activity_id =>
      (attempt_booking clock user_id activity_id session).2
  | CancelBooking now booking_id user_id =>
      (cancel_booking now booking_id user_id session).2
  end.

(** The states the two calls reach from a store that has users and
    activities and no booking yet. *)
Inductive reachable : Session → Prop :=
| reachable_init session : bookings session = ∅ → reachable session
| reachable_step session c : reachable session → reachable (run c session).

(** ** The vocabulary of the specification *)

(** An outcome that is a [BookingError] of the given code. *)
Definition fails_with {A} (outcome : result A * Session) (error_code : string) : Prop :=
  ∃ message, outcome.1 = Raise (BookingError message error_code).

Definition succeeds {A} (outcome : result A * Session) : Prop :=
  ∃ a, outcome.1 = Return a.

Module Spec.
(** The role of the owner of a booking, when the owner exists. *)
Definition owner_role (session : Session) (b : Booking.t) : option UserRole :=
  User.role <$> users session !! Booking.user_id b.

(** The Confirmed bookings on the activity whose owner's role is Volunteer. *)
Definition confirmed_volunteer_bookings (session : Session) (activity_id : Z)
  : list (entity Booking.t) :=
  filter (λ b : entity Booking.t,
            Booking.activity_id b.2 = activity_id
            ∧ Booking.status b.2 = CONFIRMED
            ∧ owner_role session b.2 = Some VOLUNTEER)
         (query (bookings session)).

(** The Confirmed bookings on the activity whose owner exists and has a
    role that is not Volunteer. *)
Definition confirmed_attendee_bookings (session : Session) (activity_id : Z)
  : list (entity Booking.t) :=
  filter (λ b : entity Booking.t,
            Booking.activity_id b.2 = activity_id
            ∧ Booking.status b.2 = CONFIRMED
            ∧ is_Some (owner_role session b.2)
            ∧ owner_role session b.2 ≠ Some VOLUNTEER)
         (query (bookings session)).

(** The same without asking that the owner exists: the two agree when
    every booking references an existing user. *)
Definition confirmed_non_volunteer_bookings (session : Session) (activity_id : Z)
  : list (entity Booking.t) :=
  filter (λ b : entity Booking.t,
            Booking.activity_id b.2 = activity_id
            ∧ Booking.status b.2 = CONFIRMED
            ∧ owner_role session b.2 ≠ Some VOLUNTEER)
         (query (bookings session)).

Definition current_volunteer_count (session : Session) (activity_id : Z) : Z :=
  count (confirmed_volunteer_bookings session activity_id).

Definition current_capacity (session : Session) (activity : entity Activity.t) : Z :=
  Activity.base_capacity activity.2 + 2 * current_volunteer_count session activity.1.

Definition current_attendees (session : Session) (activity : entity Activity.t) : Z :=
  count (confirmed_attendee_bookings session activity.1).

(** The user's Confirmed bookings created in the week of [now]. *)
Definition weekly_usage (now : datetime) (session : Session) (user_id : Z) : Z :=
  count (weekly_bookings user_id (get_week_start_end now) session).

(** The user is not Adhoc and, on a finite limit, has used less than it. *)
Definition tokens_available (now : datetime) (session : Session)
    (user : entity User.t) : Prop :=
  User.membership_tier user.2 ≠ ADHOC
  ∧ ∀ limit, get_weekly_token_limit user = Int limit →
             weekly_usage now session user.1 < limit.

(** The token check refuses: the user is not a Volunteer and is Adhoc,
    or has reached a finite limit. *)
Definition token_check_fails (now : datetime) (session : Session)
    (user : entity User.t) : Prop :=
  User.role user.2 ≠ VOLUNTEER
  ∧ (User.membership_tier user.2 = ADHOC
     ∨ ∃ limit, get_weekly_token_limit user = Int limit
                ∧ limit ≤ weekly_usage now session user.1).

(** The capacity check refuses: no volunteer slot is left for a
    Volunteer, or no place for another user. *)
Definition capacity_check_fails (session : Session) (user : entity User.t)
    (activity : entity Activity.t) : Prop :=
  (User.role user.2 = VOLUNTEER
   ∧ Activity.volunteer_slots activity.2 ≤ current_volunteer_count session activity.1)
  ∨ (User.role user.2 ≠ VOLUNTEER
     ∧ current_capacity session activity ≤ current_attendees session activity).

(** The user's flags ask for a wheelchair. *)
Definition requires_wheelchair (user : entity User.t) : Prop :=
  ∃ w, dict_get (py_or (User.medical_flags user.2) (JObj ∅)) "wheelchair" (JBool false)
       = Return w
       ∧ truthy w = true.

(** The accessibility check refuses: the user asks for a wheelchair and
    the activity is not accessible. *)
Definition accessibility_check_fails (user : entity User.t)
    (activity : entity Activity.t) : Prop :=
  requires_wheelchair user
  ∧ ∃ accessible, is_accessible activity = Return accessible ∧ truthy accessible = false.

(** A Confirmed booking of the pair exists. *)
Definition has_confirmed (session : Session) (user_id activity_id : Z) : Prop :=
  ∃ k b, bookings session !! k = Some b
         ∧ Booking.user_id b = user_id
         ∧ Booking.activity_id b = activity_id
         ∧ Booking.status b = CONFIRMED.
End Spec.

(** The session without the booking [k]. *)
Definition without_booking (session : Session) (k : Z) : Session :=
  {| users := users session;
     activities := activities session;
     bookings := delete k (bookings session) |}.

(** ** The errors of [attempt_booking] *)

Definition user_not_found : exn := BookingError "User not found" "USER_NOT_FOUND".

Definition activity_not_found : exn := BookingError "Activity not found" "ACTIVITY_NOT_FOUND".

Definition duplicate_error : exn :=
  BookingError "You have already booked this activity" "DUPLICATE_BOOKING".

Definition payment_error : exn :=
  BookingError "Ad-hoc members must complete payment before booking" "PAYMENT_REQUIRED".

Definition token_error (usage limit : Z) : exn :=
  BookingError ("Weekly Token Limit Reached. You have used "
                  +:+ str usage +:+ "/" +:+ str limit +:+ " tokens this week.")
               "TOKEN_LIMIT_REACHED".

Definition volunteer_error (volunteers slots : Z) : exn :=
  BookingError ("All volunteer slots are filled (" +:+ str volunteers
                  +:+ "/" +:+ str slots +:+ ")")
               "VOLUNTEER_SLOTS_FULL".

Definition full_error (attendees capacity : Z) : exn :=
  BookingError ("Activity at capacity (" +:+ str attendees +:+ "/"
                  +:+ str capacity +:+ " attendees)")
               "ACTIVITY_FULL".

Definition mismatch_error : exn :=
  BookingError
    "This activity is not wheelchair accessible. Please contact staff for assistance."
    "ACCESSIBILITY_MISMATCH".

(** The error codes of [attempt_booking]. *)
Definition attempt_error_codes : list string :=
  ["USER_NOT_FOUND"; "ACTIVITY_NOT_FOUND"; "DUPLICATE_BOOKING"; "PAYMENT_REQUIRED";
   "TOKEN_LIMIT_REACHED"; "VOLUNTEER_SLOTS_FULL"; "ACTIVITY_FULL";
   "ACCESSIBILITY_MISMATCH"].

(** ** The verdict of the accessibility check, and the writes *)

(** The accessibility check does not look at the session. *)
Definition medical_verdict (user : entity User.t) (activity : entity Activity.t)
  : result unit :=
  match dict_get (py_or (User.medical_flags user.2) (JObj ∅)) "wheelchair" (JBool false) with
  | Raise e => Raise e
  | Return requires_wheelchair =>
      if truthy requires_wheelchair then
        match is_accessible activity with
        | Raise e => Raise e
        | Return accessible => if truthy accessible then Return () else Raise mismatch_error
        end
      else Return ()
  end.

(** The session after the insert of a booking row. *)
Definition add_booking (session : Session) (row : Booking.t) : Session :=
  {| users := users session;
     activities := activities session;
     bookings := <[next_id (bookings session) := row]> (bookings session) |}.

Definition cancelled (now : datetime) (b : Booking.t) : Booking.t :=
  {| Booking.user_id := Booking.user_id b;
     Booking.activity_id := Booking.activity_id b;
     Booking.status := CANCELLED;
     Booking.created_at := Booking.created_at b;
     Booking.updated_at := now |}.

Definition set_booking (session : Session) (k : Z) (row : Booking.t) : Session :=
  {| users := users session;
     activities := activities session;
     bookings := <[k := row]> (bookings session) |}.

(** ** The tail of [attempt_booking] after the token check *)

(** The last block and the insert. *)
Definition medical_then_create (clock : Clock) (user : entity User.t)
    (activity : entity Activity.t) (session : Session) : result Confirmation * Session :=
  match medical_verdict user activity with
  | Raise e => (Raise e, session)
  | Return _ => create_booking clock user activity user.1 activity.1 session
  end.

Definition capacity_then_create (clock : Clock) (user : entity User.t)
    (activity : entity Activity.t) (session : Session) : result Confirmation * Session :=
  let attendees := Spec.current_attendees session activity in
  let capacity := Spec.current_capacity session activity in
  if decide (capacity ≤ attendees) then (Raise (full_error attendees capacity), session)
  else medical_then_create clock user activity session.

(** A computation that only reads the session. *)
Definition read_only {A} (m : M A) : Prop := ∀ session, (m session).2 = session.

(** ** Invariants of the bookings table *)

Definition unique_confirmed (session : Session) : Prop :=
  ∀ k1 k2 b1 b2,
    bookings session !! k1 = Some b1 → bookings session !! k2 = Some b2 →
    Booking.user_id b1 = Booking.user_id b2 →
    Booking.activity_id b1 = Booking.activity_id b2 →
    Booking.status b1 = CONFIRMED → Booking.status b2 = CONFIRMED →
    k1 = k2.

Definition referential (session : Session) : Prop :=
  ∀ k b, bookings session !! k = Some b →
    is_Some (users session !! Booking.user_id b)
    ∧ is_Some (activities session !! Booking.activity_id b).

Definition lifecycle (session : Session) : Prop :=
  ∀ k b, bookings session !! k = Some b →
    Booking.status b = CONFIRMED ∨ Booking.status b = CANCELLED.

(** ** Scenarios *)

Module Scenario.
Import Sample.

Definition clock : Clock := at_ (monday + 9).

(** Alice (Weekly_1) has booked yoga this week. *)
Definition alice_yoga : Session := run (AttemptBooking (at_ (monday + 5)) 1 1) seed.

(** Alice has booked the activity of capacity 1: her token is used and
    the activity is full. *)
Definition alice_tiny : Session := run (AttemptBooking (at_ (monday + 5)) 1 5) seed.

(** A wheelchair user on a Weekly_1 tier who holds a Confirmed booking,
    made this week, of an inaccessible activity of capacity 1. *)
Definition wheelchair_user : User.t :=
  user "Wen" "wen@example.com" PARTICIPANT WEEKLY_1 (flags [("wheelchair", true)]).
Definition attic : Activity.t := activity "Attic tour" 1 0 (flags [("accessible", false)]).
Definition stuck : Session :=
  {| users := {[ 1 := wheelchair_user ]};
     activities := {[ 1 := attic ]};
     bookings := {[ 1 := Booking.mk 1 1 CONFIRMED (monday + 5) (monday + 5) ]} |}.

(** The seed and an activity whose requirements column is JSON null. *)
Definition unlisted_activity : Activity.t := activity "Unlisted" 5 1 JNull.
Definition unlisted : Session :=
  {| users := users seed;
     activities := <[ 6 := unlisted_activity ]> (activities seed);
     bookings := ∅ |}.

(** Ten participants, an eleventh and a volunteer; an activity with
    base_capacity 10 and 3 volunteer slots that the ten have booked. *)
Definition participant (i : Z) : User.t :=
  user "Participant" (str i +:+ "@example.com") PARTICIPANT UNLIMITED (JObj ∅).
Definition crowd_users : gmap Z User.t :=
  list_to_map ((λ i, (i, participant i)) <$> seqZ 1 11) ∪ {[ 12 := emma ]}.
Definition crowd : Session :=
  foldl (λ session i, run (AttemptBooking clock i 1) session)
        {| users := crowd_users; activities := {[ 1 := yoga ]}; bookings := ∅ |}
        (seqZ 1 10).
End Scenario.

(** ** booking_service.py: get_user_token_balance *)

(** The [value] of an enumeration member. *)
Definition tier_value (tier : MembershipTier) : string :=
  match tier with
  | ADHOC => "Adhoc"
  | WEEKLY_1 => "Weekly_1"
  | WEEKLY_2 => "Weekly_2"
  | UNLIMITED => "Unlimited"
  end.

Definition role_value (role : UserRole) : string :=
  match role with
  | PARTICIPANT => "Participant"
  | CAREGIVER => "Caregiver"
  | STAFF => "Staff"
  | VOLUNTEER => "Volunteer"
  end.

(** An entry of a response that is an [int] or a [str]. *)
Inductive field := Num (n : Z) | Text (s : string).

Module Balance.
Record t := mk {
  user_id : Z;
  user_name : string;
  membership_tier : string;
  tokens_total : field;
  tokens_used : field;
  tokens_remaining : field;
  role : string }.
End Balance.

Definition get_user_token_balance (now : datetime) (user_id : Z) : M Balance.t :=
  user ← gets (λ session, first (filter (λ u : entity User.t, u.1 = user_id)
                                        (query (users session))));
  match user with
  | None => raise (BookingError "User not found" "USER_NOT_FOUND")
  | Some user =>
    if bool_decide (User.role user.2 = VOLUNTEER) then
      mret {| Balance.user_id := user_id;
              Balance.user_name := User.name user.2;
              Balance.membership_tier := tier_value (User.membership_tier user.2);
              Balance.tokens_total := Text "N/A";
              Balance.tokens_used := Text "N/A";
              Balance.tokens_remaining := Text "N/A (Volunteer)";
              Balance.role := role_value (User.role user.2) |}
    else
      let week := get_week_start_end now in
      weekly_bookings_count ← gets (λ session, count (weekly_bookings user_id week session));
      let token_limit := get_weekly_token_limit user in
      let '(tokens_remaining, tokens_total) :=
        match token_limit with
        | Inf => (Text "Unlimited", Text "Unlimited")
        | Int limit => (Num (Z.max 0 (limit - weekly_bookings_count)), Num limit)
        end in
      mret {| Balance.user_id := user_id;
              Balance.user_name := User.name user.2;
              Balance.membership_tier := tier_value (User.membership_tier user.2);
              Balance.tokens_total := tokens_total;
              Balance.tokens_used := Num weekly_bookings_count;
              Balance.tokens_remaining := tokens_remaining;
              Balance.role := role_value (User.role user.2) |}
  end.

(** The entry that [attempt_booking] reports as tokens_remaining. *)
Definition tokens_field (remaining : tokens) : field :=
  match remaining with
  | Tokens n => Num n
  | Unlimited => Text "Unlimited"
  | NA_Volunteer => Text "N/A (Volunteer)"
  end.

(** ** app.py: the listing and the detail of activities *)

(** A [for] loop that appends one result per element. *)
Fixpoint for_each {A B} (f : A → M B) (l : list A) : M (list B) :=
  match l with
  | [] => mret []
  | x :: rest => y ← f x; ys ← for_each f rest; mret (y :: ys)
  end.

(** [[a for a in activities if a.is_accessible()]] *)
Fixpoint keep_accessible (activities : list (entity Activity.t))
  : result (list (entity Activity.t)) :=
  match activities with
  | [] => Return []
  | a :: rest =>
      match is_accessible a with
      | Raise e => Raise e
      | Return accessible =>
          match keep_accessible rest with
          | Raise e => Raise e
          | Return kept => Return (if truthy accessible then a :: kept else kept)
          end
      end
  end.

(** The entry of an activity in a response; the times are left as the
    [datetime] their ISO rendering is made of. *)
Module ActivityView.
Record t := mk {
  id : Z;
  title : string;
  description : string;
  start_time : datetime;
  end_time : option datetime;
  location : string;
  base_capacity : Z;
  current_capacity : Z;
  current_attendees : Z;
  available_slots : Z;
  volunteer_slots : Z;
  requirements : json;
  is_accessible : json }.
End ActivityView.

Definition activity_view (activity : entity Activity.t) : M ActivityView.t :=
  current_capacity ← gets (get_current_capacity activity);
  current_attendees ← gets (get_current_attendees activity);
  accessible ← lift (is_accessible activity);
  mret {| ActivityView.id := activity.1;
          ActivityView.title := Activity.title activity.2;
          ActivityView.description := Activity.description activity.2;
          ActivityView.start_time := Activity.start_time activity.2;
          ActivityView.end_time := Activity.end_time activity.2;
          ActivityView.location := Activity.location activity.2;
          ActivityView.base_capacity := Activity.base_capacity activity.2;
          ActivityView.current_capacity := current_capacity;
          ActivityView.current_attendees := current_attendees;
          ActivityView.available_slots := Z.max 0 (current_capacity - current_attendees);
          ActivityView.volunteer_slots := Activity.volunteer_slots activity.2;
          ActivityView.requirements := Activity.requirements activity.2;
          ActivityView.is_accessible := accessible |}.

(** The test of the comprehension, for an activity whose
    [is_accessible] returns. *)
Definition accessible (activity : entity Activity.t) : bool :=
  match is_accessible activity with
  | Return v => truthy v
  | Raise _ => false
  end.

(** The activities a caller is shown: [if user_id:] holds for an [int]
    other than 0. *)
Definition shown_activities (user_id : option Z) (activities : list (entity Activity.t))
  : M (list (entity Activity.t)) :=
  match user_id with
  | Some user_id =>
      if bool_decide (user_id ≠ 0) then
        user ← gets (λ session,
          first (filter (λ u : entity User.t, u.1 = user_id) (query (users session))));
        match user with
        | Some user =>
            let user_medical_flags := py_or (User.medical_flags user.2) (JObj ∅) in
            requires_wheelchair ←
              lift (dict_get user_medical_flags "wheelchair" (JBool false));
            if truthy requires_wheelchair
            then lift (keep_accessible activities)
            else mret activities
        | None => mret activities
        end
      else mret activities
  | None => mret activities
  end.

(** [get_activities], from the [user_id] query parameter as parsed with
    [type=int] ([None] when absent or not an integer). *)
Definition get_activities (user_id : option Z) : M (list ActivityView.t) :=
  activities ← gets (λ session, query (activities session));
  activities ← shown_activities user_id activities;
  for_each activity_view activities.

(** A line of the bookings of an activity. *)
Record BookingLine := mkBookingLine {
  line_booking_id : Z;
  line_user_name : string;
  line_user_role : string;
  line_booked_at : datetime }.

(** [x.name] of the result of [.first()]: [None] has no attribute. *)
Definition loaded {A} (row : option A) : result A :=
  match row with
  | Some x => Return x
  | None => Raise AttributeError
  end.

Definition booking_line (booking : entity Booking.t) : M BookingLine :=
  user ← gets (λ session,
    first (filter (λ u : entity User.t, u.1 = Booking.user_id booking.2)
                  (query (users session))));
  user ← lift (loaded user);
  mret {| line_booking_id := booking.1;
          line_user_name := User.name user.2;
          line_user_role := role_value (User.role user.2);
          line_booked_at := Booking.created_at booking.2 |}.

(** [get_activity]: [None] is the 404 answer "Activity not found". *)
Definition get_activity (activity_id : Z)
  : M (option (ActivityView.t * list BookingLine)) :=
  activity ← gets (λ session,
    first (filter (λ a : entity Activity.t, a.1 = activity_id) (query (activities session))));
  match activity with
  | None => mret None
  | Some activity =>
      current_capacity ← gets (get_current_capacity activity);
      current_attendees ← gets (get_current_attendees activity);
      bookings ← gets (λ session,
        filter (λ b : entity Booking.t,
                  Booking.activity_id b.2 = activity_id ∧ Booking.status b.2 = CONFIRMED)
               (query (bookings session)));
      booking_list ← for_each booking_line bookings;
      accessible ← lift (is_accessible activity);
      mret (Some
        ({| ActivityView.id := activity.1;
            ActivityView.title := Activity.title activity.2;
            ActivityView.description := Activity.description activity.2;
            ActivityView.start_time := Activity.start_time activity.2;
            ActivityView.end_time := Activity.end_time activity.2;
            ActivityView.location := Activity.location activity.2;
            ActivityView.base_capacity := Activity.base_capacity activity.2;
            ActivityView.current_capacity := current_capacity;
            ActivityView.current_attendees := current_attendees;
            ActivityView.available_slots := Z.max 0 (current_capacity - current_attendees);
            ActivityView.volunteer_slots := Activity.volunteer_slots activity.2;
            ActivityView.requirements := Activity.requirements activity.2;
            ActivityView.is_accessible := accessible |},
         booking_list))
  end.

(** ** Further invariants *)

(** The confirmed volunteer bookings of every activity are within its
    volunteer slots, and its attendees within the capacity that all the
    slots would give. *)
Definition capacity_bounds (session : Session) : Prop :=
  ∀ activity_id a, activities session !! activity_id = Some a →
    Spec.current_volunteer_count session activity_id
    ≤ Z.max 0 (Activity.volunteer_slots a)
    ∧ Spec.current_attendees session (activity_id, a)
      ≤ Z.max 0 (Activity.base_capacity a + 2 * Z.max 0 (Activity.volunteer_slots a)).

(** A call whose readings for the token check and for [created_at] fall
    in the same week. *)
Definition steady (c : call) : Prop :=
  match c with
  | AttemptBooking clock _ _ =>
      get_week_start_end (now_created clock) = get_week_start_end (now_check clock)
  | CancelBooking _ _ _ => True
  end.

(** The states reached by such calls from a store without bookings. *)
Inductive reachable_steady : Session → Prop :=
| reachable_steady_init session : bookings session = ∅ → reachable_steady session
| reachable_steady_step session c :
    reachable_steady session → steady c → reachable_steady (run c session).

(** No user that is not a Volunteer has more Confirmed bookings created
    in a week than the finite limit of the tier. *)
Definition within_tokens (session : Session) : Prop :=
  ∀ user_id u limit t,
    users session !! user_id = Some u → User.role u ≠ VOLUNTEER →
    get_weekly_token_limit (user_id, u) = Int limit →
    Spec.weekly_usage t session user_id ≤ limit.

(** ** More scenarios *)

Module Overbooked.
Import Sample.

(** The crowd of ten on yoga; the volunteer books, the eleventh
    participant books a place that the volunteer opened, the volunteer
    cancels. *)
Definition calls : list call :=
  [AttemptBooking Scenario.clock 12 1;
   AttemptBooking Scenario.clock 11 1;
   CancelBooking (monday + 10) 11 12].

Definition before_cancel : Session :=
  foldl (λ session c, run c session) Scenario.crowd (take 2 calls).

Definition after_cancel : Session :=
  foldl (λ session c, run c session) Scenario.crowd calls.
End Overbooked.

(** * Properties *)

(** ** Queries over a table *)

Section Queries.
Context {A : Type}.
Implicit Types (t : gmap Z A) (k : Z) (v : A).

Lemma query_insert_fresh t k v :
  t !! k = None → query (<[k:=v]> t) ≡ₚ (k, v) :: query t.
Proof. apply map_to_list_insert. Qed.

Lemma query_split t k v :
  t !! k = Some v → query t ≡ₚ (k, v) :: query (delete k t).
Proof.
  intros Hk. unfold query.
  rewrite <- (insert_delete_id t k v Hk) at 1.
  apply map_to_list_insert, lookup_delete_eq.
Qed.

Lemma query_update t k v v' :
  t !! k = Some v → query (<[k:=v']> t) ≡ₚ (k, v') :: query (delete k t).
Proof.
  intros Hk. unfold query. rewrite <- insert_delete_eq.
  apply map_to_list_insert, lookup_delete_eq.
Qed.

Lemma elem_of_query t k v : (k, v) ∈ query t ↔ t !! k = Some v.
Proof. apply elem_of_map_to_list. Qed.

(** A filter on the primary key selects the row of that key. *)
Lemma filter_key t k :
  filter (λ r : entity A, r.1 = k) (query t)
  = match t !! k with Some v => [(k, v)] | None => [] end.
Proof.
  assert (filter (λ r : entity A, r.1 = k) (query t)
          ≡ₚ match t !! k with Some v => [(k, v)] | None => [] end) as Hp.
  { induction t as [|i x m Hi IH] using map_ind.
    - unfold query. by rewrite map_to_list_empty, lookup_empty.
    - rewrite (query_insert_fresh _ _ _ Hi), filter_cons. simpl.
      destruct (decide (i = k)) as [->|Hne].
      + rewrite IH, Hi, lookup_insert_eq. done.
      + rewrite IH, lookup_insert_ne by done. done. }
  destruct (t !! k).
  - by apply Permutation_singleton_r.
  - by apply Permutation_nil_r.
Qed.

Lemma first_filter_key t k :
  first (filter (λ r : entity A, r.1 = k) (query t)) = pair k <$> t !! k.
Proof. rewrite filter_key. by destruct (t !! k). Qed.

Lemma first_filter_key_and (Q : entity A → Prop) `{!∀ r, Decision (Q r)} t k :
  first (filter (λ r : entity A, r.1 = k ∧ Q r) (query t))
  = match t !! k with
    | Some v => if decide (Q (k, v)) then Some (k, v) else None
    | None => None
    end.
Proof.
  rewrite (list_filter_iff _ (λ r : entity A, Q r ∧ r.1 = k)) by tauto.
  rewrite <- list_filter_filter, filter_key.
  destruct (t !! k) as [v|]; [|done].
  rewrite filter_cons. by destruct (decide (Q (k, v))).
Qed.

(** Every key is below the one the table gives next. *)
Lemma next_id_fresh t : t !! next_id t = None.
Proof.
  destruct (t !! next_id t) as [v|] eqn:Hk; [|done].
  apply elem_of_query in Hk.
  assert (∀ (l : list Z) x, x ∈ l → x ≤ foldr Z.max 0 l) as Hmax.
  { induction l as [|y l IH]; intros x; [by rewrite elem_of_nil|].
    rewrite elem_of_cons. simpl. intros [->|Hx]; [lia|].
    specialize (IH x Hx). lia. }
  assert (next_id t ∈ (query t).*1) as Hin.
  { apply list_elem_of_fmap. by exists (next_id t, v). }
  apply Hmax in Hin. unfold next_id in Hin at 1. lia.
Qed.
End Queries.

(** The inner join with a table on its primary key pairs each row with
    the row its foreign key names, and drops it when there is none. *)
Lemma join_lookup {A B} (q : list (entity A)) (fk : A → Z) (table : gmap Z B) :
  join q fk table
  = b ← q; match table !! fk b.2 with
           | Some u => [(b, (fk b.2, u))]
           | None => []
           end.
Proof.
  assert (∀ (l : list (entity B)) (b : entity A),
            (u ← l; if decide (fk b.2 = u.1) then [(b, u)] else [])
            = pair b <$> filter (λ u : entity B, u.1 = fk b.2) l) as Hrow.
  { intros l b. induction l as [|u l IHl]; [done|].
    rewrite bind_cons, filter_cons, IHl. simpl.
    destruct (decide (fk b.2 = u.1)), (decide (u.1 = fk b.2)); try congruence; done. }
  unfold join. induction q as [|b q IH]; [done|].
  rewrite !bind_cons, IH, Hrow, filter_key. f_equal.
  by destruct (table !! fk b.2).
Qed.

Lemma length_filter_join {A B} (P : entity A * entity B → Prop) `{!∀ r, Decision (P r)}
    (Q : entity A → Prop) `{!∀ b, Decision (Q b)}
    (q : list (entity A)) (fk : A → Z) (table : gmap Z B) :
  (∀ b, Q b ↔ ∃ u, table !! fk b.2 = Some u ∧ P (b, (fk b.2, u))) →
  length (filter P (join q fk table)) = length (filter Q q).
Proof.
  intros HQ. rewrite join_lookup.
  induction q as [|b q IH]; [done|].
  rewrite bind_cons, filter_app, length_app, IH, (filter_cons Q).
  specialize (HQ b).
  destruct (table !! fk b.2) as [u|] eqn:Hu.
  - rewrite filter_cons.
    rewrite filter_nil. destruct HQ as [HQ1 HQ2].
    repeat case_decide; simpl; try lia; exfalso.
    + match goal with Hn : ¬ Q b |- _ => apply Hn, HQ2 end. eauto.
    + match goal with Hq : Q b |- _ => destruct (HQ1 Hq) as (u' & [= <-] & ?) end. done.
  - destruct (decide (Q b)) as [Hq|]; [|done].
    apply HQ in Hq as (? & [=] & _).
Qed.

Lemma filter_iff_elem {A} (P Q : A → Prop) `{!∀ x, Decision (P x), !∀ x, Decision (Q x)}
    (l : list A) :
  (∀ x, x ∈ l → P x ↔ Q x) → filter P l = filter Q l.
Proof.
  induction l as [|x l IH]; intros Hiff; [done|].
  rewrite !filter_cons, IH; cycle 1.
  { intros y Hy. apply Hiff. by right. }
  pose proof (Hiff x (list_elem_of_here x l)) as Hx.
  destruct (decide (P x)), (decide (Q x)); tauto || done.
Qed.

(** ** The service monad *)

Lemma read_only_gets {A} (f : Session → A) : read_only (gets f).
Proof. done. Qed.
Lemma read_only_raise {A} e : read_only (raise (A:=A) e).
Proof. done. Qed.
Lemma read_only_ret {A} (a : A) : read_only (mret a).
Proof. done. Qed.
Lemma read_only_lift {A} (r : result A) : read_only (lift r).
Proof. done. Qed.
Lemma read_only_raise_if cond e : read_only (raise_if cond e).
Proof. by destruct cond. Qed.
Lemma read_only_bind {A B} (m : M A) (f : A → M B) :
  read_only m → (∀ a, read_only (f a)) → read_only (m ≫= f).
Proof.
  intros Hm Hf session. unfold mbind, M_bind.
  specialize (Hm session). destruct (m session) as [[a|e] session']; simpl in *; subst.
  - apply Hf.
  - done.
Qed.
Lemma read_only_if {A} (cond : bool) (m1 m2 : M A) :
  read_only m1 → read_only m2 → read_only (if cond then m1 else m2).
Proof. by destruct cond. Qed.

Create HintDb read_only.
#[global] Hint Resolve read_only_gets read_only_raise read_only_ret read_only_lift
  read_only_raise_if read_only_if : read_only.

Ltac solve_read_only :=
  repeat first
    [ apply read_only_bind; [|intros ?]
    | progress auto with read_only
    | match goal with |- read_only (match ?x with _ => _ end) => destruct x end ].

Lemma bind_eq {A B} (m : M A) (f : A → M B) session :
  (m ≫= f) session
  = match m session with
    | (Return a, session') => f a session'
    | (Raise e, session') => (Raise e, session')
    end.
Proof. done. Qed.

(** ** The blocks make up [attempt_booking] *)

Lemma attempt_booking_blocks_eq clock user_id activity_id session :
  attempt_booking clock user_id activity_id session
  = attempt_booking_blocks clock user_id activity_id session.
Proof.
  unfold attempt_booking, attempt_booking_blocks, load_user, load_activity.
  unfold duplicate_guard, membership_check, capacity_check, medical_check,
    create_booking, confirmed_pair, volunteer_rows, new_booking.
  unfold mbind, M_bind, gets, raise, raise_if, lift, mret, M_ret.
  repeat (case_match; try reflexivity); simplify_eq.
Qed.

Lemma load_user_eq user_id session :
  load_user user_id session
  = (match users session !! user_id with
     | Some u => Return (user_id, u)
     | None => Raise (BookingError "User not found" "USER_NOT_FOUND")
     end, session).
Proof.
  unfold load_user. rewrite bind_eq. unfold gets.
  rewrite first_filter_key. by destruct (users session !! user_id).
Qed.

Lemma load_activity_eq activity_id session :
  load_activity activity_id session
  = (match activities session !! activity_id with
     | Some a => Return (activity_id, a)
     | None => Raise (BookingError "Activity not found" "ACTIVITY_NOT_FOUND")
     end, session).
Proof.
  unfold load_activity. rewrite bind_eq. unfold gets.
  rewrite first_filter_key. by destruct (activities session !! activity_id).
Qed.

Lemma read_only_duplicate_guard user_id activity_id :
  read_only (duplicate_guard user_id activity_id).
Proof. unfold duplicate_guard. solve_read_only. Qed.

Lemma read_only_membership_check clock user user_id :
  read_only (membership_check clock user user_id).
Proof. unfold membership_check. solve_read_only. Qed.

Lemma read_only_capacity_check user activity activity_id :
  read_only (capacity_check user activity activity_id).
Proof. unfold capacity_check. solve_read_only. Qed.

Lemma read_only_medical_check user activity : read_only (medical_check user activity).
Proof. unfold medical_check. solve_read_only. Qed.

(** ** What each block decides *)

Lemma has_confirmed_iff session user_id activity_id :
  Spec.has_confirmed session user_id activity_id
  ↔ confirmed_pair user_id activity_id session ≠ [].
Proof.
  unfold Spec.has_confirmed, confirmed_pair. split.
  - intros (k & b & Hk & Hu & Ha & Hs) Hnil.
    assert ((k, b) ∈ filter (λ b : entity Booking.t,
              Booking.user_id b.2 = user_id ∧ Booking.activity_id b.2 = activity_id
              ∧ Booking.status b.2 = CONFIRMED) (query (bookings session))) as Hin.
    { apply list_elem_of_filter. split; [done|]. by apply elem_of_query. }
    rewrite Hnil in Hin. by apply elem_of_nil in Hin.
  - intros Hne.
    destruct (filter _ _) as [|[k b] l] eqn:Hf; [done|].
    pose proof (list_elem_of_here (k, b) l) as Hin.
    rewrite <- Hf in Hin. apply list_elem_of_filter in Hin as [(? & ? & ?) Hin].
    apply elem_of_query in Hin. by exists k, b.
Qed.

#[global] Instance has_confirmed_dec session user_id activity_id :
  Decision (Spec.has_confirmed session user_id activity_id).
Proof.
  refine (cast_if (decide (confirmed_pair user_id activity_id session ≠ [])));
    by rewrite has_confirmed_iff.
Defined.

Lemma duplicate_guard_eq user_id activity_id session :
  duplicate_guard user_id activity_id session
  = (if decide (Spec.has_confirmed session user_id activity_id)
     then Raise duplicate_error else Return (), session).
Proof.
  unfold duplicate_guard. rewrite bind_eq. unfold gets, raise_if.
  destruct (decide _) as [Hc|Hc]; rewrite has_confirmed_iff in Hc.
  - destruct (confirmed_pair _ _ _); [done|]. reflexivity.
  - destruct (confirmed_pair _ _ _); [|by destruct Hc]. reflexivity.
Qed.

(** The limit of every tier, read off the table. *)
Lemma token_limit_cases (user : entity User.t) :
  get_weekly_token_limit user
  = match User.membership_tier user.2 with
    | ADHOC => Int 0
    | WEEKLY_1 => Int 1
    | WEEKLY_2 => Int 2
    | UNLIMITED => Inf
    end.
Proof. unfold get_weekly_token_limit. by destruct (User.membership_tier user.2). Qed.

(** The token check, as a decision on the tier and the weekly usage. *)
Lemma membership_check_eq clock (user : entity User.t) user_id session :
  membership_check clock user user_id session
  = (if decide (User.role user.2 = VOLUNTEER) then Return ()
     else if decide (User.membership_tier user.2 = ADHOC) then Raise payment_error
     else match get_weekly_token_limit user with
          | Int limit =>
              let usage := Spec.weekly_usage (now_check clock) session user_id in
              if decide (limit ≤ usage) then Raise (token_error usage limit)
              else Return ()
          | Inf => Return ()
          end,
     session).
Proof.
  unfold membership_check, Spec.weekly_usage.
  destruct (decide (User.role user.2 = VOLUNTEER)) as [Hr|Hr].
  - rewrite bool_decide_false by (by intros []). done.
  - rewrite bool_decide_true by done. cbv zeta.
    rewrite !bind_eq. unfold gets.
    destruct (decide (User.membership_tier user.2 = ADHOC)) as [Ht|Ht].
    + rewrite bool_decide_true by done. done.
    + rewrite bool_decide_false by done. unfold raise_if at 1. unfold mret at 1, M_ret.
      destruct (get_weekly_token_limit user) as [limit|]; [|done].
      unfold is_inf, int_ge, negb, andb.
      destruct (decide (limit ≤ _)).
      * rewrite bool_decide_true by done. done.
      * rewrite bool_decide_false by done. done.
Qed.

(** The counts over the join are the counts of the specification. *)
Lemma volunteer_rows_count session activity_id :
  count (volunteer_rows activity_id session)
  = Spec.current_volunteer_count session activity_id.
Proof.
  unfold volunteer_rows, Spec.current_volunteer_count, Spec.confirmed_volunteer_bookings, count.
  f_equal. apply length_filter_join. intros [k b]. unfold Spec.owner_role. simpl.
  destruct (users session !! Booking.user_id b) as [u|]; simpl.
  - split.
    + intros (? & ? & [= Hu]). by exists u.
    + intros (u' & [= <-] & ? & ? & ?). repeat split; try done. congruence.
  - split.
    + intros (_ & _ & [=]).
    + intros (? & [=] & _).
Qed.

Lemma get_current_capacity_spec (activity : entity Activity.t) session :
  get_current_capacity activity session = Spec.current_capacity session activity.
Proof.
  unfold get_current_capacity, Spec.current_capacity.
  fold (volunteer_rows activity.1 session). rewrite volunteer_rows_count. lia.
Qed.

Lemma get_current_attendees_spec (activity : entity Activity.t) session :
  get_current_attendees activity session = Spec.current_attendees session activity.
Proof.
  unfold get_current_attendees, Spec.current_attendees, Spec.confirmed_attendee_bookings, count.
  f_equal. apply length_filter_join. intros [k b]. unfold Spec.owner_role. simpl.
  destruct (users session !! Booking.user_id b) as [u|]; simpl.
  - split.
    + intros (? & ? & _ & Hne). exists u. repeat split; try done. congruence.
    + intros (u' & [= <-] & ? & ? & ?). repeat split; try done; try by eexists. congruence.
  - split.
    + intros (_ & _ & [? [=]] & _).
    + intros (? & [=] & _).
Qed.

Lemma capacity_check_eq (user : entity User.t) (activity : entity Activity.t) session :
  capacity_check user activity activity.1 session
  = (if decide (User.role user.2 = VOLUNTEER) then
       let volunteers := Spec.current_volunteer_count session activity.1 in
       if decide (Activity.volunteer_slots activity.2 ≤ volunteers)
       then Raise (volunteer_error volunteers (Activity.volunteer_slots activity.2))
       else Return ()
     else
       let attendees := Spec.current_attendees session activity in
       let capacity := Spec.current_capacity session activity in
       if decide (capacity ≤ attendees)
       then Raise (full_error attendees capacity)
       else Return (),
     session).
Proof.
  unfold capacity_check. unfold mbind, M_bind, gets. cbv beta iota zeta.
  rewrite get_current_capacity_spec, get_current_attendees_spec.
  destruct (decide (User.role user.2 = VOLUNTEER)) as [Hr|Hr].
  - rewrite bool_decide_true by done. rewrite volunteer_rows_count.
    destruct (decide _).
    + rewrite bool_decide_true by done. done.
    + rewrite bool_decide_false by done. done.
  - rewrite bool_decide_false by done.
    destruct (decide _).
    + rewrite bool_decide_true by done. done.
    + rewrite bool_decide_false by done. done.
Qed.

Lemma medical_check_eq user activity session :
  medical_check user activity session = (medical_verdict user activity, session).
Proof.
  unfold medical_check, medical_verdict. unfold mbind, M_bind, lift. cbv beta iota zeta.
  destruct (dict_get _ _ _) as [w|e]; [|done].
  destruct (truthy w); [|done].
  destruct (is_accessible activity) as [acc|e]; [|done].
  unfold mret, M_ret. by destruct (truthy acc).
Qed.

Lemma create_booking_eq clock user activity user_id activity_id session :
  ∃ confirmation,
    create_booking clock user activity user_id activity_id session
    = (Return confirmation, add_booking session (new_booking clock user_id activity_id))
    ∧ booking_id confirmation = next_id (bookings session)
    ∧ booking_status confirmation = CONFIRMED.
Proof.
  unfold create_booking. unfold mbind, M_bind, add_commit_refresh, gets. cbv beta iota zeta.
  destruct (bool_decide (User.role user.2 ≠ VOLUNTEER)); eexists; split_and!; reflexivity.
Qed.

(** [attempt_booking] as the sequence of its checks on one and the same
    session, then the insert. *)
Lemma attempt_booking_eq clock user_id activity_id session :
  attempt_booking clock user_id activity_id session
  = match users session !! user_id with
    | None => (Raise user_not_found, session)
    | Some u =>
    match activities session !! activity_id with
    | None => (Raise activity_not_found, session)
    | Some a =>
    if decide (Spec.has_confirmed session user_id activity_id)
    then (Raise duplicate_error, session) else
    match (membership_check clock (user_id, u) user_id session).1 with
    | Raise e => (Raise e, session)
    | Return _ =>
    match (capacity_check (user_id, u) (activity_id, a) activity_id session).1 with
    | Raise e => (Raise e, session)
    | Return _ =>
    match medical_verdict (user_id, u) (activity_id, a) with
    | Raise e => (Raise e, session)
    | Return _ =>
        create_booking clock (user_id, u) (activity_id, a) user_id activity_id session
    end end end end end.
Proof.
  rewrite attempt_booking_blocks_eq. unfold attempt_booking_blocks.
  rewrite bind_eq, load_user_eq.
  destruct (users session !! user_id) as [u|]; [|done].
  rewrite bind_eq, load_activity_eq.
  destruct (activities session !! activity_id) as [a|]; [|done].
  rewrite bind_eq, duplicate_guard_eq.
  destruct (decide (Spec.has_confirmed _ _ _)); [done|].
  rewrite bind_eq.
  pose proof (read_only_membership_check clock (user_id, u) user_id session) as Hm.
  destruct (membership_check _ _ _ _) as [[[]|e] s1]; simpl in Hm; subst s1; [|done].
  rewrite bind_eq.
  pose proof (read_only_capacity_check (user_id, u) (activity_id, a) activity_id session) as Hc.
  destruct (capacity_check _ _ _ _) as [[[]|e] s1]; simpl in Hc; subst s1; [|done].
  rewrite bind_eq, medical_check_eq.
  by destruct (medical_verdict _ _) as [[]|e].
Qed.

Lemma medical_verdict_raise user activity e :
  medical_verdict user activity = Raise e → e = mismatch_error ∨ e = AttributeError.
Proof.
  unfold medical_verdict, is_accessible, dict_get.
  repeat case_match; intros [= <-]; auto; simplify_eq; auto.
Qed.

Lemma medical_then_create_cases clock user activity session :
  (medical_verdict user activity = Return ()
   ∧ ∃ confirmation,
       medical_then_create clock user activity session
       = (Return confirmation, add_booking session (new_booking clock user.1 activity.1))
       ∧ booking_id confirmation = next_id (bookings session)
       ∧ booking_status confirmation = CONFIRMED)
  ∨ (∃ e, medical_verdict user activity = Raise e
          ∧ medical_then_create clock user activity session = (Raise e, session)
          ∧ (e = mismatch_error ∨ e = AttributeError)).
Proof.
  unfold medical_then_create.
  destruct (medical_verdict user activity) as [[]|e] eqn:Hv.
  - left. split; [done|]. apply create_booking_eq.
  - right. exists e. split_and!; try done. by eapply medical_verdict_raise.
Qed.

(** The decision for a volunteer that exists, on an activity that exists
    and that the volunteer has not booked. *)
Lemma attempt_booking_volunteer clock user_id activity_id session u a :
  users session !! user_id = Some u → activities session !! activity_id = Some a →
  ¬ Spec.has_confirmed session user_id activity_id →
  User.role u = VOLUNTEER →
  attempt_booking clock user_id activity_id session
  = let volunteers := Spec.current_volunteer_count session activity_id in
    if decide (Activity.volunteer_slots a ≤ volunteers)
    then (Raise (volunteer_error volunteers (Activity.volunteer_slots a)), session)
    else medical_then_create clock (user_id, u) (activity_id, a) session.
Proof.
  intros Hu Ha Hdup Hr. rewrite attempt_booking_eq, Hu, Ha, decide_False by done.
  rewrite membership_check_eq.
  pose proof (capacity_check_eq (user_id, u) (activity_id, a) session) as Hcap.
  cbn [fst snd] in Hcap. rewrite Hcap. clear Hcap.
  simpl. destruct (decide (User.role u = VOLUNTEER)); [|done]. simpl.
  by destruct (decide _).
Qed.

(** The decision for another user. *)
Lemma attempt_booking_participant clock user_id activity_id session u a :
  users session !! user_id = Some u → activities session !! activity_id = Some a →
  ¬ Spec.has_confirmed session user_id activity_id →
  User.role u ≠ VOLUNTEER →
  attempt_booking clock user_id activity_id session
  = if decide (User.membership_tier u = ADHOC) then (Raise payment_error, session)
    else match get_weekly_token_limit (user_id, u) with
         | Int limit =>
             let usage := Spec.weekly_usage (now_check clock) session user_id in
             if decide (limit ≤ usage) then (Raise (token_error usage limit), session)
             else capacity_then_create clock (user_id, u) (activity_id, a) session
         | Inf => capacity_then_create clock (user_id, u) (activity_id, a) session
         end.
Proof.
  intros Hu Ha Hdup Hr. rewrite attempt_booking_eq, Hu, Ha, decide_False by done.
  rewrite membership_check_eq.
  pose proof (capacity_check_eq (user_id, u) (activity_id, a) session) as Hcap.
  cbn [fst snd] in Hcap. rewrite Hcap. clear Hcap.
  unfold capacity_then_create, medical_then_create.
  simpl. destruct (decide (User.role u = VOLUNTEER)); [done|].
  destruct (decide (User.membership_tier u = ADHOC)); [done|].
  destruct (get_weekly_token_limit (user_id, u)) as [limit|]; simpl.
  - destruct (decide (limit ≤ _)); [done|]. simpl. by destruct (decide _).
  - by destruct (decide _).
Qed.

Lemma fails_with_medical_then_create clock user activity session error_code :
  fails_with (medical_then_create clock user activity session) error_code →
  error_code = "ACCESSIBILITY_MISMATCH"
  ∧ medical_verdict user activity = Raise mismatch_error.
Proof.
  intros [message Hfail]. revert Hfail.
  destruct (medical_then_create_cases clock user activity session)
    as [(_ & conf & -> & _)|(e & Hv & -> & [->| ->])]; simpl; by intros [= <- <-] || intros [=].
Qed.

Lemma succeeds_medical_then_create clock user activity session :
  succeeds (medical_then_create clock user activity session)
  ↔ medical_verdict user activity = Return ().
Proof.
  destruct (medical_then_create_cases clock user activity session)
    as [(Hv & conf & -> & _)|(e & Hv & -> & _)]; rewrite Hv; split; try done.
  - by exists conf.
  - by intros [? [=]].
Qed.

(** ** What [cancel_booking] does *)

Lemma cancel_booking_eq now booking_id user_id session :
  cancel_booking now booking_id user_id session
  = match bookings session !! booking_id with
    | Some b =>
        if decide (Booking.user_id b = user_id) then
          if decide (Booking.status b = CANCELLED)
          then (Raise (BookingError "Booking already cancelled" "ALREADY_CANCELLED"), session)
          else (Return {| cancel_message := "Booking cancelled successfully";
                          cancelled_booking_id := booking_id |},
                set_booking session booking_id (cancelled now b))
        else (Raise (BookingError "Booking not found or unauthorized" "BOOKING_NOT_FOUND"),
              session)
    | None => (Raise (BookingError "Booking not found or unauthorized" "BOOKING_NOT_FOUND"),
               session)
    end.
Proof.
  unfold cancel_booking. rewrite bind_eq. unfold gets.
  rewrite (first_filter_key_and (λ b : entity Booking.t, Booking.user_id b.2 = user_id)).
  destruct (bookings session !! booking_id) as [b|]; [|done]. simpl.
  destruct (decide (Booking.user_id b = user_id)); [|done].
  unfold mbind, M_bind, raise_if. simpl.
  destruct (decide (Booking.status b = CANCELLED)).
  - by rewrite bool_decide_true.
  - by rewrite bool_decide_false.
Qed.

(** ** The steps between reachable states *)

Lemma attempt_booking_raise_unchanged clock user_id activity_id session e session' :
  attempt_booking clock user_id activity_id session = (Raise e, session') →
  session' = session.
Proof.
  rewrite attempt_booking_eq.
  destruct (users session !! user_id) as [u|]; [|by intros [= _ <-]].
  destruct (activities session !! activity_id) as [a|]; [|by intros [= _ <-]].
  destruct (decide _); [by intros [= _ <-]|].
  destruct (membership_check _ _ _ _).1; [|by intros [= _ <-]].
  destruct (capacity_check _ _ _ _).1; [|by intros [= _ <-]].
  destruct (medical_verdict _ _); [|by intros [= _ <-]].
  destruct (create_booking_eq clock (user_id, u) (activity_id, a)
              user_id activity_id session) as (conf & -> & _).
  intros [=].
Qed.

(** A call leaves the session as it was, or inserts a Confirmed booking of
    a pair that has none, or cancels a booking that is not Cancelled. *)
Lemma run_cases c session :
  run c session = session
  ∨ (∃ clock user_id activity_id,
       c = AttemptBooking clock user_id activity_id
       ∧ is_Some (users session !! user_id)
       ∧ is_Some (activities session !! activity_id)
       ∧ ¬ Spec.has_confirmed session user_id activity_id
       ∧ run c session = add_booking session (new_booking clock user_id activity_id))
  ∨ (∃ now booking_id b,
       c = CancelBooking now booking_id (Booking.user_id b)
       ∧ bookings session !! booking_id = Some b
       ∧ Booking.status b ≠ CANCELLED
       ∧ run c session = set_booking session booking_id (cancelled now b)).
Proof.
  destruct c as [clock user_id activity_id|now booking_id user_id]; simpl.
  - rewrite attempt_booking_eq.
    destruct (users session !! user_id) as [u|] eqn:Hu; [|by left].
    destruct (activities session !! activity_id) as [a|] eqn:Ha; [|by left].
    destruct (decide _) as [|Hdup]; [by left|].
    destruct (membership_check _ _ _ _).1; [|by left].
    destruct (capacity_check _ _ _ _).1; [|by left].
    destruct (medical_verdict _ _); [|by left].
    destruct (create_booking_eq clock (user_id, u) (activity_id, a)
                user_id activity_id session) as (conf & -> & _).
    right; left. exists clock, user_id, activity_id. by rewrite Hu, Ha.
  - rewrite cancel_booking_eq.
    destruct (bookings session !! booking_id) as [b|] eqn:Hb; [|by left].
    destruct (decide _) as [<-|]; [|by left].
    destruct (decide _); [by left|].
    right; right. by exists now, booking_id, b.
Qed.

(** ** The invariants are kept by every call *)

Lemma lookup_add_booking session row k b :
  bookings (add_booking session row) !! k = Some b →
  (k = next_id (bookings session) ∧ b = row ∧ bookings session !! k = None)
  ∨ bookings session !! k = Some b.
Proof.
  simpl. rewrite lookup_insert. case_decide as Hk.
  - intros [= <-]. left. subst k. by rewrite next_id_fresh.
  - by right.
Qed.

Lemma lookup_set_booking session k0 row k b :
  bookings (set_booking session k0 row) !! k = Some b →
  (k = k0 ∧ b = row) ∨ (k ≠ k0 ∧ bookings session !! k = Some b).
Proof.
  simpl. rewrite lookup_insert. case_decide as Hk.
  - intros [= <-]. by left.
  - by right.
Qed.

Lemma unique_confirmed_run c session :
  unique_confirmed session → unique_confirmed (run c session).
Proof.
  intros Hinv.
  destruct (run_cases c session) as
    [->|[(clock & uid & aid & -> & _ & _ & Hdup & ->)|(now & k & b & -> & Hb & Hs & ->)]];
    [done| |].
  - intros k1 k2 b1 b2 H1 H2 Hu Ha Hs1 Hs2.
    apply lookup_add_booking in H1 as [(-> & -> & _)|H1];
      apply lookup_add_booking in H2 as [(-> & -> & _)|H2]; simpl in *.
    + done.
    + destruct Hdup. by exists k2, b2.
    + destruct Hdup. by exists k1, b1.
    + by eapply Hinv.
  - intros k1 k2 b1 b2 H1 H2 Hu Ha Hs1 Hs2.
    apply lookup_set_booking in H1 as [(-> & ->)|[? H1]]; [done|].
    apply lookup_set_booking in H2 as [(-> & ->)|[? H2]]; [done|].
    by eapply Hinv.
Qed.

Lemma referential_run c session :
  referential session → referential (run c session).
Proof.
  intros Hinv.
  destruct (run_cases c session) as
    [->|[(clock & uid & aid & -> & Hu & Ha & _ & ->)|(now & k & b & -> & Hb & Hs & ->)]];
    [done| |].
  - intros k1 b1 H1. apply lookup_add_booking in H1 as [(-> & -> & _)|H1]; simpl.
    + done.
    + by eapply Hinv.
  - intros k1 b1 H1. apply lookup_set_booking in H1 as [(-> & ->)|[? H1]]; simpl.
    + by eapply Hinv.
    + by eapply Hinv.
Qed.

Lemma lifecycle_run c session :
  lifecycle session → lifecycle (run c session).
Proof.
  intros Hinv.
  destruct (run_cases c session) as
    [->|[(clock & uid & aid & -> & _ & _ & _ & ->)|(now & k & b & -> & Hb & Hs & ->)]];
    [done| |].
  - intros k1 b1 H1. apply lookup_add_booking in H1 as [(-> & -> & _)|H1]; simpl.
    + by left.
    + by eapply Hinv.
  - intros k1 b1 H1. apply lookup_set_booking in H1 as [(-> & ->)|[? H1]]; simpl.
    + by right.
    + by eapply Hinv.
Qed.

Lemma reachable_invariants session :
  reachable session →
  unique_confirmed session ∧ referential session ∧ lifecycle session.
Proof.
  induction 1 as [session Hempty|session c _ (Hu & Hr & Hl)].
  - unfold unique_confirmed, referential, lifecycle. rewrite Hempty.
    split_and!; intros *; by rewrite lookup_empty.
  - auto using unique_confirmed_run, referential_run, lifecycle_run.
Qed.

(** Under the invariant, the query of the duplicate guard has at most one row. *)
Lemma unique_confirmed_count session user_id activity_id :
  unique_confirmed session → count (confirmed_pair user_id activity_id session) ≤ 1.
Proof.
  intros Hinv. unfold count, confirmed_pair.
  assert (NoDup (filter (λ b : entity Booking.t,
            Booking.user_id b.2 = user_id ∧ Booking.activity_id b.2 = activity_id
            ∧ Booking.status b.2 = CONFIRMED) (query (bookings session)))) as Hnd.
  { apply NoDup_filter, NoDup_map_to_list. }
  destruct (filter _ _) as [|[k1 b1] [|[k2 b2] l]] eqn:Hf; simpl; [lia..|].
  exfalso.
  assert (∀ r, r ∈ (k1, b1) :: (k2, b2) :: l →
            bookings session !! r.1 = Some r.2
            ∧ Booking.user_id r.2 = user_id ∧ Booking.activity_id r.2 = activity_id
            ∧ Booking.status r.2 = CONFIRMED) as Hall.
  { intros [k b]. rewrite <- Hf, list_elem_of_filter, elem_of_query. tauto. }
  destruct (Hall (k1, b1)) as (Hk1 & Hu1 & Ha1 & Hs1); [left|].
  destruct (Hall (k2, b2)) as (Hk2 & Hu2 & Ha2 & Hs2); [right; left|]. simpl in *.
  assert (k1 = k2) as -> by (eapply Hinv; eauto; congruence).
  assert (b1 = b2) as -> by congruence.
  apply NoDup_cons in Hnd as [Hnin _]. apply Hnin. left.
Qed.

(** ** Outcomes *)

Lemma fails_with_raise {A} (e : exn) session error_code :
  fails_with (A:=A) (Raise e, session) error_code
  ↔ ∃ message, e = BookingError message error_code.
Proof.
  unfold fails_with. simpl. split; intros [message H]; exists message; congruence.
Qed.

Lemma duplicate_rejected clock user_id activity_id session :
  referential session →
  Spec.has_confirmed session user_id activity_id →
  attempt_booking clock user_id activity_id session = (Raise duplicate_error, session).
Proof.
  intros Href Hdup. rewrite attempt_booking_eq.
  destruct Hdup as (k & b & Hb & <- & <- & Hs).
  destruct (Href k b Hb) as [[u ->] [a ->]].
  rewrite decide_True; [done|]. by exists k, b.
Qed.

(** An attempt that is refused with ACTIVITY_FULL met a full activity. *)
Lemma activity_full_sound clock user_id activity_id session u a :
  users session !! user_id = Some u → activities session !! activity_id = Some a →
  fails_with (attempt_booking clock user_id activity_id session) "ACTIVITY_FULL" →
  User.role u ≠ VOLUNTEER
  ∧ ¬ Spec.has_confirmed session user_id activity_id
  ∧ Spec.current_capacity session (activity_id, a)
    ≤ Spec.current_attendees session (activity_id, a).
Proof.
  intros Hu Ha.
  destruct (decide (Spec.has_confirmed session user_id activity_id)) as [Hdup|Hdup].
  { rewrite attempt_booking_eq, Hu, Ha, decide_True by done.
    by intros [? [=]]%fails_with_raise. }
  destruct (decide (User.role u = VOLUNTEER)) as [Hr|Hr].
  { rewrite (attempt_booking_volunteer _ _ _ _ u a) by done. cbv zeta.
    destruct (decide _).
    - by intros [? [=]]%fails_with_raise.
    - by intros [[=] _]%fails_with_medical_then_create. }
  rewrite (attempt_booking_participant _ _ _ _ u a) by done.
  unfold capacity_then_create.
  repeat case_match; try (by intros [? [=]]%fails_with_raise);
    try (by intros [[=] _]%fails_with_medical_then_create); done.
Qed.

Lemma not_token_check_fails now session (user : entity User.t) :
  User.role user.2 ≠ VOLUNTEER →
  ¬ Spec.token_check_fails now session user →
  Spec.tokens_available now session user.
Proof.
  intros Hr Hnot. split.
  - intros Ht. apply Hnot. split; auto.
  - intros limit Hl.
    destruct (decide (limit ≤ Spec.weekly_usage now session user.1)); [|lia].
    destruct Hnot. split; [done|]. right. by exists limit.
Qed.

(** ** Counts after a cancellation *)

Section Counts.
Context {A : Type} (P : entity A → Prop) `{!∀ r, Decision (P r)}.
Implicit Types (t : gmap Z A).

Lemma length_filter_update_out t k v v' :
  t !! k = Some v → ¬ P (k, v') →
  length (filter P (query (<[k:=v']> t))) = length (filter P (query (delete k t))).
Proof.
  intros Hk Hout. rewrite (query_update t k v v' Hk).
  by rewrite filter_cons_False.
Qed.

Lemma length_filter_split t k v :
  t !! k = Some v →
  length (filter P (query t))
  = ((if decide (P (k, v)) then 1 else 0) + length (filter P (query (delete k t))))%nat.
Proof.
  intros Hk. rewrite (query_split t k v Hk), filter_cons.
  by destruct (decide (P (k, v))).
Qed.
End Counts.

Section Cancelled.
Context (session : Session) (k : Z) (b : Booking.t) (now : datetime).
Context (Hk : bookings session !! k = Some b).

Let session' := set_booking session k (cancelled now b).

Lemma cancelled_attendees activity :
  Spec.current_attendees session' activity
  = Spec.current_attendees (without_booking session k) activity.
Proof.
  unfold Spec.current_attendees, Spec.confirmed_attendee_bookings, count. f_equal.
  apply (length_filter_update_out _ _ _ b); [done|]. simpl. by intros (_ & [=] & _).
Qed.

Lemma cancelled_volunteer_count activity_id :
  Spec.current_volunteer_count session' activity_id
  = Spec.current_volunteer_count (without_booking session k) activity_id.
Proof.
  unfold Spec.current_volunteer_count, Spec.confirmed_volunteer_bookings, count. f_equal.
  apply (length_filter_update_out _ _ _ b); [done|]. simpl. by intros (_ & [=] & _).
Qed.

Lemma cancelled_weekly user_id week :
  count (weekly_bookings user_id week session')
  = count (weekly_bookings user_id week (without_booking session k)).
Proof.
  unfold weekly_bookings, count. f_equal.
  apply (length_filter_update_out _ _ _ b); [done|]. simpl. by intros (_ & [=] & _).
Qed.

Lemma cancelled_no_confirmed :
  unique_confirmed session → Booking.status b = CONFIRMED →
  ¬ Spec.has_confirmed session' (Booking.user_id b) (Booking.activity_id b).
Proof.
  intros Hinv Hs (k' & b' & Hk' & Hu & Ha & Hs').
  apply lookup_set_booking in Hk' as [(-> & ->)|[Hne Hk']]; [done|].
  apply Hne. by eapply Hinv.
Qed.
End Cancelled.

(** ** Accessibility *)

Lemma is_accessible_dict id (a : Activity.t) d :
  Activity.requirements a = JObj d →
  is_accessible (id, a) = Return (default (JBool false) (d !! "accessible")).
Proof. unfold is_accessible. simpl. by intros ->. Qed.

Lemma is_accessible_empty id (a : Activity.t) :
  Activity.requirements a = JObj ∅ → is_accessible (id, a) = Return (JBool false).
Proof. intros Hr. by rewrite (is_accessible_dict _ _ ∅ Hr). Qed.

Lemma is_accessible_not_dict id (a : Activity.t) :
  (∀ d, Activity.requirements a ≠ JObj d) → is_accessible (id, a) = Raise AttributeError.
Proof.
  unfold is_accessible. simpl. intros Hr.
  destruct (Activity.requirements a) as [| | | | |d]; try done. by destruct (Hr d).
Qed.

(** A user whose flags are a dict with wheelchair true, on an activity
    whose requirements are a dict: once the earlier checks pass, the
    attempt is refused with ACCESSIBILITY_MISMATCH when the accessible
    entry is absent or falsy, and succeeds when it is truthy. *)
Lemma wheelchair_booking clock user_id activity_id session u a flags requirements :
  users session !! user_id = Some u → activities session !! activity_id = Some a →
  ¬ Spec.has_confirmed session user_id activity_id →
  ¬ Spec.token_check_fails (now_check clock) session (user_id, u) →
  ¬ Spec.capacity_check_fails session (user_id, u) (activity_id, a) →
  User.medical_flags u = JObj flags → flags !! "wheelchair" = Some (JBool true) →
  Activity.requirements a = JObj requirements →
  let outcome := attempt_booking clock user_id activity_id session in
  if truthy (default (JBool false) (requirements !! "accessible"))
  then succeeds outcome
  else outcome = (Raise mismatch_error, session).
Proof.
  intros Hu Ha Hdup Htok Hcap Hflags Hw Hreq outcome.
  assert (outcome = medical_then_create clock (user_id, u) (activity_id, a) session) as ->.
  { subst outcome. destruct (decide (User.role u = VOLUNTEER)) as [Hr|Hr].
    - rewrite (attempt_booking_volunteer _ _ _ _ u a) by done. cbv zeta.
      rewrite decide_False; [done|]. intros Hle. apply Hcap. by left.
    - rewrite (attempt_booking_participant _ _ _ _ u a) by done.
      apply not_token_check_fails in Htok as [Ht Hl]; [|done]. simpl in Ht, Hl.
      rewrite decide_False by done.
      assert (capacity_then_create clock (user_id, u) (activity_id, a) session
              = medical_then_create clock (user_id, u) (activity_id, a) session) as Hc.
      { unfold capacity_then_create. cbv zeta. rewrite decide_False; [done|].
        intros Hle. apply Hcap. by right. }
      destruct (get_weekly_token_limit (user_id, u)) as [limit|]; [|done].
      specialize (Hl limit eq_refl). cbv zeta. by rewrite decide_False by lia. }
  assert (medical_verdict (user_id, u) (activity_id, a)
          = if truthy (default (JBool false) (requirements !! "accessible"))
            then Return () else Raise mismatch_error) as Hv.
  { unfold medical_verdict, py_or. simpl. rewrite Hflags. simpl.
    assert (bool_decide (flags = ∅) = false) as ->.
    { apply bool_decide_eq_false. intros ->. by rewrite lookup_empty in Hw. }
    simpl. rewrite Hw. simpl. by rewrite (is_accessible_dict _ _ _ Hreq). }
  destruct (truthy _).
  - by apply succeeds_medical_then_create.
  - unfold medical_then_create. by rewrite Hv.
Qed.

(** * The claims *)

(** C1: in every state the two calls reach, a pair (user_id, activity_id)
    has at most one Confirmed booking, and an attempt for a pair that has
    one is rejected with DUPLICATE_BOOKING, the session left as it was. *)
Theorem C1_one_confirmed_booking_per_pair session :
  reachable session →
  (∀ user_id activity_id, count (confirmed_pair user_id activity_id session) ≤ 1)
  ∧ (∀ clock user_id activity_id,
       Spec.has_confirmed session user_id activity_id →
       attempt_booking clock user_id activity_id session
       = (Raise (BookingError "You have already booked this activity" "DUPLICATE_BOOKING"),
          session)).
Proof.
  intros (Hu & Hr & _)%reachable_invariants. split.
  - intros. by apply unique_confirmed_count.
  - intros. by apply duplicate_rejected.
Qed.

Lemma C1_witness :
  reachable Scenario.alice_yoga
  ∧ count (confirmed_pair 1 1 Scenario.alice_yoga) = 1
  ∧ count (confirmed_pair 1 1 Scenario.alice_yoga) ≤ 1
  ∧ attempt_booking Scenario.clock 1 1 Scenario.alice_yoga
    = (Raise (BookingError "You have already booked this activity" "DUPLICATE_BOOKING"),
       Scenario.alice_yoga).
Proof.
  assert (reachable Scenario.alice_yoga) as Hreach.
  { apply reachable_step, reachable_init. reflexivity. }
  destruct (C1_one_confirmed_booking_per_pair _ Hreach) as [Hcount Hdup].
  split_and!.
  - exact Hreach.
  - vm_compute. reflexivity.
  - apply Hcount.
  - apply Hdup. exists 1, (new_booking (Sample.at_ (Sample.monday + 5)) 1 1).
    vm_compute. auto.
Defined.

(** C2: for a user that exists, is not a Volunteer and has no Confirmed
    booking of the existing activity: an Adhoc user is refused with
    PAYMENT_REQUIRED whatever the weekly count; another user whose tier
    has a finite limit that the week's Confirmed bookings have reached is
    refused with TOKEN_LIMIT_REACHED, the message giving usage/limit. *)
Theorem C2_token_check clock user_id activity_id session u a :
  users session !! user_id = Some u →
  activities session !! activity_id = Some a →
  ¬ Spec.has_confirmed session user_id activity_id →
  User.role u ≠ VOLUNTEER →
  (User.membership_tier u = ADHOC →
   attempt_booking clock user_id activity_id session
   = (Raise (BookingError "Ad-hoc members must complete payment before booking"
                          "PAYMENT_REQUIRED"), session))
  ∧ (User.membership_tier u ≠ ADHOC →
     ∀ limit, get_weekly_token_limit (user_id, u) = Int limit →
       let usage := Spec.weekly_usage (now_check clock) session user_id in
       limit ≤ usage →
       attempt_booking clock user_id activity_id session
       = (Raise (BookingError ("Weekly Token Limit Reached. You have used "
                                 +:+ str usage +:+ "/" +:+ str limit
                                 +:+ " tokens this week.")
                              "TOKEN_LIMIT_REACHED"), session)).
Proof.
  intros Hu Ha Hdup Hr.
  rewrite (attempt_booking_participant _ _ _ _ u a) by done. split.
  - intros Ht. by rewrite decide_True.
  - intros Ht limit -> usage Hle. rewrite decide_False by done.
    by rewrite decide_True.
Qed.

Lemma C2_witness :
  attempt_booking Scenario.clock 4 1 Sample.seed
  = (Raise (BookingError "Ad-hoc members must complete payment before booking"
                         "PAYMENT_REQUIRED"), Sample.seed)
  ∧ attempt_booking Scenario.clock 1 5 Scenario.alice_yoga
    = (Raise (BookingError "Weekly Token Limit Reached. You have used 1/1 tokens this week."
                           "TOKEN_LIMIT_REACHED"), Scenario.alice_yoga).
Proof.
  split.
  - refine (proj1 (C2_token_check Scenario.clock 4 1 Sample.seed Sample.david Sample.yoga
                     _ _ _ _) _).
    + vm_compute. reflexivity.
    + vm_compute. reflexivity.
    + rewrite has_confirmed_iff. intros Hne. apply Hne. vm_compute. reflexivity.
    + discriminate.
    + reflexivity.
  - refine (proj2 (C2_token_check Scenario.clock 1 5 Scenario.alice_yoga
                     Sample.alice Sample.tiny _ _ _ _) _ 1 _ _).
    + vm_compute. reflexivity.
    + vm_compute. reflexivity.
    + rewrite has_confirmed_iff. intros Hne. apply Hne. vm_compute. reflexivity.
    + discriminate.
    + discriminate.
    + reflexivity.
    + vm_compute. discriminate.
Defined.

(** C3: the capacity of an activity is its base capacity plus twice the
    number of Confirmed bookings on it whose owner is a Volunteer, and its
    attendees are the Confirmed bookings on it whose owner is not (a
    booking that references no user is counted by neither; there is none
    when every booking references an existing user), both functions of the
    session at the call.  An attempt refused with
    ACTIVITY_FULL met attendees at or over the capacity; and an attempt of
    a user that is not a Volunteer, has not booked the activity and has a
    token left is refused with ACTIVITY_FULL exactly then. *)
Theorem C3_dynamic_capacity (activity : entity Activity.t) session :
  get_current_capacity activity session
  = Activity.base_capacity activity.2
    + 2 * count (Spec.confirmed_volunteer_bookings session activity.1)
  ∧ get_current_attendees activity session
    = count (Spec.confirmed_attendee_bookings session activity.1)
  ∧ (referential session →
     get_current_attendees activity session
     = count (Spec.confirmed_non_volunteer_bookings session activity.1))
  ∧ ∀ clock user_id u,
      users session !! user_id = Some u →
      activities session !! activity.1 = Some activity.2 →
      User.role u ≠ VOLUNTEER →
      let outcome := attempt_booking clock user_id activity.1 session in
      (fails_with outcome "ACTIVITY_FULL" →
       get_current_capacity activity session ≤ get_current_attendees activity session)
      ∧ (¬ Spec.has_confirmed session user_id activity.1 →
         Spec.tokens_available (now_check clock) session (user_id, u) →
         (fails_with outcome "ACTIVITY_FULL"
          ↔ get_current_capacity activity session ≤ get_current_attendees activity session)).
Proof.
  rewrite get_current_capacity_spec, get_current_attendees_spec.
  split; [done|]. split; [done|]. split.
  { intros Href. unfold Spec.current_attendees, Spec.confirmed_attendee_bookings,
      Spec.confirmed_non_volunteer_bookings. f_equal. f_equal.
    apply filter_iff_elem. intros [k b] Hb%elem_of_query. simpl.
    destruct (Href k b Hb) as [[u Hu] _].
    unfold Spec.owner_role. rewrite Hu. simpl. split.
    - by intros (? & ? & _ & ?).
    - intros (? & ? & ?). split_and!; done || by eexists. }
  destruct activity as [activity_id a]. simpl.
  intros clock user_id u Hu Ha Hr. split.
  - intros Hfull. by eapply activity_full_sound.
  - intros Hdup [Htier Hlimit]. split.
    + intros Hfull. by eapply activity_full_sound.
    + intros Hle. rewrite (attempt_booking_participant _ _ _ _ u a) by done.
      rewrite decide_False by done. unfold capacity_then_create.
      destruct (get_weekly_token_limit (user_id, u)) as [limit|] eqn:Hl.
      * specialize (Hlimit limit eq_refl). simpl in Hlimit.
        cbv zeta. rewrite decide_False by lia. rewrite decide_True by done.
        by eexists.
      * cbv zeta. rewrite decide_True by done. by eexists.
Qed.

Lemma C3_witness :
  get_current_capacity (1, Sample.yoga) Scenario.crowd = 10
  ∧ get_current_attendees (1, Sample.yoga) Scenario.crowd = 10
  ∧ attempt_booking Scenario.clock 11 1 Scenario.crowd
    = (Raise (BookingError "Activity at capacity (10/10 attendees)" "ACTIVITY_FULL"),
       Scenario.crowd)
  ∧ fails_with (attempt_booking Scenario.clock 11 1 Scenario.crowd) "ACTIVITY_FULL".
Proof.
  destruct (C3_dynamic_capacity (1, Sample.yoga) Scenario.crowd)
    as (Hcap & Hatt & _ & Hfull).
  split_and!.
  - vm_compute. reflexivity.
  - vm_compute. reflexivity.
  - vm_compute. reflexivity.
  - refine (proj2 (proj2 (Hfull Scenario.clock 11
                            (Scenario.participant 11) _ _ _) _ _) _).
    + vm_compute. reflexivity.
    + vm_compute. reflexivity.
    + discriminate.
    + rewrite has_confirmed_iff. intros Hne. apply Hne. vm_compute. reflexivity.
    + split; [discriminate|]. intros limit [=].
    + vm_compute. discriminate.
Defined.

(** C4: a Volunteer that exists is never refused with PAYMENT_REQUIRED,
    TOKEN_LIMIT_REACHED or ACTIVITY_FULL; on an existing activity the
    Volunteer has not booked, the attempt is refused with
    VOLUNTEER_SLOTS_FULL exactly when the Confirmed volunteer bookings on
    the activity have reached volunteer_slots, and it succeeds when a slot
    is left and the accessibility check passes, however many attendees the
    activity has. *)
Theorem C4_volunteer_booking clock user_id activity_id session u :
  users session !! user_id = Some u →
  User.role u = VOLUNTEER →
  let outcome := attempt_booking clock user_id activity_id session in
  ¬ fails_with outcome "PAYMENT_REQUIRED"
  ∧ ¬ fails_with outcome "TOKEN_LIMIT_REACHED"
  ∧ ¬ fails_with outcome "ACTIVITY_FULL"
  ∧ ∀ a, activities session !! activity_id = Some a →
         ¬ Spec.has_confirmed session user_id activity_id →
         (fails_with outcome "VOLUNTEER_SLOTS_FULL"
          ↔ Activity.volunteer_slots a ≤ Spec.current_volunteer_count session activity_id)
         ∧ (Spec.current_volunteer_count session activity_id < Activity.volunteer_slots a →
            medical_verdict (user_id, u) (activity_id, a) = Return () →
            succeeds outcome
            ∧ outcome.2 = add_booking session (new_booking clock user_id activity_id)).
Proof.
  intros Hu Hr outcome.
  assert (∀ code, code ≠ "VOLUNTEER_SLOTS_FULL" → code ≠ "ACCESSIBILITY_MISMATCH" →
            code ≠ "ACTIVITY_NOT_FOUND" → code ≠ "DUPLICATE_BOOKING" →
            ¬ fails_with outcome code) as Hnever.
  { intros code H1 H2 H3 H4. subst outcome.
    destruct (activities session !! activity_id) as [a|] eqn:Ha; cycle 1.
    { rewrite attempt_booking_eq, Hu, Ha. intros [? [=]]%fails_with_raise; congruence. }
    destruct (decide (Spec.has_confirmed session user_id activity_id)) as [Hdup|Hdup].
    { rewrite attempt_booking_eq, Hu, Ha, decide_True by done.
      intros [? [=]]%fails_with_raise; congruence. }
    rewrite (attempt_booking_volunteer _ _ _ _ u a) by done. cbv zeta.
    destruct (decide _).
    - intros [? [=]]%fails_with_raise; congruence.
    - intros [? _]%fails_with_medical_then_create. congruence. }
  split_and!; try (apply Hnever; discriminate).
  intros a Ha Hdup. subst outcome.
  rewrite (attempt_booking_volunteer _ _ _ _ u a) by done. cbv zeta. split.
  - destruct (decide _) as [Hle|Hlt].
    + split; [done|]. intros _. by eexists.
    + split; [|done]. by intros [[=] _]%fails_with_medical_then_create.
  - intros Hlt Hv. rewrite decide_False by lia.
    split; [by apply succeeds_medical_then_create|].
    destruct (medical_then_create_cases clock (user_id, u) (activity_id, a) session)
      as [(_ & conf & -> & _)|(e & Hv' & _)]; [done|congruence].
Qed.

Lemma C4_witness :
  get_current_attendees (1, Sample.yoga) Scenario.crowd
  = get_current_capacity (1, Sample.yoga) Scenario.crowd
  ∧ ¬ fails_with (attempt_booking Scenario.clock 12 1 Scenario.crowd) "ACTIVITY_FULL"
  ∧ succeeds (attempt_booking Scenario.clock 12 1 Scenario.crowd)
  ∧ get_current_capacity (1, Sample.yoga)
      (attempt_booking Scenario.clock 12 1 Scenario.crowd).2 = 12.
Proof.
  assert (users Scenario.crowd !! 12 = Some Sample.emma) as Hu.
  { vm_compute. reflexivity. }
  destruct (C4_volunteer_booking Scenario.clock 12 1 Scenario.crowd Sample.emma Hu eq_refl)
    as (_ & _ & Hfull & Hslots).
  destruct (Hslots Sample.yoga) as [_ Hbook].
  { vm_compute. reflexivity. }
  { rewrite has_confirmed_iff. intros Hne. apply Hne. vm_compute. reflexivity. }
  destruct Hbook as [Hok _].
  { vm_compute. reflexivity. }
  { vm_compute. reflexivity. }
  split_and!.
  - vm_compute. reflexivity.
  - exact Hfull.
  - exact Hok.
  - vm_compute. reflexivity.
Defined.

(** C5: [is_accessible] on an activity whose requirements are missing
    (JSON null) does not default to false: it raises AttributeError, and
    so does the attempt of a wheelchair user that reaches the
    accessibility check, instead of ACCESSIBILITY_MISMATCH. *)
Theorem C5_missing_requirements_raise :
  is_accessible (6, Scenario.unlisted_activity) = Raise AttributeError
  ∧ users Scenario.unlisted !! 2 = Some Sample.bob
  ∧ activities Scenario.unlisted !! 6 = Some Scenario.unlisted_activity
  ∧ attempt_booking Scenario.clock 2 6 Scenario.unlisted
    = (Raise AttributeError, Scenario.unlisted)
  ∧ ¬ fails_with (attempt_booking Scenario.clock 2 6 Scenario.unlisted)
        "ACCESSIBILITY_MISMATCH".
Proof.
  assert (attempt_booking Scenario.clock 2 6 Scenario.unlisted
          = (Raise AttributeError, Scenario.unlisted)) as Hraise.
  { vm_compute. reflexivity. }
  split_and!; try (vm_compute; reflexivity).
  rewrite Hraise. by intros [? [=]].
Qed.

(** C6: the checks of [attempt_booking] come in the order existence (the
    user, then the activity), duplicate guard, token check, capacity check,
    accessibility check: the outcome is the error of the first check that
    refuses, whatever the later checks would say, and the booking when none
    does.  In a reachable state an existing Confirmed booking of the pair
    is enough for DUPLICATE_BOOKING. *)
Theorem C6_check_order clock user_id activity_id session :
  let outcome := attempt_booking clock user_id activity_id session in
  (users session !! user_id = None →
   outcome = (Raise (BookingError "User not found" "USER_NOT_FOUND"), session))
  ∧ (∀ u, users session !! user_id = Some u →
     (activities session !! activity_id = None →
      outcome = (Raise (BookingError "Activity not found" "ACTIVITY_NOT_FOUND"), session))
     ∧ (∀ a, activities session !! activity_id = Some a →
        let user := (user_id, u) in
        let activity := (activity_id, a) in
        (Spec.has_confirmed session user_id activity_id →
         outcome = (Raise (BookingError "You have already booked this activity"
                                        "DUPLICATE_BOOKING"), session))
        ∧ (¬ Spec.has_confirmed session user_id activity_id →
           (Spec.token_check_fails (now_check clock) session user →
            fails_with outcome "PAYMENT_REQUIRED"
            ∨ fails_with outcome "TOKEN_LIMIT_REACHED")
           ∧ (¬ Spec.token_check_fails (now_check clock) session user →
              (Spec.capacity_check_fails session user activity →
               fails_with outcome "VOLUNTEER_SLOTS_FULL"
               ∨ fails_with outcome "ACTIVITY_FULL")
              ∧ (¬ Spec.capacity_check_fails session user activity →
                 (Spec.accessibility_check_fails user activity →
                  fails_with outcome "ACCESSIBILITY_MISMATCH")
                 ∧ (medical_verdict user activity = Return () →
                    succeeds outcome))))))
  ∧ (reachable session → Spec.has_confirmed session user_id activity_id →
     outcome = (Raise (BookingError "You have already booked this activity"
                                    "DUPLICATE_BOOKING"), session)).
Proof.
  intros outcome. subst outcome. split_and!.
  - intros Hu. by rewrite attempt_booking_eq, Hu.
  - intros u Hu. split.
    { intros Ha. by rewrite attempt_booking_eq, Hu, Ha. }
    intros a Ha user activity. subst user activity. split.
    { intros Hdup. by rewrite attempt_booking_eq, Hu, Ha, decide_True. }
    intros Hdup.
    assert (Spec.accessibility_check_fails (user_id, u) (activity_id, a) →
            fails_with (medical_then_create clock (user_id, u) (activity_id, a) session)
                       "ACCESSIBILITY_MISMATCH") as Hacc.
    { intros ((w & Hw & Htw) & acc & Hacc & Htacc).
      unfold medical_then_create, medical_verdict. rewrite Hw, Htw, Hacc, Htacc.
      by eexists. }
    destruct (decide (User.role u = VOLUNTEER)) as [Hr|Hr].
    + rewrite (attempt_booking_volunteer _ _ _ _ u a) by done. cbv zeta. split.
      { intros [Hnr _]. done. }
      intros _. split.
      * intros [[_ Hle]|[Hnr _]]; [|done]. simpl in Hle.
        rewrite decide_True by done. left. by eexists.
      * intros Hcap. rewrite decide_False; cycle 1.
        { intros Hle. apply Hcap. by left. }
        split; [done|]. apply succeeds_medical_then_create.
    + rewrite (attempt_booking_participant _ _ _ _ u a) by done. split.
      { intros [_ [Ht|(limit & Hl & Hle)]].
        - rewrite decide_True by done. left. by eexists.
        - destruct (decide (User.membership_tier u = ADHOC)); [left; by eexists|].
          rewrite Hl. cbv zeta. simpl in Hle. rewrite decide_True by done.
          right. by eexists. }
      intros [Ht Hl]%not_token_check_fails; [|done]. simpl in Ht, Hl.
      rewrite decide_False by done.
      assert (match get_weekly_token_limit (user_id, u) with
              | Int limit =>
                  let usage := Spec.weekly_usage (now_check clock) session user_id in
                  if decide (limit ≤ usage)
                  then (Raise (token_error usage limit), session)
                  else capacity_then_create clock (user_id, u) (activity_id, a) session
              | Inf => capacity_then_create clock (user_id, u) (activity_id, a) session
              end = capacity_then_create clock (user_id, u) (activity_id, a) session) as ->.
      { destruct (get_weekly_token_limit (user_id, u)) as [limit|]; [|done].
        specialize (Hl limit eq_refl). cbv zeta. by rewrite decide_False by lia. }
      unfold capacity_then_create. cbv zeta. split.
      * intros [[Hv _]|[_ Hle]]; [done|].
        rewrite decide_True by done. right. by eexists.
      * intros Hcap. rewrite decide_False; cycle 1.
        { intros Hle. apply Hcap. by right. }
        split; [done|]. apply succeeds_medical_then_create.
  - intros (_ & Href & _)%reachable_invariants Hdup. by apply duplicate_rejected.
Qed.

Lemma C6_witness :
  (Spec.has_confirmed Scenario.stuck 1 1
   ∧ Spec.token_check_fails (now_check Scenario.clock) Scenario.stuck
       (1, Scenario.wheelchair_user)
   ∧ Spec.capacity_check_fails Scenario.stuck (1, Scenario.wheelchair_user) (1, Scenario.attic)
   ∧ Spec.accessibility_check_fails (1, Scenario.wheelchair_user) (1, Scenario.attic)
   ∧ attempt_booking Scenario.clock 1 1 Scenario.stuck
     = (Raise (BookingError "You have already booked this activity" "DUPLICATE_BOOKING"),
        Scenario.stuck))
  ∧ attempt_booking Scenario.clock 9 9 Sample.seed
    = (Raise (BookingError "User not found" "USER_NOT_FOUND"), Sample.seed)
  ∧ attempt_booking Scenario.clock 4 9 Sample.seed
    = (Raise (BookingError "Activity not found" "ACTIVITY_NOT_FOUND"), Sample.seed)
  ∧ (fails_with (attempt_booking Scenario.clock 4 2 Sample.seed) "PAYMENT_REQUIRED"
     ∨ fails_with (attempt_booking Scenario.clock 4 2 Sample.seed) "TOKEN_LIMIT_REACHED")
  ∧ (fails_with (attempt_booking Scenario.clock 2 5 Scenario.alice_tiny)
       "VOLUNTEER_SLOTS_FULL"
     ∨ fails_with (attempt_booking Scenario.clock 2 5 Scenario.alice_tiny) "ACTIVITY_FULL")
  ∧ fails_with (attempt_booking Scenario.clock 2 2 Sample.seed) "ACCESSIBILITY_MISMATCH"
  ∧ succeeds (attempt_booking Scenario.clock 2 1 Sample.seed).
Proof.
  assert (Spec.has_confirmed Scenario.stuck 1 1) as Hdup.
  { exists 1, (Booking.mk 1 1 CONFIRMED (Sample.monday + 5) (Sample.monday + 5)).
    vm_compute. auto. }
  assert (∀ session user_id activity_id,
            confirmed_pair user_id activity_id session = [] →
            ¬ Spec.has_confirmed session user_id activity_id) as Hfree.
  { intros session user_id activity_id Hnil Hc%has_confirmed_iff. by apply Hc. }
  assert (∀ session, ¬ Spec.token_check_fails (now_check Scenario.clock) session
                         (2, Sample.bob)
                     ↔ ¬ 2 ≤ Spec.weekly_usage (now_check Scenario.clock) session 2)
    as Hbob.
  { intros session. split.
    - intros Hnot Hle. apply Hnot. split; [discriminate|]. right. by exists 2.
    - intros Hnot [_ [Ht|(limit & Hl & Hle)]]; [discriminate|].
      vm_compute in Hl. injection Hl as <-. by apply Hnot. }
  split_and!.
  - exact Hdup.
  - split; [discriminate|]. right. exists 1. split; [reflexivity|].
    vm_compute. discriminate.
  - right. split; [discriminate|]. vm_compute. discriminate.
  - split.
    + exists (JBool true). vm_compute. auto.
    + exists (JBool false). vm_compute. auto.
  - destruct (C6_check_order Scenario.clock 1 1 Scenario.stuck) as (_ & Hexists & _).
    destruct (Hexists Scenario.wheelchair_user) as [_ Hactivity].
    { vm_compute. reflexivity. }
    destruct (Hactivity Scenario.attic) as [Hduplicate _].
    { vm_compute. reflexivity. }
    exact (Hduplicate Hdup).
  - destruct (C6_check_order Scenario.clock 9 9 Sample.seed) as (Hnouser & _ & _).
    apply Hnouser. vm_compute. reflexivity.
  - destruct (C6_check_order Scenario.clock 4 9 Sample.seed) as (_ & Hexists & _).
    destruct (Hexists Sample.david) as [Hnoactivity _].
    { vm_compute. reflexivity. }
    apply Hnoactivity. vm_compute. reflexivity.
  - destruct (C6_check_order Scenario.clock 4 2 Sample.seed) as (_ & Hexists & _).
    destruct (Hexists Sample.david) as [_ Hactivity].
    { vm_compute. reflexivity. }
    destruct (Hactivity Sample.art) as [_ Hchecks].
    { vm_compute. reflexivity. }
    destruct Hchecks as [Htoken _].
    { apply Hfree. vm_compute. reflexivity. }
    apply Htoken. split; [discriminate|]. by left.
  - destruct (C6_check_order Scenario.clock 2 5 Scenario.alice_tiny) as (_ & Hexists & _).
    destruct (Hexists Sample.bob) as [_ Hactivity].
    { vm_compute. reflexivity. }
    destruct (Hactivity Sample.tiny) as [_ Hchecks].
    { vm_compute. reflexivity. }
    destruct Hchecks as [_ Hcapacity].
    { apply Hfree. vm_compute. reflexivity. }
    destruct Hcapacity as [Hfull _].
    { apply Hbob. vm_compute. by intros []. }
    apply Hfull. right. split; [discriminate|]. vm_compute. discriminate.
  - destruct (C6_check_order Scenario.clock 2 2 Sample.seed) as (_ & Hexists & _).
    destruct (Hexists Sample.bob) as [_ Hactivity].
    { vm_compute. reflexivity. }
    destruct (Hactivity Sample.art) as [_ Hchecks].
    { vm_compute. reflexivity. }
    destruct Hchecks as [_ Hcapacity].
    { apply Hfree. vm_compute. reflexivity. }
    destruct Hcapacity as [_ Hmedical].
    { apply Hbob. vm_compute. by intros []. }
    destruct Hmedical as [Hmismatch _].
    { intros [[Hr _]|[_ Hle]]; [discriminate|]. vm_compute in Hle. by apply Hle. }
    apply Hmismatch. split.
    + exists (JBool true). vm_compute. auto.
    + exists (JBool false). vm_compute. auto.
  - destruct (C6_check_order Scenario.clock 2 1 Sample.seed) as (_ & Hexists & _).
    destruct (Hexists Sample.bob) as [_ Hactivity].
    { vm_compute. reflexivity. }
    destruct (Hactivity Sample.yoga) as [_ Hchecks].
    { vm_compute. reflexivity. }
    destruct Hchecks as [_ Hcapacity].
    { apply Hfree. vm_compute. reflexivity. }
    destruct Hcapacity as [_ Hmedical].
    { apply Hbob. vm_compute. by intros []. }
    destruct Hmedical as [_ Hsuccess].
    { intros [[Hr _]|[_ Hle]]; [discriminate|]. vm_compute in Hle. by apply Hle. }
    apply Hsuccess. vm_compute. reflexivity.
Defined.

(** C7: under the one-Confirmed-booking invariant, cancelling a Confirmed
    booking with its own user_id succeeds; afterwards the pair has no
    Confirmed booking, so a new attempt is not refused as a duplicate; the
    attendee, capacity and volunteer counts and every weekly usage are
    those of the session without the booking (one less wherever it
    counted); and the new attempt succeeds when the token, capacity and
    accessibility checks pass on those counts. *)
Theorem C7_cancel_then_rebook now clock session k b :
  unique_confirmed session →
  bookings session !! k = Some b →
  Booking.status b = CONFIRMED →
  let user_id := Booking.user_id b in
  let activity_id := Booking.activity_id b in
  let session' := (cancel_booking now k user_id session).2 in
  succeeds (cancel_booking now k user_id session)
  ∧ ¬ Spec.has_confirmed session' user_id activity_id
  ∧ ¬ fails_with (attempt_booking clock user_id activity_id session') "DUPLICATE_BOOKING"
  ∧ (∀ activity,
       get_current_attendees activity session'
       = get_current_attendees activity (without_booking session k)
       ∧ get_current_capacity activity session'
         = get_current_capacity activity (without_booking session k)
       ∧ count (volunteer_rows activity.1 session')
         = count (volunteer_rows activity.1 (without_booking session k)))
  ∧ (∀ uid week,
       count (weekly_bookings uid week session')
       = count (weekly_bookings uid week (without_booking session k)))
  ∧ (∀ u a, users session !! user_id = Some u →
       activities session !! activity_id = Some a →
       (User.role u ≠ VOLUNTEER →
        get_current_attendees (activity_id, a) session'
        = get_current_attendees (activity_id, a) session - 1)
       ∧ (User.role u = VOLUNTEER →
          get_current_capacity (activity_id, a) session'
          = get_current_capacity (activity_id, a) session - 2)
       ∧ (∀ t, (get_week_start_end t).1 ≤ Booking.created_at b < (get_week_start_end t).2 →
               Spec.weekly_usage t session' user_id
               = Spec.weekly_usage t session user_id - 1)
       ∧ (¬ Spec.token_check_fails (now_check clock) session' (user_id, u) →
          ¬ Spec.capacity_check_fails session' (user_id, u) (activity_id, a) →
          medical_verdict (user_id, u) (activity_id, a) = Return () →
          succeeds (attempt_booking clock user_id activity_id session'))).
Proof.
  intros Hinv Hk Hs user_id activity_id session'.
  assert (cancel_booking now k user_id session
          = (Return {| cancel_message := "Booking cancelled successfully";
                       cancelled_booking_id := k |},
             set_booking session k (cancelled now b))) as Hcancel.
  { rewrite cancel_booking_eq, Hk, decide_True by done.
    rewrite decide_False; [done|]. by rewrite Hs. }
  assert (session' = set_booking session k (cancelled now b)) as ->.
  { subst session'. by rewrite Hcancel. }
  pose proof (cancelled_no_confirmed session k b now Hk Hinv Hs) as Hfree.
  split_and!.
  - rewrite Hcancel. by eexists.
  - exact Hfree.
  - destruct (users session !! user_id) as [u|] eqn:Hu;
      [|rewrite attempt_booking_eq; simpl; rewrite Hu; by intros [? [=]]%fails_with_raise].
    destruct (activities session !! activity_id) as [a|] eqn:Ha;
      [|rewrite attempt_booking_eq; simpl; rewrite Hu, Ha;
        by intros [? [=]]%fails_with_raise].
    destruct (decide (User.role u = VOLUNTEER)) as [Hr|Hr].
    + rewrite (attempt_booking_volunteer _ _ _ _ u a) by done. cbv zeta.
      destruct (decide _).
      * by intros [? [=]]%fails_with_raise.
      * by intros [[=] _]%fails_with_medical_then_create.
    + rewrite (attempt_booking_participant _ _ _ _ u a) by done.
      unfold capacity_then_create.
      repeat case_match; try (by intros [? [=]]%fails_with_raise);
        by intros [[=] _]%fails_with_medical_then_create.
  - intros activity.
    rewrite !get_current_attendees_spec, !get_current_capacity_spec, !volunteer_rows_count.
    unfold Spec.current_capacity.
    rewrite (cancelled_attendees session k b now Hk).
    rewrite !(cancelled_volunteer_count session k b now Hk). done.
  - intros uid week. by apply cancelled_weekly.
  - intros u a Hu Ha. split_and!.
    + intros Hr. rewrite !get_current_attendees_spec.
      rewrite (cancelled_attendees session k b now Hk).
      unfold Spec.current_attendees, Spec.confirmed_attendee_bookings, count.
      rewrite (length_filter_split _ (bookings session) k b Hk).
      rewrite decide_True;
        [unfold Spec.owner_role, without_booking; cbn [users bookings]; lia|].
      unfold Spec.owner_role. simpl. fold user_id. rewrite Hu. simpl.
      split_and!; try done. congruence.
    + intros Hr. rewrite !get_current_capacity_spec.
      unfold Spec.current_capacity.
      rewrite (cancelled_volunteer_count session k b now Hk).
      unfold Spec.current_volunteer_count, Spec.confirmed_volunteer_bookings, count.
      rewrite (length_filter_split _ (bookings session) k b Hk).
      rewrite decide_True;
        [unfold Spec.owner_role, without_booking; cbn [users bookings]; lia|].
      unfold Spec.owner_role. simpl. fold user_id. rewrite Hu. simpl.
      split_and!; try done. congruence.
    + intros t [Hlo Hhi]. unfold Spec.weekly_usage.
      rewrite (cancelled_weekly session k b now Hk).
      unfold weekly_bookings, count.
      rewrite (length_filter_split _ (bookings session) k b Hk).
      rewrite decide_True; [unfold without_booking; cbn [users bookings]; lia|]. done.
    + intros Htok Hcap Hmed.
      destruct (decide (User.role u = VOLUNTEER)) as [Hr|Hr].
      * rewrite (attempt_booking_volunteer _ _ _ _ u a) by done. cbv zeta.
        rewrite decide_False; cycle 1.
        { intros Hle. apply Hcap. by left. }
        by apply succeeds_medical_then_create.
      * rewrite (attempt_booking_participant _ _ _ _ u a) by done.
        apply not_token_check_fails in Htok as [Ht Hl]; [|done]. simpl in Ht, Hl.
        rewrite decide_False by done.
        assert (succeeds (capacity_then_create clock (user_id, u) (activity_id, a)
                  (set_booking session k (cancelled now b)))) as Hok.
        { unfold capacity_then_create. cbv zeta. rewrite decide_False; cycle 1.
          { intros Hle. apply Hcap. by right. }
          by apply succeeds_medical_then_create. }
        destruct (get_weekly_token_limit (user_id, u)) as [limit|]; [|done].
        specialize (Hl limit eq_refl). cbv zeta. by rewrite decide_False by lia.
Qed.

Lemma C7_witness :
  fails_with (attempt_booking Scenario.clock 1 5 Scenario.alice_tiny) "DUPLICATE_BOOKING"
  ∧ succeeds (cancel_booking 7 1 1 Scenario.alice_tiny)
  ∧ get_current_attendees (5, Sample.tiny) Scenario.alice_tiny = 1
  ∧ get_current_attendees (5, Sample.tiny) (cancel_booking 7 1 1 Scenario.alice_tiny).2 = 0
  ∧ succeeds (attempt_booking Scenario.clock 1 5 (cancel_booking 7 1 1 Scenario.alice_tiny).2).
Proof.
  assert (unique_confirmed Scenario.alice_tiny) as Hinv.
  { apply reachable_invariants, reachable_step, reachable_init. reflexivity. }
  assert (bookings Scenario.alice_tiny !! 1
          = Some (new_booking (Sample.at_ (Sample.monday + 5)) 1 5)) as Hk.
  { vm_compute. reflexivity. }
  destruct (C7_cancel_then_rebook 7 Scenario.clock Scenario.alice_tiny 1 _ Hinv Hk eq_refl)
    as (Hcancel & _ & _ & _ & _ & Hrebook).
  destruct (Hrebook Sample.alice Sample.tiny) as (Hattendees & _ & _ & Hok).
  { vm_compute. reflexivity. }
  { vm_compute. reflexivity. }
  split_and!.
  - eexists. vm_compute. reflexivity.
  - exact Hcancel.
  - vm_compute. reflexivity.
  - simpl in Hattendees. rewrite Hattendees by discriminate. vm_compute. reflexivity.
  - apply Hok.
    + intros [_ [Htier|(limit & Hlimit & Hle)]]; [discriminate|].
      vm_compute in Hlimit. injection Hlimit as <-. vm_compute in Hle. by apply Hle.
    + intros [[Hrole _]|[_ Hle]]; [discriminate|]. vm_compute in Hle. by apply Hle.
    + vm_compute. reflexivity.
Defined.

(** C8: the weekly token limit of a user is 0 for Adhoc, 1 for Weekly_1,
    2 for Weekly_2 and the infinite sentinel for Unlimited, whatever the
    other fields of the user. *)
Theorem C8_weekly_token_limit id name email role flags linked created updated :
  let user tier : entity User.t :=
    (id, User.mk name email role tier flags linked created updated) in
  get_weekly_token_limit (user ADHOC) = Int 0
  ∧ get_weekly_token_limit (user WEEKLY_1) = Int 1
  ∧ get_weekly_token_limit (user WEEKLY_2) = Int 2
  ∧ get_weekly_token_limit (user UNLIMITED) = Inf.
Proof. split_and!; reflexivity. Qed.

(** C9: in every state the two calls reach from a store without bookings,
    every booking is Confirmed or Cancelled; and a call from such a state
    leaves each row as it was, or creates it Confirmed, or turns it from
    Confirmed to Cancelled: no row becomes Waitlist. *)
Theorem C9_booking_lifecycle session :
  reachable session →
  (∀ k b, bookings session !! k = Some b →
          Booking.status b = CONFIRMED ∨ Booking.status b = CANCELLED)
  ∧ (∀ c k b', bookings (run c session) !! k = Some b' →
       bookings session !! k = Some b'
       ∨ (bookings session !! k = None ∧ Booking.status b' = CONFIRMED)
       ∨ (∃ b, bookings session !! k = Some b
               ∧ Booking.status b = CONFIRMED ∧ Booking.status b' = CANCELLED
               ∧ Booking.user_id b' = Booking.user_id b
               ∧ Booking.activity_id b' = Booking.activity_id b
               ∧ Booking.created_at b' = Booking.created_at b)).
Proof.
  intros (_ & _ & Hl)%reachable_invariants. split; [exact Hl|].
  intros c k b' Hk.
  destruct (run_cases c session) as
    [Heq|[(clock & uid & aid & -> & _ & _ & _ & Heq)|(now & k0 & b & -> & Hb & Hs & Heq)]];
    rewrite Heq in Hk.
  - by left.
  - apply lookup_add_booking in Hk as [(-> & -> & Hnone)|Hk]; [|by left].
    right; left. done.
  - apply lookup_set_booking in Hk as [(-> & ->)|[_ Hk]]; [|by left].
    right; right. exists b. split_and!; try done.
    by destruct (Hl _ _ Hb).
Qed.

Lemma C9_witness :
  reachable Scenario.alice_yoga
  ∧ bookings Scenario.alice_yoga !! 1
    = Some (new_booking (Sample.at_ (Sample.monday + 5)) 1 1)
  ∧ (Booking.status (new_booking (Sample.at_ (Sample.monday + 5)) 1 1) = CONFIRMED
     ∨ Booking.status (new_booking (Sample.at_ (Sample.monday + 5)) 1 1) = CANCELLED)
  ∧ Booking.status <$> bookings (run (CancelBooking 7 1 1) Scenario.alice_yoga) !! 1
    = Some CANCELLED.
Proof.
  assert (reachable Scenario.alice_yoga) as Hreach.
  { apply reachable_step, reachable_init. reflexivity. }
  assert (bookings Scenario.alice_yoga !! 1
          = Some (new_booking (Sample.at_ (Sample.monday + 5)) 1 1)) as Hk.
  { vm_compute. reflexivity. }
  destruct (C9_booking_lifecycle _ Hreach) as [Hstatus Hstep].
  split_and!.
  - exact Hreach.
  - exact Hk.
  - exact (Hstatus _ _ Hk).
  - vm_compute. reflexivity.
Defined.

(** C10: when [attempt_booking] raises, whatever the error, the session
    is the one it started from: no row is inserted and no table changes;
    and a [BookingError] it raises carries one of the eight codes. *)
Theorem C10_failure_leaves_session clock user_id activity_id session e session' :
  attempt_booking clock user_id activity_id session = (Raise e, session') →
  session' = session
  ∧ users session' = users session
  ∧ activities session' = activities session
  ∧ bookings session' = bookings session
  ∧ ∀ message error_code,
      e = BookingError message error_code → error_code ∈ attempt_error_codes.
Proof.
  intros Hraise.
  pose proof (attempt_booking_raise_unchanged _ _ _ _ _ _ Hraise) as ->.
  split_and!; try done.
  intros message error_code ->. revert Hraise.
  unfold attempt_error_codes.
  destruct (users session !! user_id) as [u|] eqn:Hu;
    [|rewrite attempt_booking_eq, Hu; intros [= <- <-]; set_solver].
  destruct (activities session !! activity_id) as [a|] eqn:Ha;
    [|rewrite attempt_booking_eq, Hu, Ha; intros [= <- <-]; set_solver].
  destruct (decide (Spec.has_confirmed session user_id activity_id)) as [Hdup|Hdup];
    [rewrite attempt_booking_eq, Hu, Ha, decide_True by done;
     intros [= <- <-]; set_solver|].
  assert (medical_then_create clock (user_id, u) (activity_id, a) session
            = (Raise (BookingError message error_code), session) →
          error_code = "ACCESSIBILITY_MISMATCH") as Hmed.
  { destruct (medical_then_create_cases clock (user_id, u) (activity_id, a) session)
      as [(_ & conf & -> & _)|(e & _ & -> & [->| ->])]; by intros [= <- <-] || intros [=]. }
  destruct (decide (User.role u = VOLUNTEER)) as [Hr|Hr].
  - rewrite (attempt_booking_volunteer _ _ _ _ u a) by done. cbv zeta.
    destruct (decide _); [intros [= <- <-]; set_solver|].
    intros ->%Hmed. set_solver.
  - rewrite (attempt_booking_participant _ _ _ _ u a) by done.
    unfold capacity_then_create.
    repeat case_match; try (intros [= <- <-]; set_solver); intros ->%Hmed; set_solver.
Qed.

Lemma C10_witness :
  attempt_booking Scenario.clock 4 1 Sample.seed
  = (Raise (BookingError "Ad-hoc members must complete payment before booking"
                         "PAYMENT_REQUIRED"), Sample.seed)
  ∧ Sample.seed = Sample.seed
  ∧ "PAYMENT_REQUIRED" ∈ attempt_error_codes.
Proof.
  assert (attempt_booking Scenario.clock 4 1 Sample.seed
          = (Raise (BookingError "Ad-hoc members must complete payment before booking"
                                 "PAYMENT_REQUIRED"), Sample.seed)) as Hraise.
  { vm_compute. reflexivity. }
  destruct (C10_failure_leaves_session _ _ _ _ _ _ Hraise) as (Hs & _ & _ & _ & Hcode).
  split_and!.
  - exact Hraise.
  - exact Hs.
  - exact (Hcode _ _ eq_refl).
Defined.

(** * Further properties *)

(** ** The week of the token ledger *)

Lemma week_start_eq now :
  (get_week_start_end now).1 = (now / DAY - weekday now) * DAY
  ∧ (get_week_start_end now).2 = (now / DAY - weekday now) * DAY + 7 * DAY.
Proof.
  unfold get_week_start_end. cbn [fst snd].
  assert ((now - weekday now * DAY) / DAY = now / DAY - weekday now) as ->; [|done].
  replace (now - weekday now * DAY) with (now + (- weekday now) * DAY) by lia.
  rewrite Z.div_add by (unfold DAY; lia). lia.
Qed.

(** X1: the week of [get_week_start_end] contains the reading it is
    computed from, lasts seven days, and starts on a Monday at midnight. *)
Theorem X1_week_contains_now now :
  let week := get_week_start_end now in
  week.1 ≤ now < week.2
  ∧ week.2 = week.1 + 7 * DAY
  ∧ weekday week.1 = 0
  ∧ week.1 mod DAY = 0.
Proof.
  intros week. subst week.
  destruct (week_start_eq now) as [-> ->].
  unfold weekday, DAY.
  rewrite Z.div_mul, Z.mod_mul by lia.
  pose proof (Z.div_mod now 86400000000 ltac:(lia)).
  pose proof (Z.mod_pos_bound now 86400000000 ltac:(lia)).
  pose proof (Z.mod_pos_bound (now / 86400000000 + 3) 7 ltac:(lia)).
  pose proof (Z.div_mod (now / 86400000000 + 3) 7 ltac:(lia)).
  split_and!; try lia.
  replace (now / 86400000000 - (now / 86400000000 + 3) mod 7 + 3)
    with (((now / 86400000000 + 3) / 7) * 7) by lia.
  apply Z.mod_mul. lia.
Qed.

Lemma week_stable now t :
  (get_week_start_end now).1 ≤ t < (get_week_start_end now).2 →
  get_week_start_end t = get_week_start_end now.
Proof.
  intros Ht.
  assert (now / DAY - weekday now = t / DAY - weekday t) as Heq.
  { destruct (week_start_eq now) as [H1 H2]. rewrite H1, H2 in Ht.
    unfold weekday, DAY in *.
    pose proof (Z.div_mod t 86400000000 ltac:(lia)).
    pose proof (Z.mod_pos_bound t 86400000000 ltac:(lia)).
    pose proof (Z.mod_pos_bound (now / 86400000000 + 3) 7 ltac:(lia)).
    pose proof (Z.div_mod (now / 86400000000 + 3) 7 ltac:(lia)).
    pose proof (Z.mod_pos_bound (t / 86400000000 + 3) 7 ltac:(lia)).
    pose proof (Z.div_mod (t / 86400000000 + 3) 7 ltac:(lia)).
    lia. }
  destruct (week_start_eq now) as [H1 H2], (week_start_eq t) as [H3 H4].
  destruct (get_week_start_end now), (get_week_start_end t). simpl in *.
  f_equal; lia.
Qed.

(** X2: every instant of a week has that same week, so two readings
    give either the same week or weeks that do not overlap. *)
Theorem X2_week_stable now t :
  ((get_week_start_end now).1 ≤ t < (get_week_start_end now).2 →
   get_week_start_end t = get_week_start_end now)
  ∧ (get_week_start_end t = get_week_start_end now
     ∨ (get_week_start_end t).2 ≤ (get_week_start_end now).1
     ∨ (get_week_start_end now).2 ≤ (get_week_start_end t).1).
Proof.
  split; [apply week_stable|].
  destruct (decide ((get_week_start_end now).1 ≤ t < (get_week_start_end now).2))
    as [Hin|Hout]; [left; by apply week_stable|].
  right.
  destruct (week_start_eq now) as [H1 H2], (week_start_eq t) as [H3 H4].
  assert ((get_week_start_end t).1 ≤ t < (get_week_start_end t).2) as Ht.
  { rewrite H3, H4. unfold weekday, DAY.
    pose proof (Z.div_mod t 86400000000 ltac:(lia)).
    pose proof (Z.mod_pos_bound t 86400000000 ltac:(lia)).
    pose proof (Z.mod_pos_bound (t / 86400000000 + 3) 7 ltac:(lia)).
    lia. }
  rewrite H1, H2, H3, H4 in *. unfold weekday, DAY in *.
  pose proof (Z.mod_pos_bound (now / 86400000000 + 3) 7 ltac:(lia)).
  pose proof (Z.div_mod (now / 86400000000 + 3) 7 ltac:(lia)).
  pose proof (Z.mod_pos_bound (t / 86400000000 + 3) 7 ltac:(lia)).
  pose proof (Z.div_mod (t / 86400000000 + 3) 7 ltac:(lia)).
  lia.
Qed.

Lemma X2_witness :
  (get_week_start_end Sample.monday).1 ≤ Sample.monday + 6 * DAY + 5
    < (get_week_start_end Sample.monday).2
  ∧ get_week_start_end (Sample.monday + 6 * DAY + 5) = get_week_start_end Sample.monday.
Proof.
  assert ((get_week_start_end Sample.monday).1 ≤ Sample.monday + 6 * DAY + 5
            < (get_week_start_end Sample.monday).2) as Ht.
  { vm_compute. split; discriminate || reflexivity. }
  split; [exact Ht|]. exact (proj1 (X2_week_stable _ _) Ht).
Defined.

(** ** cancel_booking *)

Lemma cancel_booking_return now booking_id user_id session confirmation session' :
  cancel_booking now booking_id user_id session = (Return confirmation, session') →
  ∃ b, bookings session !! booking_id = Some b
       ∧ Booking.user_id b = user_id
       ∧ Booking.status b ≠ CANCELLED
       ∧ confirmation = {| cancel_message := "Booking cancelled successfully";
                           cancelled_booking_id := booking_id |}
       ∧ session' = set_booking session booking_id (cancelled now b).
Proof.
  rewrite cancel_booking_eq.
  destruct (bookings session !! booking_id) as [b|] eqn:Hb; [|by intros [=]].
  destruct (decide _) as [Hu|]; [|by intros [=]].
  destruct (decide _); [by intros [=]|].
  intros [= <- <-]. by exists b.
Qed.

Lemma cancel_booking_raise_unchanged now booking_id user_id session e session' :
  cancel_booking now booking_id user_id session = (Raise e, session') → session' = session.
Proof.
  rewrite cancel_booking_eq. repeat case_match; by intros [= _ <-].
Qed.

(** X3: [cancel_booking] raises BOOKING_NOT_FOUND exactly when no booking
    has the id or the booking belongs to another user, ALREADY_CANCELLED
    exactly when the user's booking is Cancelled, and returns otherwise
    (also for a Waitlist booking); when it raises the session is unchanged
    and the error is one of these two. *)
Theorem X3_cancel_booking_errors now booking_id user_id session :
  let outcome := cancel_booking now booking_id user_id session in
  let owned (b : Booking.t) :=
    bookings session !! booking_id = Some b ∧ Booking.user_id b = user_id in
  (fails_with outcome "BOOKING_NOT_FOUND" ↔ ¬ ∃ b, owned b)
  ∧ (fails_with outcome "ALREADY_CANCELLED" ↔ ∃ b, owned b ∧ Booking.status b = CANCELLED)
  ∧ (succeeds outcome ↔ ∃ b, owned b ∧ Booking.status b ≠ CANCELLED)
  ∧ (∀ e, outcome.1 = Raise e →
       outcome.2 = session
       ∧ (e = BookingError "Booking not found or unauthorized" "BOOKING_NOT_FOUND"
          ∨ e = BookingError "Booking already cancelled" "ALREADY_CANCELLED")).
Proof.
  intros outcome owned. subst outcome owned. rewrite cancel_booking_eq.
  destruct (bookings session !! booking_id) as [b|] eqn:Hb.
  - destruct (decide (Booking.user_id b = user_id)) as [Hu|Hu].
    + destruct (decide (Booking.status b = CANCELLED)) as [Hs|Hs].
      * split_and!.
        -- split; [by intros [? [=]]|]. intros Hno. destruct Hno. by exists b.
        -- split; [|intros _; by eexists]. intros _. by exists b.
        -- split; [by intros [? [=]]|]. intros (b' & [[= <-] _] & Hne). done.
        -- simpl. intros e [= <-]. auto.
      * split_and!.
        -- split; [by intros [? [=]]|]. intros Hno. destruct Hno. by exists b.
        -- split; [by intros [? [=]]|]. intros (b' & [[= <-] _] & He). done.
        -- split; [|intros _; by eexists]. intros _. by exists b.
        -- simpl. intros e [=].
    + split_and!.
      * split; [|intros _; by eexists]. intros _ (b' & [= <-] & He). done.
      * split; [by intros [? [=]]|]. intros (b' & [[= <-] He] & _). done.
      * split; [by intros [? [=]]|]. intros (b' & [[= <-] He] & _). done.
      * simpl. intros e [= <-]. auto.
  - split_and!.
    + split; [|intros _; by eexists]. intros _ (b' & [=] & _).
    + split; [by intros [? [=]]|]. intros (b' & [[=] _] & _).
    + split; [by intros [? [=]]|]. intros (b' & [[=] _] & _).
    + simpl. intros e [= <-]. auto.
Qed.

(** X4: a [cancel_booking] that returns changes one row only: the
    booking of that id becomes Cancelled with [updated_at] the time of the
    call, its user, activity and creation time kept; every other booking,
    the set of booking ids, the users and the activities are as before. *)
Theorem X4_cancel_booking_effect now booking_id user_id session confirmation session' :
  cancel_booking now booking_id user_id session = (Return confirmation, session') →
  cancelled_booking_id confirmation = booking_id
  ∧ (∃ b, bookings session !! booking_id = Some b
          ∧ Booking.user_id b = user_id
          ∧ bookings session' !! booking_id
            = Some {| Booking.user_id := Booking.user_id b;
                      Booking.activity_id := Booking.activity_id b;
                      Booking.status := CANCELLED;
                      Booking.created_at := Booking.created_at b;
                      Booking.updated_at := now |})
  ∧ (∀ k, k ≠ booking_id → bookings session' !! k = bookings session !! k)
  ∧ dom (bookings session') = dom (bookings session)
  ∧ users session' = users session
  ∧ activities session' = activities session.
Proof.
  rewrite cancel_booking_eq.
  destruct (bookings session !! booking_id) as [b|] eqn:Hb; [|by intros [=]].
  destruct (decide _) as [Hu|]; [|by intros [=]].
  destruct (decide _); [by intros [=]|].
  intros [= <- <-]. simpl. split_and!; try done.
  - exists b. split_and!; try done. by rewrite lookup_insert_eq.
  - intros k Hk. by rewrite lookup_insert_ne.
  - by apply dom_insert_lookup_L.
Qed.

Lemma X4_witness :
  cancel_booking 7 1 1 Scenario.alice_yoga
  = (Return {| cancel_message := "Booking cancelled successfully";
               cancelled_booking_id := 1 |},
     (cancel_booking 7 1 1 Scenario.alice_yoga).2)
  ∧ Booking.status <$> bookings (cancel_booking 7 1 1 Scenario.alice_yoga).2 !! 1
    = Some CANCELLED
  ∧ users (cancel_booking 7 1 1 Scenario.alice_yoga).2 = users Scenario.alice_yoga.
Proof.
  assert (cancel_booking 7 1 1 Scenario.alice_yoga
          = (Return {| cancel_message := "Booking cancelled successfully";
                       cancelled_booking_id := 1 |},
             (cancel_booking 7 1 1 Scenario.alice_yoga).2)) as Hcancel.
  { vm_compute. reflexivity. }
  destruct (X4_cancel_booking_effect _ _ _ _ _ _ Hcancel)
    as (_ & (b & _ & _ & Hrow) & _ & _ & Husers & _).
  split_and!.
  - exact Hcancel.
  - rewrite Hrow. reflexivity.
  - exact Husers.
Defined.

(** X5: cancelling is not repeatable: after a [cancel_booking] that
    returned, the same call, at any later time, raises ALREADY_CANCELLED
    and leaves the session as it is. *)
Theorem X5_cancel_twice now now' booking_id user_id session confirmation session' :
  cancel_booking now booking_id user_id session = (Return confirmation, session') →
  cancel_booking now' booking_id user_id session'
  = (Raise (BookingError "Booking already cancelled" "ALREADY_CANCELLED"), session').
Proof.
  intros Hfirst.
  destruct (cancel_booking_return _ _ _ _ _ _ Hfirst) as (b & Hb & Hu & _ & _ & ->).
  rewrite cancel_booking_eq. simpl. rewrite lookup_insert_eq. simpl.
  by rewrite decide_True.
Qed.

Lemma X5_witness :
  cancel_booking 7 1 1 Scenario.alice_yoga
  = (Return {| cancel_message := "Booking cancelled successfully";
               cancelled_booking_id := 1 |},
     (cancel_booking 7 1 1 Scenario.alice_yoga).2)
  ∧ cancel_booking 8 1 1 (cancel_booking 7 1 1 Scenario.alice_yoga).2
    = (Raise (BookingError "Booking already cancelled" "ALREADY_CANCELLED"),
       (cancel_booking 7 1 1 Scenario.alice_yoga).2).
Proof.
  assert (cancel_booking 7 1 1 Scenario.alice_yoga
          = (Return {| cancel_message := "Booking cancelled successfully";
                       cancelled_booking_id := 1 |},
             (cancel_booking 7 1 1 Scenario.alice_yoga).2)) as Hcancel.
  { vm_compute. reflexivity. }
  split; [exact Hcancel|]. exact (X5_cancel_twice _ 8 _ _ _ _ _ Hcancel).
Defined.

(** ** attempt_booking: what a success is *)

Lemma next_id_above {A} (t : gmap Z A) k v : t !! k = Some v → k < next_id t.
Proof.
  intros Hk%elem_of_query.
  assert (∀ (l : list Z) x, x ∈ l → x ≤ foldr Z.max 0 l) as Hmax.
  { induction l as [|y l IH]; intros x; [by rewrite elem_of_nil|].
    rewrite elem_of_cons. simpl. intros [->|Hx]; [lia|].
    specialize (IH x Hx). lia. }
  assert (k ∈ (query t).*1) as Hin.
  { apply list_elem_of_fmap. by exists (k, v). }
  apply Hmax in Hin. unfold next_id. lia.
Qed.

Lemma create_booking_return clock (user : Z * User.t) (activity : Z * Activity.t)
    user_id activity_id session confirmation session' :
  create_booking clock user activity user_id activity_id session
  = (Return confirmation, session') →
  session' = add_booking session (new_booking clock user_id activity_id)
  ∧ confirmation
    = {| booking_id := next_id (bookings session);
         message := "Booking confirmed successfully";
         user_name := User.name user.2;
         activity_title := Activity.title activity.2;
         activity_start := Activity.start_time activity.2;
         tokens_remaining :=
           if decide (User.role user.2 = VOLUNTEER) then NA_Volunteer
           else match get_weekly_token_limit user with
                | Int limit =>
                    Tokens (Z.max 0 (limit - Spec.weekly_usage (now_report clock)
                                                session' user_id))
                | Inf => Unlimited
                end;
         booking_status := CONFIRMED |}.
Proof.
  unfold create_booking. unfold mbind, M_bind, add_commit_refresh, gets. cbv beta iota zeta.
  destruct (decide (User.role user.2 = VOLUNTEER)) as [Hr|Hr].
  - rewrite bool_decide_false by (by intros []). by intros [= <- <-].
  - rewrite bool_decide_true by done. by intros [= <- <-].
Qed.

(** A booking is created only past every check. *)
Lemma attempt_booking_return clock user_id activity_id session confirmation session' :
  attempt_booking clock user_id activity_id session = (Return confirmation, session') →
  ∃ u a, users session !! user_id = Some u
         ∧ activities session !! activity_id = Some a
         ∧ ¬ Spec.has_confirmed session user_id activity_id
         ∧ ¬ Spec.token_check_fails (now_check clock) session (user_id, u)
         ∧ ¬ Spec.capacity_check_fails session (user_id, u) (activity_id, a)
         ∧ medical_verdict (user_id, u) (activity_id, a) = Return ()
         ∧ create_booking clock (user_id, u) (activity_id, a) user_id activity_id session
           = (Return confirmation, session').
Proof.
  destruct (users session !! user_id) as [u|] eqn:Hu;
    [|by rewrite attempt_booking_eq, Hu].
  destruct (activities session !! activity_id) as [a|] eqn:Ha;
    [|by rewrite attempt_booking_eq, Hu, Ha].
  destruct (decide (Spec.has_confirmed session user_id activity_id)) as [Hdup|Hdup];
    [by rewrite attempt_booking_eq, Hu, Ha, decide_True|].
  assert (medical_then_create clock (user_id, u) (activity_id, a) session
          = (Return confirmation, session') →
          medical_verdict (user_id, u) (activity_id, a) = Return ()
          ∧ create_booking clock (user_id, u) (activity_id, a) user_id activity_id session
            = (Return confirmation, session')) as Hmed.
  { unfold medical_then_create. by destruct (medical_verdict _ _) as [[]|e]. }
  destruct (decide (User.role u = VOLUNTEER)) as [Hr|Hr].
  - rewrite (attempt_booking_volunteer _ _ _ _ u a) by done. cbv zeta.
    destruct (decide _) as [Hle|Hlt]; [done|]. intros [Hv Hc]%Hmed.
    exists u, a. split_and!; try done.
    + by intros [Hnr _].
    + intros [[_ Hle]|[Hnr _]]; done.
  - rewrite (attempt_booking_participant _ _ _ _ u a) by done.
    destruct (decide (User.membership_tier u = ADHOC)) as [Ht|Ht]; [done|].
    assert (capacity_then_create clock (user_id, u) (activity_id, a) session
            = (Return confirmation, session') →
            ¬ Spec.capacity_check_fails session (user_id, u) (activity_id, a)
            ∧ medical_verdict (user_id, u) (activity_id, a) = Return ()
            ∧ create_booking clock (user_id, u) (activity_id, a) user_id activity_id session
              = (Return confirmation, session')) as Hcap.
    { unfold capacity_then_create. cbv zeta.
      destruct (decide _) as [Hle|Hlt]; [done|]. intros [Hv Hc]%Hmed.
      split_and!; try done. intros [[Hvol _]|[_ Hle]]; done. }
    destruct (get_weekly_token_limit (user_id, u)) as [limit|] eqn:Hl.
    + cbv zeta. destruct (decide _) as [Hle|Hlt]; [done|].
      intros (Hc & Hv & Hcreate)%Hcap.
      exists u, a. split_and!; try done.
      intros [_ [Hadhoc|(limit' & Hl' & Hle)]]; [done|].
      rewrite Hl in Hl'. injection Hl' as <-. done.
    + intros (Hc & Hv & Hcreate)%Hcap.
      exists u, a. split_and!; try done.
      intros [_ [Hadhoc|(limit' & Hl' & Hle)]]; [done|].
      rewrite Hl in Hl'. done.
Qed.

(** X6: a successful [attempt_booking] inserts exactly one row: the
    returned booking_id was unused and is larger than every id in use, the
    row stored under it is Confirmed for this user and activity with
    [created_at] the time read for it, every other booking and the users
    and activities are as before, and the response carries the names of
    the user and the activity that were looked up. *)
Theorem X6_attempt_booking_insert clock user_id activity_id session confirmation session' :
  attempt_booking clock user_id activity_id session = (Return confirmation, session') →
  bookings session !! booking_id confirmation = None
  ∧ (∀ k, is_Some (bookings session !! k) → k < booking_id confirmation)
  ∧ bookings session' !! booking_id confirmation
    = Some {| Booking.user_id := user_id;
              Booking.activity_id := activity_id;
              Booking.status := CONFIRMED;
              Booking.created_at := now_created clock;
              Booking.updated_at := now_insert clock |}
  ∧ (∀ k, k ≠ booking_id confirmation → bookings session' !! k = bookings session !! k)
  ∧ users session' = users session
  ∧ activities session' = activities session
  ∧ booking_status confirmation = CONFIRMED
  ∧ ∃ u a, users session !! user_id = Some u
           ∧ activities session !! activity_id = Some a
           ∧ user_name confirmation = User.name u
           ∧ activity_title confirmation = Activity.title a
           ∧ activity_start confirmation = Activity.start_time a.
Proof.
  intros (u & a & Hu & Ha & _ & _ & _ & _ & Hcreate)%attempt_booking_return.
  apply create_booking_return in Hcreate as [-> ->]. simpl.
  split_and!; try done.
  - apply next_id_fresh.
  - intros k [b Hb]. by eapply next_id_above.
  - by rewrite lookup_insert_eq.
  - intros k Hk. by rewrite lookup_insert_ne.
  - by exists u, a.
Qed.

Lemma X6_witness :
  attempt_booking Scenario.clock 3 1 Scenario.alice_yoga
  = (Return (mkConfirmation 2 "Booking confirmed successfully" "Carol Lim (Premium)"
               "Morning Yoga Session" 0 Unlimited CONFIRMED),
     (attempt_booking Scenario.clock 3 1 Scenario.alice_yoga).2)
  ∧ bookings Scenario.alice_yoga !! 2 = None
  ∧ Booking.user_id <$> bookings (attempt_booking Scenario.clock 3 1 Scenario.alice_yoga).2 !! 2
    = Some 3.
Proof.
  assert (attempt_booking Scenario.clock 3 1 Scenario.alice_yoga
          = (Return (mkConfirmation 2 "Booking confirmed successfully" "Carol Lim (Premium)"
                       "Morning Yoga Session" 0 Unlimited CONFIRMED),
             (attempt_booking Scenario.clock 3 1 Scenario.alice_yoga).2)) as Hbook.
  { vm_compute. reflexivity. }
  destruct (X6_attempt_booking_insert _ _ _ _ _ _ Hbook) as (Hfresh & _ & Hrow & _).
  split_and!.
  - exact Hbook.
  - exact Hfresh.
  - cbn [booking_id] in Hrow. rewrite Hrow. reflexivity.
Defined.

(** X7: a booking that succeeded cannot be repeated: the same attempt on
    the resulting session, at any time, raises DUPLICATE_BOOKING and
    leaves the session as it is. *)
Theorem X7_attempt_twice clock clock' user_id activity_id session confirmation session' :
  attempt_booking clock user_id activity_id session = (Return confirmation, session') →
  attempt_booking clock' user_id activity_id session'
  = (Raise (BookingError "You have already booked this activity" "DUPLICATE_BOOKING"),
     session').
Proof.
  intros (u & a & Hu & Ha & _ & _ & _ & _ & Hcreate)%attempt_booking_return.
  apply create_booking_return in Hcreate as [-> _].
  rewrite attempt_booking_eq. simpl. rewrite Hu, Ha.
  rewrite decide_True; [done|].
  exists (next_id (bookings session)), (new_booking clock user_id activity_id).
  simpl. by rewrite lookup_insert_eq.
Qed.

Lemma X7_witness :
  succeeds (attempt_booking Scenario.clock 3 1 Scenario.alice_yoga)
  ∧ attempt_booking (Sample.at_ (Sample.monday + 30 * DAY)) 3 1
      (attempt_booking Scenario.clock 3 1 Scenario.alice_yoga).2
    = (Raise (BookingError "You have already booked this activity" "DUPLICATE_BOOKING"),
       (attempt_booking Scenario.clock 3 1 Scenario.alice_yoga).2).
Proof.
  assert (attempt_booking Scenario.clock 3 1 Scenario.alice_yoga
          = (Return (mkConfirmation 2 "Booking confirmed successfully" "Carol Lim (Premium)"
                       "Morning Yoga Session" 0 Unlimited CONFIRMED),
             (attempt_booking Scenario.clock 3 1 Scenario.alice_yoga).2)) as Hbook.
  { vm_compute. reflexivity. }
  split.
  - eexists. rewrite Hbook. reflexivity.
  - exact (X7_attempt_twice _ _ _ _ _ _ _ Hbook).
Defined.

(** X8: [attempt_booking] returns a booking exactly when the user and the
    activity exist, the pair has no Confirmed booking, and the token,
    capacity and accessibility checks all pass; a booking is never created
    past a failing check. *)
Theorem X8_success_iff clock user_id activity_id session :
  succeeds (attempt_booking clock user_id activity_id session)
  ↔ ∃ u a, users session !! user_id = Some u
           ∧ activities session !! activity_id = Some a
           ∧ ¬ Spec.has_confirmed session user_id activity_id
           ∧ ¬ Spec.token_check_fails (now_check clock) session (user_id, u)
           ∧ ¬ Spec.capacity_check_fails session (user_id, u) (activity_id, a)
           ∧ medical_verdict (user_id, u) (activity_id, a) = Return ().
Proof.
  split.
  - intros [confirmation Hok].
    destruct (attempt_booking clock user_id activity_id session)
      as [r session'] eqn:Hrun. simpl in Hok. subst r.
    apply attempt_booking_return in Hrun as (u & a & ? & ? & ? & ? & ? & ? & _).
    by exists u, a.
  - intros (u & a & Hu & Ha & Hdup & Htok & Hcap & Hmed).
    destruct (decide (User.role u = VOLUNTEER)) as [Hr|Hr].
    + rewrite (attempt_booking_volunteer _ _ _ _ u a) by done. cbv zeta.
      rewrite decide_False; [by apply succeeds_medical_then_create|].
      intros Hle. apply Hcap. by left.
    + rewrite (attempt_booking_participant _ _ _ _ u a) by done.
      apply not_token_check_fails in Htok as [Ht Hl]; [|done]. simpl in Ht, Hl.
      rewrite decide_False by done.
      assert (succeeds (capacity_then_create clock (user_id, u) (activity_id, a) session))
        as Hok.
      { unfold capacity_then_create. cbv zeta.
        rewrite decide_False; [by apply succeeds_medical_then_create|].
        intros Hle. apply Hcap. by right. }
      destruct (get_weekly_token_limit (user_id, u)) as [limit|]; [|done].
      specialize (Hl limit eq_refl). cbv zeta. by rewrite decide_False by lia.
Qed.

(** ** Bounds on the confirmed bookings of an activity *)

Lemma count_filter_insert_fresh {A} (P : Z * A → Prop) `{!∀ r, Decision (P r)}
    (t : gmap Z A) k v :
  t !! k = None →
  count (filter P (query (<[k:=v]> t)))
  = (if decide (P (k, v)) then 1 else 0) + count (filter P (query t)).
Proof.
  intros Hk. unfold count. rewrite (query_insert_fresh t k v Hk), filter_cons.
  destruct (decide (P (k, v))); simpl; lia.
Qed.

Lemma count_filter_update_le {A} (P : Z * A → Prop) `{!∀ r, Decision (P r)}
    (t : gmap Z A) k v v' :
  t !! k = Some v → ¬ P (k, v') →
  count (filter P (query (<[k:=v']> t))) ≤ count (filter P (query t)).
Proof.
  intros Hk Hout. unfold count.
  rewrite (length_filter_update_out P t k v v' Hk Hout), (length_filter_split P t k v Hk).
  lia.
Qed.

Lemma volunteer_count_add session row activity_id :
  Spec.current_volunteer_count (add_booking session row) activity_id
  = (if decide (Booking.activity_id row = activity_id
                ∧ Booking.status row = CONFIRMED
                ∧ Spec.owner_role session row = Some VOLUNTEER) then 1 else 0)
    + Spec.current_volunteer_count session activity_id.
Proof.
  exact (count_filter_insert_fresh
           (λ b : Z * Booking.t,
              Booking.activity_id b.2 = activity_id ∧ Booking.status b.2 = CONFIRMED
              ∧ Spec.owner_role session b.2 = Some VOLUNTEER)
           (bookings session) _ row (next_id_fresh _)).
Qed.

Lemma attendees_add session row (activity : Z * Activity.t) :
  Spec.current_attendees (add_booking session row) activity
  = (if decide (Booking.activity_id row = activity.1
                ∧ Booking.status row = CONFIRMED
                ∧ is_Some (Spec.owner_role session row)
                ∧ Spec.owner_role session row ≠ Some VOLUNTEER) then 1 else 0)
    + Spec.current_attendees session activity.
Proof.
  exact (count_filter_insert_fresh
           (λ b : Z * Booking.t,
              Booking.activity_id b.2 = activity.1 ∧ Booking.status b.2 = CONFIRMED
              ∧ is_Some (Spec.owner_role session b.2)
              ∧ Spec.owner_role session b.2 ≠ Some VOLUNTEER)
           (bookings session) _ row (next_id_fresh _)).
Qed.

Lemma weekly_usage_add session row now user_id :
  Spec.weekly_usage now (add_booking session row) user_id
  = (if decide (Booking.user_id row = user_id
                ∧ Booking.status row = CONFIRMED
                ∧ (get_week_start_end now).1 ≤ Booking.created_at row
                ∧ Booking.created_at row < (get_week_start_end now).2) then 1 else 0)
    + Spec.weekly_usage now session user_id.
Proof.
  exact (count_filter_insert_fresh
           (λ b : Z * Booking.t,
              Booking.user_id b.2 = user_id ∧ Booking.status b.2 = CONFIRMED
              ∧ (get_week_start_end now).1 ≤ Booking.created_at b.2
              ∧ Booking.created_at b.2 < (get_week_start_end now).2)
           (bookings session) _ row (next_id_fresh _)).
Qed.

Lemma volunteer_count_cancel session k b now activity_id :
  bookings session !! k = Some b →
  Spec.current_volunteer_count (set_booking session k (cancelled now b)) activity_id
  ≤ Spec.current_volunteer_count session activity_id.
Proof.
  intros Hk.
  apply (count_filter_update_le
           (λ b : Z * Booking.t,
              Booking.activity_id b.2 = activity_id ∧ Booking.status b.2 = CONFIRMED
              ∧ Spec.owner_role session b.2 = Some VOLUNTEER)
           (bookings session) k b (cancelled now b) Hk).
  simpl. by intros (_ & [=] & _).
Qed.

Lemma attendees_cancel session k b now (activity : Z * Activity.t) :
  bookings session !! k = Some b →
  Spec.current_attendees (set_booking session k (cancelled now b)) activity
  ≤ Spec.current_attendees session activity.
Proof.
  intros Hk.
  apply (count_filter_update_le
           (λ b : Z * Booking.t,
              Booking.activity_id b.2 = activity.1 ∧ Booking.status b.2 = CONFIRMED
              ∧ is_Some (Spec.owner_role session b.2)
              ∧ Spec.owner_role session b.2 ≠ Some VOLUNTEER)
           (bookings session) k b (cancelled now b) Hk).
  simpl. by intros (_ & [=] & _).
Qed.

Lemma weekly_usage_cancel session k b now t user_id :
  bookings session !! k = Some b →
  Spec.weekly_usage t (set_booking session k (cancelled now b)) user_id
  ≤ Spec.weekly_usage t session user_id.
Proof.
  intros Hk.
  apply (count_filter_update_le
           (λ b : Z * Booking.t,
              Booking.user_id b.2 = user_id ∧ Booking.status b.2 = CONFIRMED
              ∧ (get_week_start_end t).1 ≤ Booking.created_at b.2
              ∧ Booking.created_at b.2 < (get_week_start_end t).2)
           (bookings session) k b (cancelled now b) Hk).
  simpl. by intros (_ & [=] & _).
Qed.

(** A call leaves the session as it was, or inserts the booking of an
    attempt that passed every check, or cancels a booking. *)
Lemma run_checked_cases c session :
  run c session = session
  ∨ (∃ clock user_id activity_id u a,
       c = AttemptBooking clock user_id activity_id
       ∧ users session !! user_id = Some u
       ∧ activities session !! activity_id = Some a
       ∧ ¬ Spec.token_check_fails (now_check clock) session (user_id, u)
       ∧ ¬ Spec.capacity_check_fails session (user_id, u) (activity_id, a)
       ∧ run c session = add_booking session (new_booking clock user_id activity_id))
  ∨ (∃ now booking_id b,
       c = CancelBooking now booking_id (Booking.user_id b)
       ∧ bookings session !! booking_id = Some b
       ∧ run c session = set_booking session booking_id (cancelled now b)).
Proof.
  destruct c as [clock user_id activity_id|now booking_id user_id]; simpl.
  - destruct (attempt_booking clock user_id activity_id session)
      as [[confirmation|e] session'] eqn:Hrun; simpl.
    + apply attempt_booking_return in Hrun
        as (u & a & Hu & Ha & _ & Htok & Hcap & _ & Hcreate).
      apply create_booking_return in Hcreate as [-> _].
      right; left. by exists clock, user_id, activity_id, u, a.
    + left. by eapply attempt_booking_raise_unchanged.
  - destruct (cancel_booking now booking_id user_id session)
      as [[confirmation|e] session'] eqn:Hrun; simpl.
    + apply cancel_booking_return in Hrun as (b & Hb & <- & _ & _ & ->).
      right; right. by exists now, booking_id, b.
    + left. by eapply cancel_booking_raise_unchanged.
Qed.

Lemma owner_role_new_booking session clock user_id activity_id u :
  users session !! user_id = Some u →
  Spec.owner_role session (new_booking clock user_id activity_id) = Some (User.role u).
Proof. intros Hu. unfold Spec.owner_role. simpl. by rewrite Hu. Qed.

Lemma capacity_bounds_run c session :
  capacity_bounds session → capacity_bounds (run c session).
Proof.
  intros Hinv.
  destruct (run_checked_cases c session) as
    [->|[(clock & uid & aid & u & a & -> & Hu & Ha & _ & Hcap & ->)
        |(now & k & b & -> & Hb & ->)]]; [done| |].
  - intros activity_id a' Ha'. destruct (Hinv activity_id a' Ha') as [Hvol Hatt].
    cbn [activities add_booking] in Ha'.
    rewrite volunteer_count_add, (attendees_add _ _ (activity_id, a')).
    rewrite (owner_role_new_booking _ _ _ _ u Hu). cbn [fst new_booking Booking.activity_id
      Booking.status].
    destruct (decide (User.role u = VOLUNTEER)) as [Hr|Hr].
    + rewrite (decide_False (P:=_ ∧ _ ∧ _ ∧ _)); cycle 1.
      { intros (_ & _ & _ & Hne). apply Hne. by rewrite Hr. }
      split; [|lia].
      destruct (decide _) as [(-> & _ & _)|]; [|lia].
      assert (a' = a) as -> by congruence.
      assert (¬ Activity.volunteer_slots a ≤ Spec.current_volunteer_count session activity_id).
      { intros Hle. apply Hcap. by left. }
      lia.
    + rewrite (decide_False (P:=_ ∧ _ ∧ _ = Some VOLUNTEER)); cycle 1.
      { intros (_ & _ & [= Hv]). done. }
      split; [lia|].
      destruct (decide _) as [(-> & _ & _)|]; [|lia].
      assert (a' = a) as -> by congruence.
      assert (¬ Spec.current_capacity session (activity_id, a)
                ≤ Spec.current_attendees session (activity_id, a)) as Hlt.
      { intros Hle. apply Hcap. by right. }
      unfold Spec.current_capacity in Hlt. simpl in Hlt. lia.
  - intros activity_id a' Ha'. destruct (Hinv activity_id a' Ha') as [Hvol Hatt].
    pose proof (volunteer_count_cancel session k b now activity_id Hb).
    pose proof (attendees_cancel session k b now (activity_id, a') Hb).
    split; lia.
Qed.

Lemma reachable_capacity_bounds session : reachable session → capacity_bounds session.
Proof.
  induction 1 as [session Hempty|session c _ IH].
  - intros activity_id a _.
    unfold Spec.current_volunteer_count, Spec.confirmed_volunteer_bookings,
      Spec.current_attendees, Spec.confirmed_attendee_bookings, count, query.
    rewrite Hempty, map_to_list_empty. simpl. lia.
  - by apply capacity_bounds_run.
Qed.

(** X9: in every reachable state, the Confirmed volunteer bookings of an
    activity do not exceed its volunteer_slots (or 0 if that is negative),
    so its capacity is at most base_capacity + 2 * volunteer_slots, and its
    attendees do not exceed that bound. *)
Theorem X9_capacity_bounds session activity_id a :
  reachable session →
  activities session !! activity_id = Some a →
  let slots := Z.max 0 (Activity.volunteer_slots a) in
  count (volunteer_rows activity_id session) ≤ slots
  ∧ get_current_capacity (activity_id, a) session ≤ Activity.base_capacity a + 2 * slots
  ∧ get_current_attendees (activity_id, a) session
    ≤ Z.max 0 (Activity.base_capacity a + 2 * slots).
Proof.
  intros Hreach Ha slots.
  destruct (reachable_capacity_bounds session Hreach activity_id a Ha) as [Hvol Hatt].
  rewrite volunteer_rows_count, get_current_capacity_spec, get_current_attendees_spec.
  unfold Spec.current_capacity. simpl. subst slots. lia.
Qed.

Lemma reachable_foldl {A} (g : A → call) (l : list A) session :
  reachable session → reachable (foldl (λ session i, run (g i) session) session l).
Proof.
  revert session. induction l as [|i l IH]; intros session Hreach; [done|].
  simpl. apply IH. by apply reachable_step.
Qed.

Lemma reachable_crowd : reachable Scenario.crowd.
Proof.
  apply (reachable_foldl (λ i, AttemptBooking Scenario.clock i 1)), reachable_init.
  reflexivity.
Qed.

Lemma X9_witness :
  reachable Overbooked.before_cancel
  ∧ count (volunteer_rows 1 Overbooked.before_cancel) = 1
  ∧ get_current_capacity (1, Sample.yoga) Overbooked.before_cancel = 12
  ∧ get_current_attendees (1, Sample.yoga) Overbooked.before_cancel = 11
  ∧ get_current_attendees (1, Sample.yoga) Overbooked.before_cancel ≤ 16.
Proof.
  assert (reachable Overbooked.before_cancel) as Hreach.
  { apply (reachable_foldl id), reachable_crowd. }
  assert (activities Overbooked.before_cancel !! 1 = Some Sample.yoga) as Ha.
  { vm_compute. reflexivity. }
  destruct (X9_capacity_bounds _ _ _ Hreach Ha) as (_ & _ & Hatt).
  split_and!; try (vm_compute; reflexivity).
  - exact Hreach.
  - exact Hatt.
Defined.

(** ** Cancellation of a volunteer *)

(** X10: [cancel_booking] checks no capacity: cancelling the Confirmed
    booking of a Volunteer succeeds, leaves the attendees of the activity
    as they are and lowers its capacity by 2, so an activity whose
    attendees were above capacity - 2 is over capacity afterwards. *)
Theorem X10_volunteer_cancellation now session k b u a :
  bookings session !! k = Some b →
  Booking.status b = CONFIRMED →
  users session !! Booking.user_id b = Some u →
  User.role u = VOLUNTEER →
  let activity := (Booking.activity_id b, a) in
  let outcome := cancel_booking now k (Booking.user_id b) session in
  succeeds outcome
  ∧ get_current_attendees activity outcome.2 = get_current_attendees activity session
  ∧ get_current_capacity activity outcome.2 = get_current_capacity activity session - 2
  ∧ (get_current_capacity activity session - 2 < get_current_attendees activity session →
     get_current_capacity activity outcome.2 < get_current_attendees activity outcome.2).
Proof.
  intros Hk Hs Hu Hr activity outcome.
  assert (outcome = (Return {| cancel_message := "Booking cancelled successfully";
                               cancelled_booking_id := k |},
                     set_booking session k (cancelled now b))) as ->.
  { subst outcome. rewrite cancel_booking_eq, Hk, decide_True by done.
    rewrite decide_False; [done|]. by rewrite Hs. }
  cbn [snd].
  assert (get_current_attendees activity (set_booking session k (cancelled now b))
          = get_current_attendees activity session) as Hatt.
  { rewrite !get_current_attendees_spec, (cancelled_attendees session k b now Hk).
    unfold Spec.current_attendees, Spec.confirmed_attendee_bookings, count.
    rewrite (length_filter_split _ (bookings session) k b Hk).
    rewrite decide_False;
      [unfold Spec.owner_role, without_booking; cbn [users bookings]; lia|].
    unfold Spec.owner_role. simpl. rewrite Hu. simpl.
    intros (_ & _ & _ & Hne). apply Hne. by rewrite Hr. }
  assert (get_current_capacity activity (set_booking session k (cancelled now b))
          = get_current_capacity activity session - 2) as Hcap.
  { rewrite !get_current_capacity_spec. unfold Spec.current_capacity.
    rewrite (cancelled_volunteer_count session k b now Hk).
    unfold Spec.current_volunteer_count, Spec.confirmed_volunteer_bookings, count.
    rewrite (length_filter_split _ (bookings session) k b Hk).
    rewrite decide_True;
      [unfold Spec.owner_role, without_booking; cbn [users bookings]; lia|].
    unfold Spec.owner_role. simpl. rewrite Hu. simpl. by rewrite Hr. }
  split_and!; [by eexists|done|done|lia].
Qed.

Lemma X10_witness :
  reachable Overbooked.after_cancel
  ∧ get_current_attendees (1, Sample.yoga) Overbooked.before_cancel = 11
  ∧ get_current_capacity (1, Sample.yoga) Overbooked.before_cancel = 12
  ∧ Overbooked.after_cancel
    = (cancel_booking (Sample.monday + 10) 11 12 Overbooked.before_cancel).2
  ∧ get_current_capacity (1, Sample.yoga) Overbooked.after_cancel
    < get_current_attendees (1, Sample.yoga) Overbooked.after_cancel.
Proof.
  assert (bookings Overbooked.before_cancel !! 11
          = Some (new_booking Scenario.clock 12 1)) as Hk.
  { vm_compute. reflexivity. }
  assert (users Overbooked.before_cancel !! 12 = Some Sample.emma) as Hu.
  { vm_compute. reflexivity. }
  destruct (X10_volunteer_cancellation (Sample.monday + 10) _ _ _ _ Sample.yoga
              Hk eq_refl Hu eq_refl) as (_ & _ & _ & Hover).
  split_and!.
  - apply (reachable_foldl id), reachable_crowd.
  - vm_compute. reflexivity.
  - vm_compute. reflexivity.
  - reflexivity.
  - apply Hover. vm_compute. reflexivity.
Defined.

(** ** The weekly allowance is never exceeded *)

Lemma token_limit_nonneg (user : Z * User.t) limit :
  get_weekly_token_limit user = Int limit → 0 ≤ limit.
Proof. rewrite token_limit_cases. destruct (User.membership_tier user.2); intros [= <-]; lia. Qed.

Lemma within_tokens_run c session :
  steady c → within_tokens session → within_tokens (run c session).
Proof.
  intros Hsteady Hinv.
  destruct (run_checked_cases c session) as
    [->|[(clock & uid & aid & u & a & -> & Hu & Ha & Htok & _ & ->)
        |(now & k & b & -> & Hb & ->)]]; [done| |].
  - intros user_id u' limit t Hu' Hr Hl. cbn [users add_booking] in Hu'.
    specialize (Hinv user_id u' limit t Hu' Hr Hl).
    rewrite weekly_usage_add. cbn [new_booking Booking.user_id Booking.status
      Booking.created_at].
    destruct (decide _) as [(-> & _ & Hlo & Hhi)|]; [|lia].
    assert (u' = u) as -> by congruence.
    apply not_token_check_fails in Htok as [_ Hlt]; [|done].
    specialize (Hlt limit Hl). cbn [fst] in Hlt.
    assert (get_week_start_end t = get_week_start_end (now_check clock)) as Hweek.
    { simpl in Hsteady. rewrite <- Hsteady. symmetry. by apply week_stable. }
    unfold Spec.weekly_usage in *. rewrite Hweek. lia.
  - intros user_id u' limit t Hu' Hr Hl. cbn [users set_booking] in Hu'.
    specialize (Hinv user_id u' limit t Hu' Hr Hl).
    pose proof (weekly_usage_cancel session k b now t user_id Hb). lia.
Qed.

(** X11: when every attempt reads the clock for the token check and for
    [created_at] in the same week, no user that is not a Volunteer ever
    has more Confirmed bookings created in one week than the finite limit
    of the tier; an Adhoc user has none. *)
Theorem X11_weekly_allowance_kept session user_id u limit t :
  reachable_steady session →
  users session !! user_id = Some u →
  User.role u ≠ VOLUNTEER →
  get_weekly_token_limit (user_id, u) = Int limit →
  count (weekly_bookings user_id (get_week_start_end t) session) ≤ limit.
Proof.
  intros Hreach. revert user_id u limit t.
  change (within_tokens session).
  induction Hreach as [session Hempty|session c _ IH Hsteady].
  - intros user_id u limit t _ _ Hl%token_limit_nonneg.
    unfold Spec.weekly_usage, weekly_bookings, count, query.
    rewrite Hempty, map_to_list_empty. simpl. lia.
  - by apply within_tokens_run.
Qed.

Lemma X11_witness :
  reachable_steady Scenario.alice_yoga
  ∧ count (weekly_bookings 1 (get_week_start_end Sample.monday) Scenario.alice_yoga) = 1
  ∧ count (weekly_bookings 1 (get_week_start_end Sample.monday) Scenario.alice_yoga) ≤ 1.
Proof.
  assert (reachable_steady Scenario.alice_yoga) as Hreach.
  { apply reachable_steady_step; [apply reachable_steady_init|]; reflexivity. }
  split_and!.
  - exact Hreach.
  - vm_compute. reflexivity.
  - apply (X11_weekly_allowance_kept _ 1 Sample.alice 1 Sample.monday Hreach).
    + vm_compute. reflexivity.
    + discriminate.
    + reflexivity.
Defined.

(** ** get_user_token_balance *)

Lemma get_user_token_balance_eq now user_id session :
  get_user_token_balance now user_id session
  = (match users session !! user_id with
     | None => Raise (BookingError "User not found" "USER_NOT_FOUND")
     | Some u =>
         let used := Spec.weekly_usage now session user_id in
         let limit := get_weekly_token_limit (user_id, u) in
         Return
           {| Balance.user_id := user_id;
              Balance.user_name := User.name u;
              Balance.membership_tier := tier_value (User.membership_tier u);
              Balance.tokens_total :=
                if decide (User.role u = VOLUNTEER) then Text "N/A"
                else match limit with Int n => Num n | Inf => Text "Unlimited" end;
              Balance.tokens_used :=
                if decide (User.role u = VOLUNTEER) then Text "N/A" else Num used;
              Balance.tokens_remaining :=
                if decide (User.role u = VOLUNTEER) then Text "N/A (Volunteer)"
                else match limit with
                     | Int n => Num (Z.max 0 (n - used))
                     | Inf => Text "Unlimited"
                     end;
              Balance.role := role_value (User.role u) |}
     end, session).
Proof.
  unfold get_user_token_balance. rewrite bind_eq. unfold gets.
  rewrite first_filter_key.
  destruct (users session !! user_id) as [u|]; [|done]. simpl.
  destruct (decide (User.role u = VOLUNTEER)) as [Hr|Hr].
  - by rewrite bool_decide_true.
  - rewrite bool_decide_false by done. unfold mbind, M_bind, Spec.weekly_usage.
    by destruct (get_weekly_token_limit (user_id, u)).
Qed.

(** X12: [get_user_token_balance] raises USER_NOT_FOUND exactly when the
    user is missing and never changes the session.  For a user that is not
    a Volunteer, tokens_used is the number of Confirmed bookings created in
    the week; with a finite limit, tokens_total is the limit and
    tokens_remaining is between 0 and the limit, is limit - used while the
    limit is not exceeded, and 0 from then on. *)
Theorem X12_token_balance now user_id session :
  let outcome := get_user_token_balance now user_id session in
  outcome.2 = session
  ∧ (users session !! user_id = None →
     outcome.1 = Raise (BookingError "User not found" "USER_NOT_FOUND"))
  ∧ ∀ u, users session !! user_id = Some u →
      ∃ balance, outcome.1 = Return balance
        ∧ (User.role u = VOLUNTEER →
           Balance.tokens_total balance = Text "N/A"
           ∧ Balance.tokens_used balance = Text "N/A"
           ∧ Balance.tokens_remaining balance = Text "N/A (Volunteer)")
        ∧ (User.role u ≠ VOLUNTEER →
           let used := count (weekly_bookings user_id (get_week_start_end now) session) in
           Balance.tokens_used balance = Num used
           ∧ 0 ≤ used
           ∧ (get_weekly_token_limit (user_id, u) = Inf →
              Balance.tokens_total balance = Text "Unlimited"
              ∧ Balance.tokens_remaining balance = Text "Unlimited")
           ∧ ∀ limit, get_weekly_token_limit (user_id, u) = Int limit →
               ∃ remaining,
                 Balance.tokens_total balance = Num limit
                 ∧ Balance.tokens_remaining balance = Num remaining
                 ∧ 0 ≤ remaining ≤ limit
                 ∧ (used ≤ limit → used + remaining = limit)
                 ∧ (limit ≤ used → remaining = 0)).
Proof.
  intros outcome. subst outcome. rewrite get_user_token_balance_eq. cbn [fst snd].
  split_and!; [done|by intros ->|].
  intros u ->. eexists. split; [done|]. cbv zeta. cbn [Balance.tokens_total
    Balance.tokens_used Balance.tokens_remaining]. split.
  - intros Hr. by rewrite !decide_True.
  - intros Hr. rewrite !decide_False by done. unfold Spec.weekly_usage.
    split_and!; try done.
    + unfold count. lia.
    + by intros ->.
    + intros limit Hl. rewrite Hl. pose proof (token_limit_nonneg _ _ Hl).
      eexists. split_and!; try done; unfold count; lia.
Qed.

Lemma fails_with_token_iff clock user_id activity_id session u a :
  users session !! user_id = Some u →
  activities session !! activity_id = Some a →
  ¬ Spec.has_confirmed session user_id activity_id →
  User.role u ≠ VOLUNTEER →
  let outcome := attempt_booking clock user_id activity_id session in
  (fails_with outcome "PAYMENT_REQUIRED" ∨ fails_with outcome "TOKEN_LIMIT_REACHED")
  ↔ Spec.token_check_fails (now_check clock) session (user_id, u).
Proof.
  intros Hu Ha Hdup Hr outcome. subst outcome.
  rewrite (attempt_booking_participant _ _ _ _ u a) by done.
  assert (∀ code, code ≠ "ACTIVITY_FULL" → code ≠ "ACCESSIBILITY_MISMATCH" →
            ¬ fails_with (capacity_then_create clock (user_id, u) (activity_id, a) session)
                code) as Hlater.
  { intros code H1 H2. unfold capacity_then_create. cbv zeta.
    destruct (decide _).
    - intros [? [=]]%fails_with_raise. congruence.
    - intros [? _]%fails_with_medical_then_create. congruence. }
  assert (¬ (fails_with (capacity_then_create clock (user_id, u) (activity_id, a) session)
               "PAYMENT_REQUIRED"
             ∨ fails_with (capacity_then_create clock (user_id, u) (activity_id, a) session)
                 "TOKEN_LIMIT_REACHED")) as Hno.
  { intros [H|H]; revert H; by apply Hlater. }
  destruct (decide (User.membership_tier u = ADHOC)) as [Ht|Ht].
  { split.
    - intros _. split; [done|]. by left.
    - intros _. left. by eexists. }
  destruct (get_weekly_token_limit (user_id, u)) as [limit|] eqn:Hl.
  - cbv zeta. destruct (decide _) as [Hle|Hlt].
    + split.
      * intros _. split; [done|]. right. by exists limit.
      * intros _. right. by eexists.
    + split; [done|].
      intros [_ [Hadhoc|(limit' & Hl' & Hle)]]; [done|].
      rewrite Hl in Hl'. injection Hl' as <-. done.
  - split; [done|].
    intros [_ [Hadhoc|(limit' & Hl' & Hle)]]; [done|].
    rewrite Hl in Hl'. done.
Qed.

(** X13: the balance agrees with the token check: for a user that is not
    a Volunteer and has not booked the existing activity, an attempt whose
    token check reads the clock at [now] is refused with PAYMENT_REQUIRED
    or TOKEN_LIMIT_REACHED exactly when [get_user_token_balance] at [now]
    reports tokens_remaining 0. *)
Theorem X13_balance_agrees_with_token_check clock user_id activity_id session u a :
  users session !! user_id = Some u →
  activities session !! activity_id = Some a →
  ¬ Spec.has_confirmed session user_id activity_id →
  User.role u ≠ VOLUNTEER →
  let outcome := attempt_booking clock user_id activity_id session in
  ∃ balance,
    get_user_token_balance (now_check clock) user_id session = (Return balance, session)
    ∧ (Balance.tokens_remaining balance = Num 0
       ↔ fails_with outcome "PAYMENT_REQUIRED" ∨ fails_with outcome "TOKEN_LIMIT_REACHED").
Proof.
  intros Hu Ha Hdup Hr outcome. subst outcome.
  rewrite get_user_token_balance_eq, Hu. eexists. split; [done|].
  rewrite (fails_with_token_iff _ _ _ _ u a) by done.
  cbv zeta. cbn [Balance.tokens_remaining]. rewrite decide_False by done.
  unfold Spec.token_check_fails. cbn [fst snd].
  destruct (get_weekly_token_limit (user_id, u)) as [limit|] eqn:Hl.
  - split.
    + intros [= Hmax]. split; [done|]. right. exists limit. split; [done|]. lia.
    + intros [_ [Hadhoc|(limit' & [= <-] & Hle)]].
      * rewrite token_limit_cases in Hl. simpl in Hl. rewrite Hadhoc in Hl.
        injection Hl as <-. f_equal.
        assert (0 ≤ Spec.weekly_usage (now_check clock) session user_id)
          by (unfold Spec.weekly_usage, count; lia).
        lia.
      * f_equal. lia.
  - split; [done|].
    intros [_ [Hadhoc|(limit' & [=] & _)]].
    rewrite token_limit_cases in Hl. simpl in Hl. by rewrite Hadhoc in Hl.
Qed.

Lemma X13_witness :
  (get_user_token_balance (now_check Scenario.clock) 1 Scenario.alice_yoga).1
  = Return (Balance.mk 1 "Alice Tan" "Weekly_1" (Num 1) (Num 1) (Num 0) "Participant")
  ∧ (fails_with (attempt_booking Scenario.clock 1 5 Scenario.alice_yoga) "PAYMENT_REQUIRED"
     ∨ fails_with (attempt_booking Scenario.clock 1 5 Scenario.alice_yoga)
         "TOKEN_LIMIT_REACHED").
Proof.
  assert ((get_user_token_balance (now_check Scenario.clock) 1 Scenario.alice_yoga).1
          = Return (Balance.mk 1 "Alice Tan" "Weekly_1" (Num 1) (Num 1) (Num 0)
                      "Participant")) as Hvalue.
  { vm_compute. reflexivity. }
  destruct (X13_balance_agrees_with_token_check Scenario.clock 1 5 Scenario.alice_yoga
              Sample.alice Sample.tiny) as (balance & Hbalance & Hiff).
  { vm_compute. reflexivity. }
  { vm_compute. reflexivity. }
  { rewrite has_confirmed_iff. intros Hne. apply Hne. vm_compute. reflexivity. }
  { discriminate. }
  split; [exact Hvalue|].
  apply Hiff. rewrite Hbalance in Hvalue. injection Hvalue as ->. reflexivity.
Defined.

(** X14: the tokens_remaining that a successful [attempt_booking] reports
    is what [get_user_token_balance] reports on the resulting session at
    the time of the report; it counts the new booking: when that was
    created in the week of the report, a user with a finite limit is told
    max(0, limit - (usage before + 1)). *)
Theorem X14_reported_tokens clock user_id activity_id session confirmation session' :
  attempt_booking clock user_id activity_id session = (Return confirmation, session') →
  (∃ balance,
     get_user_token_balance (now_report clock) user_id session' = (Return balance, session')
     ∧ Balance.tokens_remaining balance = tokens_field (tokens_remaining confirmation))
  ∧ (∀ u limit,
       users session !! user_id = Some u → User.role u ≠ VOLUNTEER →
       get_weekly_token_limit (user_id, u) = Int limit →
       (get_week_start_end (now_report clock)).1 ≤ now_created clock
         < (get_week_start_end (now_report clock)).2 →
       tokens_remaining confirmation
       = Tokens (Z.max 0 (limit - (count (weekly_bookings user_id
                                            (get_week_start_end (now_report clock))
                                            session) + 1)))).
Proof.
  intros (u & a & Hu & Ha & _ & _ & _ & _ & Hcreate)%attempt_booking_return.
  apply create_booking_return in Hcreate as [-> ->]. cbn [tokens_remaining fst snd]. split.
  - rewrite get_user_token_balance_eq. cbn [users add_booking]. rewrite Hu.
    eexists. split; [done|]. cbv zeta. cbn [Balance.tokens_remaining].
    destruct (decide (User.role u = VOLUNTEER)); [done|].
    by destruct (get_weekly_token_limit (user_id, u)).
  - intros u' limit Hu' Hr Hl [Hlo Hhi].
    assert (u' = u) as -> by congruence.
    rewrite decide_False by done. rewrite Hl. do 2 f_equal.
    rewrite weekly_usage_add. cbn [new_booking Booking.user_id Booking.status
      Booking.created_at].
    rewrite decide_True by done. unfold Spec.weekly_usage. lia.
Qed.

Lemma X14_witness :
  attempt_booking Scenario.clock 2 1 Scenario.alice_yoga
  = (Return (mkConfirmation 2 "Booking confirmed successfully" "Bob Chen (Wheelchair User)"
               "Morning Yoga Session" 0 (Tokens 1) CONFIRMED),
     (attempt_booking Scenario.clock 2 1 Scenario.alice_yoga).2)
  ∧ Tokens 1
    = Tokens (Z.max 0 (2 - (count (weekly_bookings 2
                                     (get_week_start_end (now_report Scenario.clock))
                                     Scenario.alice_yoga) + 1))).
Proof.
  assert (attempt_booking Scenario.clock 2 1 Scenario.alice_yoga
          = (Return (mkConfirmation 2 "Booking confirmed successfully"
                       "Bob Chen (Wheelchair User)" "Morning Yoga Session" 0 (Tokens 1)
                       CONFIRMED),
             (attempt_booking Scenario.clock 2 1 Scenario.alice_yoga).2)) as Hbook.
  { vm_compute. reflexivity. }
  destruct (X14_reported_tokens _ _ _ _ _ _ Hbook) as [_ Hcount].
  split; [exact Hbook|].
  apply (Hcount Sample.bob 2); clear Hbook Hcount.
  - vm_compute. reflexivity.
  - discriminate.
  - reflexivity.
  - split; [intros Hgt; vm_compute in Hgt; discriminate Hgt|vm_compute; reflexivity].
Defined.

(** ** The listing of activities *)

Lemma for_each_cases {A B} (f : A → M B) (l : list A) session :
  (∀ x, (f x session).2 = session) →
  (∃ ys, for_each f l session = (Return ys, session)
         ∧ Forall2 (λ x y, (f x session).1 = Return y) l ys)
  ∨ (∃ e x, for_each f l session = (Raise e, session)
            ∧ x ∈ l ∧ (f x session).1 = Raise e).
Proof.
  intros Hro. induction l as [|x l IH]; [left; by exists []|].
  simpl. rewrite bind_eq. specialize (Hro x).
  destruct (f x session) as [[y|e] s1] eqn:Hx; simpl in Hro; subst s1.
  - rewrite bind_eq.
    destruct IH as [(ys & -> & Hall)|(e & x' & -> & Hin & Hraise)].
    + left. exists (y :: ys). split; [done|]. constructor; [by rewrite Hx|done].
    + right. exists e, x'. split_and!; [done|by right|done].
  - right. exists e, x. split_and!; [done|by left|by rewrite Hx].
Qed.

Lemma activity_view_eq (activity : Z * Activity.t) session :
  activity_view activity session
  = (match is_accessible activity with
     | Raise e => Raise e
     | Return v =>
         let capacity := get_current_capacity activity session in
         let attendees := get_current_attendees activity session in
         Return (ActivityView.mk activity.1 (Activity.title activity.2)
                   (Activity.description activity.2) (Activity.start_time activity.2)
                   (Activity.end_time activity.2) (Activity.location activity.2)
                   (Activity.base_capacity activity.2) capacity attendees
                   (Z.max 0 (capacity - attendees)) (Activity.volunteer_slots activity.2)
                   (Activity.requirements activity.2) v)
     end, session).
Proof.
  unfold activity_view. unfold mbind, M_bind, gets, lift. cbv beta iota zeta.
  by destruct (is_accessible activity).
Qed.

Lemma is_accessible_raise activity e : is_accessible activity = Raise e → e = AttributeError.
Proof. unfold is_accessible, dict_get. by case_match; intros [= <-]. Qed.

Lemma keep_accessible_cases (l : list (Z * Activity.t)) :
  (keep_accessible l = Return (filter (λ a, accessible a) l)
   ∧ ∀ a, a ∈ l → ∃ v, is_accessible a = Return v)
  ∨ (keep_accessible l = Raise AttributeError
     ∧ ∃ a, a ∈ l ∧ is_accessible a = Raise AttributeError).
Proof.
  induction l as [|a l IH]; [left; split; [done|]; by intros a Ha%elem_of_nil|].
  simpl. rewrite filter_cons.
  destruct (is_accessible a) as [v|e] eqn:Ha.
  - assert (accessible a = truthy v) as -> by (unfold accessible; by rewrite Ha).
    destruct IH as [[-> Hall]|[-> (a' & Hin & Hraise)]].
    + left. split.
      * by destruct (truthy v).
      * intros a' [->|Hin]%elem_of_cons; [by exists v|by apply Hall].
    + right. split; [done|]. exists a'. split; [by right|done].
  - pose proof (is_accessible_raise _ _ Ha) as ->.
    right. split; [done|]. exists a. split; [by left|done].
Qed.

Lemma dict_get_raise d key fallback e :
  dict_get d key fallback = Raise e → e = AttributeError.
Proof. unfold dict_get. by case_match; intros [= <-]. Qed.

(** The listing, for a caller that is shown every activity, and for one
    that is shown the accessible ones. *)
Lemma shown_activities_cases user_id (l : list (Z * Activity.t)) session :
  (shown_activities user_id l session).2 = session
  ∧ ((shown_activities user_id l session).1 = Return l
     ∨ ((shown_activities user_id l session).1 = Return (filter (λ a, accessible a) l)
        ∧ (∀ a, a ∈ l → ∃ v, is_accessible a = Return v)
        ∧ ∃ uid u, user_id = Some uid ∧ uid ≠ 0 ∧ users session !! uid = Some u
                   ∧ Spec.requires_wheelchair (uid, u))
     ∨ (shown_activities user_id l session).1 = Raise AttributeError).
Proof.
  unfold shown_activities.
  destruct user_id as [uid|]; [|split; [done|by left]].
  case_bool_decide as Hz; [|split; [done|by left]].
  rewrite bind_eq. unfold gets. rewrite first_filter_key.
  destruct (users session !! uid) as [u|] eqn:Hu; [|split; [done|by left]].
  cbn [fmap option_fmap option_map snd]. cbv zeta. rewrite bind_eq. unfold lift.
  destruct (dict_get _ _ _) as [w|e] eqn:Hw; cbv beta iota.
  - destruct (truthy w) eqn:Htw; [|split; [done|by left]].
    cbn [fst snd]. split; [done|].
    destruct (keep_accessible_cases l) as [[-> Hall]|[-> _]].
    + right; left. split_and!; try done. exists uid, u. split_and!; try done.
      by exists w.
    + by right; right.
  - apply dict_get_raise in Hw as ->. split; [done|]. by right; right.
Qed.

Lemma activity_view_read_only activity session : (activity_view activity session).2 = session.
Proof. by rewrite activity_view_eq. Qed.

Lemma get_activities_eq user_id session :
  get_activities user_id session
  = match (shown_activities user_id (query (activities session)) session).1 with
    | Return shown => for_each activity_view shown session
    | Raise e => (Raise e, session)
    end.
Proof.
  unfold get_activities. rewrite bind_eq. unfold gets. rewrite bind_eq.
  destruct (shown_activities_cases user_id (query (activities session)) session) as [Hro _].
  destruct (shown_activities _ _ _) as [[shown|e] s1]; simpl in Hro; by subst s1.
Qed.

Lemma get_activities_return user_id session views session' :
  get_activities user_id session = (Return views, session') →
  session' = session
  ∧ ∃ shown,
      (shown_activities user_id (query (activities session)) session).1 = Return shown
      ∧ Forall2 (λ a v, (activity_view a session).1 = Return v) shown views.
Proof.
  rewrite get_activities_eq.
  destruct (shown_activities _ _ _).1 as [shown|e]; [|by intros [=]].
  destruct (for_each_cases activity_view shown session
              (λ a, activity_view_read_only a session))
    as [(ys & -> & Hall)|(e & x & -> & _)]; [|by intros [=]].
  intros [= <- <-]. split; [done|]. by exists shown.
Qed.

Lemma get_activities_raise user_id session e session' :
  get_activities user_id session = (Raise e, session') →
  session' = session ∧ e = AttributeError.
Proof.
  rewrite get_activities_eq.
  assert (∀ l, for_each activity_view l session = (Raise e, session') →
               session' = session ∧ e = AttributeError) as Hloop.
  { intros l.
    destruct (for_each_cases activity_view l session
                (λ a, activity_view_read_only a session))
      as [(ys & -> & _)|(e' & x & -> & _ & Hx)]; [by intros [=]|].
    intros [= <- <-]. split; [done|].
    rewrite activity_view_eq in Hx. simpl in Hx.
    destruct (is_accessible x) eqn:Hacc; [done|].
    injection Hx as <-. by eapply is_accessible_raise. }
  destruct (shown_activities_cases user_id (query (activities session)) session)
    as [_ [Hs|[(Hs & _)|Hs]]]; rewrite Hs; [apply Hloop|apply Hloop|].
  by intros [= <- <-].
Qed.

Lemma views_ids (shown : list (Z * Activity.t)) views session :
  Forall2 (λ a v, (activity_view a session).1 = Return v) shown views →
  ActivityView.id <$> views = shown.*1.
Proof.
  induction 1 as [|a v shown views Hav _ IH]; [done|].
  rewrite !fmap_cons, IH. f_equal.
  rewrite activity_view_eq in Hav. simpl in Hav.
  destruct (is_accessible a); [|done]. by injection Hav as <-.
Qed.

Lemma shown_activities_wheelchair user_id u (l : list (Z * Activity.t)) session :
  user_id ≠ 0 → users session !! user_id = Some u →
  Spec.requires_wheelchair (user_id, u) →
  shown_activities (Some user_id) l session = (keep_accessible l, session).
Proof.
  intros Hz Hu (w & Hw & Htw). unfold shown_activities.
  rewrite bool_decide_true by done. rewrite bind_eq. unfold gets.
  rewrite first_filter_key, Hu. cbn [fmap option_fmap option_map snd]. cbv zeta.
  simpl in Hw. rewrite bind_eq. unfold lift. by rewrite Hw, Htw.
Qed.

Lemma accessible_iff (user : Z * User.t) (activity : Z * Activity.t) v :
  Spec.requires_wheelchair user →
  is_accessible activity = Return v →
  accessible activity = true ↔ ¬ Spec.accessibility_check_fails user activity.
Proof.
  intros Hreq Hv. unfold accessible, Spec.accessibility_check_fails. rewrite Hv. split.
  - intros Ht (_ & v' & [= <-] & Hf). congruence.
  - intros Hnot. destruct (truthy v) eqn:Ht; [done|].
    destruct Hnot. split; [done|]. by exists v.
Qed.

Lemma mismatch_needs_failing_check clock user_id activity_id session u a :
  users session !! user_id = Some u →
  activities session !! activity_id = Some a →
  fails_with (attempt_booking clock user_id activity_id session) "ACCESSIBILITY_MISMATCH" →
  Spec.accessibility_check_fails (user_id, u) (activity_id, a).
Proof.
  intros Hu Ha.
  assert (fails_with (medical_then_create clock (user_id, u) (activity_id, a) session)
            "ACCESSIBILITY_MISMATCH" →
          Spec.accessibility_check_fails (user_id, u) (activity_id, a)) as Hmed.
  { intros [_ Hv]%fails_with_medical_then_create. revert Hv.
    unfold medical_verdict, Spec.accessibility_check_fails, Spec.requires_wheelchair.
    destruct (dict_get _ _ _) as [w|e] eqn:Hw.
    - destruct (truthy w) eqn:Htw; [|done].
      destruct (is_accessible (activity_id, a)) as [v|e] eqn:Hv.
      + destruct (truthy v) eqn:Htv; [done|]. intros _. split; [by exists w|by exists v].
      + intros [= ->]. by apply is_accessible_raise in Hv.
    - intros [= ->]. by apply dict_get_raise in Hw. }
  destruct (decide (Spec.has_confirmed session user_id activity_id)) as [Hdup|Hdup].
  { rewrite attempt_booking_eq, Hu, Ha, decide_True by done.
    by intros [? [=]]%fails_with_raise. }
  destruct (decide (User.role u = VOLUNTEER)) as [Hr|Hr].
  - rewrite (attempt_booking_volunteer _ _ _ _ u a) by done. cbv zeta.
    destruct (decide _); [by intros [? [=]]%fails_with_raise|done].
  - rewrite (attempt_booking_participant _ _ _ _ u a) by done.
    unfold capacity_then_create.
    repeat case_match; try (by intros [? [=]]%fails_with_raise); done.
Qed.

(** X15: the listing for a wheelchair user agrees with the accessibility
    check of [attempt_booking]: when [get_activities] returns for a user
    (id other than 0) whose flags ask for a wheelchair, the session is
    unchanged and the listed ids are exactly the activities on which the
    accessibility check would not refuse the user; an attempt on a listed
    activity is never refused with ACCESSIBILITY_MISMATCH, and an attempt
    on an id that is not listed never succeeds. *)
Theorem X15_listing_for_wheelchair_user user_id u session views session' :
  user_id ≠ 0 →
  users session !! user_id = Some u →
  Spec.requires_wheelchair (user_id, u) →
  get_activities (Some user_id) session = (Return views, session') →
  session' = session
  ∧ ∀ activity_id,
      (activity_id ∈ ActivityView.id <$> views
       ↔ ∃ a, activities session !! activity_id = Some a
              ∧ ¬ Spec.accessibility_check_fails (user_id, u) (activity_id, a))
      ∧ (activity_id ∈ ActivityView.id <$> views →
         ∀ clock, ¬ fails_with (attempt_booking clock user_id activity_id session)
                      "ACCESSIBILITY_MISMATCH")
      ∧ (activity_id ∉ ActivityView.id <$> views →
         ∀ clock, ¬ succeeds (attempt_booking clock user_id activity_id session)).
Proof.
  intros Hz Hu Hreq (-> & shown & Hshown & Hviews)%get_activities_return.
  split; [done|].
  rewrite (shown_activities_wheelchair _ u) in Hshown by done. simpl in Hshown.
  destruct (keep_accessible_cases (query (activities session)))
    as [[Hkeep Hall]|[Hkeep _]]; rewrite Hkeep in Hshown; [|done].
  injection Hshown as <-.
  rewrite (views_ids _ _ _ Hviews).
  assert (∀ activity_id,
            activity_id ∈ (filter (λ a, accessible a) (query (activities session))).*1
            ↔ ∃ a, activities session !! activity_id = Some a
                   ∧ ¬ Spec.accessibility_check_fails (user_id, u) (activity_id, a))
    as Hlisted.
  { intros activity_id. rewrite list_elem_of_fmap. split.
    - intros ([k a] & -> & [Hacc Hin]%list_elem_of_filter). simpl.
      exists a. split; [by apply elem_of_query|].
      destruct (Hall _ Hin) as [v Hv].
      apply (accessible_iff _ _ v Hreq Hv). by apply Is_true_true.
    - intros (a & Ha & Hnot). exists (activity_id, a). split; [done|].
      apply list_elem_of_filter. apply elem_of_query in Ha. split; [|done].
      destruct (Hall _ Ha) as [v Hv].
      apply Is_true_true. by apply (accessible_iff (user_id, u) _ v Hreq Hv). }
  intros activity_id. split_and!; [apply Hlisted| |].
  - intros (a & Ha & Hnot)%Hlisted clock Hfail. apply Hnot.
    by eapply mismatch_needs_failing_check.
  - intros Hout clock [confirmation Hok].
    destruct (attempt_booking clock user_id activity_id session)
      as [r s1] eqn:Hrun. simpl in Hok. subst r.
    apply attempt_booking_return in Hrun
      as (u' & a & Hu' & Ha & _ & _ & _ & Hv & _).
    assert (u' = u) as -> by congruence.
    apply Hout, Hlisted. exists a. split; [done|].
    intros ((w & Hw & Htw) & v & Hacc & Htv).
    unfold medical_verdict in Hv. rewrite Hw, Htw, Hacc, Htv in Hv. done.
Qed.

Lemma X15_witness :
  ∃ views,
    get_activities (Some 2) Sample.seed = (Return views, Sample.seed)
    ∧ length views = 4%nat
    ∧ 1 ∈ (ActivityView.id <$> views)
    ∧ ¬ 2 ∈ (ActivityView.id <$> views)
    ∧ ∀ clock,
        ¬ fails_with (attempt_booking clock 2 1 Sample.seed) "ACCESSIBILITY_MISMATCH"
        ∧ ¬ succeeds (attempt_booking clock 2 2 Sample.seed).
Proof.
  destruct (get_activities (Some 2) Sample.seed) as [[views|e] s1] eqn:Hrun;
    [|vm_compute in Hrun; discriminate Hrun].
  assert (length views = 4%nat
          ∧ 1 ∈ (ActivityView.id <$> views)
          ∧ ¬ 2 ∈ (ActivityView.id <$> views)) as (Hlen & Hin & Hout).
  { vm_compute in Hrun. injection Hrun as <- _. split; [reflexivity|].
    cbn [fmap list_fmap ActivityView.id]. split.
    - do 3 right. left.
    - intros H.
      repeat (apply elem_of_cons in H as [H|H]; [discriminate H|]).
      by apply elem_of_nil in H. }
  destruct (X15_listing_for_wheelchair_user 2 Sample.bob Sample.seed views s1)
    as [-> Hlisted].
  - discriminate.
  - vm_compute. reflexivity.
  - exists (JBool true). split; vm_compute; reflexivity.
  - exact Hrun.
  - exists views. split; [reflexivity|]. split_and!; [exact Hlen|exact Hin|exact Hout|].
    intros clock. split.
    + by apply (Hlisted 1).
    + by apply (Hlisted 2).
Defined.

Lemma activity_full_iff clock user_id activity_id session u a :
  users session !! user_id = Some u →
  activities session !! activity_id = Some a →
  User.role u ≠ VOLUNTEER →
  ¬ Spec.has_confirmed session user_id activity_id →
  Spec.tokens_available (now_check clock) session (user_id, u) →
  fails_with (attempt_booking clock user_id activity_id session) "ACTIVITY_FULL"
  ↔ Spec.current_capacity session (activity_id, a)
    ≤ Spec.current_attendees session (activity_id, a).
Proof.
  intros Hu Ha Hr Hdup [Htier Hlimit]. split.
  - intros Hfull. by eapply activity_full_sound.
  - intros Hle. rewrite (attempt_booking_participant _ _ _ _ u a) by done.
    rewrite decide_False by done. unfold capacity_then_create.
    destruct (get_weekly_token_limit (user_id, u)) as [limit|] eqn:Hl.
    + specialize (Hlimit limit eq_refl). simpl in Hlimit.
      cbv zeta. rewrite decide_False by lia. rewrite decide_True by done.
      by eexists.
    + cbv zeta. rewrite decide_True by done. by eexists.
Qed.

Lemma activity_view_return (activity : Z * Activity.t) session v :
  (activity_view activity session).1 = Return v →
  ∃ accessible,
    is_accessible activity = Return accessible
    ∧ v = ActivityView.mk activity.1 (Activity.title activity.2)
            (Activity.description activity.2) (Activity.start_time activity.2)
            (Activity.end_time activity.2) (Activity.location activity.2)
            (Activity.base_capacity activity.2)
            (Spec.current_capacity session activity)
            (Spec.current_attendees session activity)
            (Z.max 0 (Spec.current_capacity session activity
                      - Spec.current_attendees session activity))
            (Activity.volunteer_slots activity.2)
            (Activity.requirements activity.2) accessible.
Proof.
  rewrite activity_view_eq. cbn [fst]. cbv zeta.
  rewrite get_current_capacity_spec, get_current_attendees_spec.
  destruct (is_accessible activity) as [accessible|e]; [|done].
  intros [= <-]. by exists accessible.
Qed.

Lemma shown_activities_sublist user_id (l shown : list (Z * Activity.t)) session :
  (shown_activities user_id l session).1 = Return shown → shown `sublist_of` l.
Proof.
  destruct (shown_activities_cases user_id l session) as [_ [Hs|[(Hs & _)|Hs]]];
    rewrite Hs; intros [= <-]; [done|]. apply sublist_filter.
Qed.

Lemma shown_activities_listed user_id session shown :
  (shown_activities user_id (query (activities session)) session).1 = Return shown →
  NoDup shown.*1 ∧ ∀ a, a ∈ shown → activities session !! a.1 = Some a.2.
Proof.
  intros Hsub%shown_activities_sublist. split.
  - eapply sublist_NoDup; [|by apply fmap_sublist]. unfold query. apply NoDup_fst_map_to_list.
  - intros [k a] Hin. simpl. apply elem_of_query.
    by eapply elem_of_sublist.
Qed.

(** X16: every entry of the listing describes an activity of the
    session, each activity at most once, with the capacity and the
    attendees that the booking checks use; its available_slots is never
    negative, and it is 0 exactly when an attempt of a user that is not a
    Volunteer, has not booked the activity and has a token left is refused
    with ACTIVITY_FULL. *)
Theorem X16_listed_activity user_id session views session' :
  get_activities user_id session = (Return views, session') →
  NoDup (ActivityView.id <$> views)
  ∧ ∀ v, v ∈ views →
      ∃ a, activities session !! ActivityView.id v = Some a
           ∧ ActivityView.title v = Activity.title a
           ∧ ActivityView.base_capacity v = Activity.base_capacity a
           ∧ ActivityView.volunteer_slots v = Activity.volunteer_slots a
           ∧ ActivityView.requirements v = Activity.requirements a
           ∧ is_accessible (ActivityView.id v, a) = Return (ActivityView.is_accessible v)
           ∧ ActivityView.current_capacity v
             = Activity.base_capacity a
               + 2 * count (Spec.confirmed_volunteer_bookings session (ActivityView.id v))
           ∧ ActivityView.current_attendees v
             = count (Spec.confirmed_attendee_bookings session (ActivityView.id v))
           ∧ 0 ≤ ActivityView.available_slots v
           ∧ (ActivityView.current_attendees v ≤ ActivityView.current_capacity v →
              ActivityView.available_slots v
              = ActivityView.current_capacity v - ActivityView.current_attendees v)
           ∧ ∀ clock booker u,
               users session !! booker = Some u →
               User.role u ≠ VOLUNTEER →
               ¬ Spec.has_confirmed session booker (ActivityView.id v) →
               Spec.tokens_available (now_check clock) session (booker, u) →
               fails_with (attempt_booking clock booker (ActivityView.id v) session)
                 "ACTIVITY_FULL"
               ↔ ActivityView.available_slots v = 0.
Proof.
  intros (-> & shown & Hshown & Hviews)%get_activities_return.
  apply shown_activities_listed in Hshown as [Hnodup Hlisted].
  split; [by rewrite (views_ids _ _ _ Hviews)|].
  intros v Hv.
  apply list_elem_of_lookup in Hv as [i Hi].
  destruct (Forall2_lookup_r _ _ _ _ _ Hviews Hi) as ([k a] & Hk & Hview).
  apply list_elem_of_lookup_2 in Hk. specialize (Hlisted _ Hk). simpl in Hlisted.
  apply activity_view_return in Hview as (accessible & Hacc & ->). simpl.
  exists a. split_and!; try done.
  - lia.
  - lia.
  - intros clock booker u Hu Hr Hdup Htok.
    rewrite (activity_full_iff _ _ _ _ u a) by done. lia.
Qed.

Lemma X16_witness :
  ∃ v, (get_activities None Scenario.crowd).1 = Return [v]
       ∧ ActivityView.id v = 1
       ∧ ActivityView.available_slots v = 0
       ∧ fails_with (attempt_booking Scenario.clock 11 1 Scenario.crowd) "ACTIVITY_FULL".
Proof.
  destruct (get_activities None Scenario.crowd) as [[views|e] s1] eqn:Hrun;
    [|vm_compute in Hrun; discriminate Hrun].
  destruct (X16_listed_activity None Scenario.crowd views s1 Hrun) as [_ Hall].
  destruct views as [|v [|v' views]];
    [vm_compute in Hrun; discriminate Hrun| |vm_compute in Hrun; discriminate Hrun].
  assert (ActivityView.id v = 1 ∧ ActivityView.available_slots v = 0) as [Hid Hzero].
  { vm_compute in Hrun. injection Hrun as <- _. split; reflexivity. }
  exists v. split; [reflexivity|]. split; [exact Hid|]. split; [exact Hzero|].
  destruct (Hall v) as (a & _ & _ & _ & _ & _ & _ & _ & _ & _ & _ & Hfull); [left|].
  rewrite Hid in Hfull.
  apply (Hfull Scenario.clock 11 (Scenario.participant 11)).
  - vm_compute. reflexivity.
  - discriminate.
  - rewrite has_confirmed_iff. intros Hne. apply Hne. vm_compute. reflexivity.
  - split; [discriminate|]. intros limit Hl. vm_compute in Hl. discriminate Hl.
  - exact Hzero.
Defined.

Lemma shown_activities_eq user_id (l : list (Z * Activity.t)) session :
  shown_activities user_id l session
  = (match user_id with
     | Some uid =>
         if bool_decide (uid ≠ 0) then
           match users session !! uid with
           | Some u =>
               match dict_get (py_or (User.medical_flags u) (JObj ∅)) "wheelchair"
                       (JBool false) with
               | Return w => if truthy w then keep_accessible l else Return l
               | Raise e => Raise e
               end
           | None => Return l
           end
         else Return l
     | None => Return l
     end, session).
Proof.
  unfold shown_activities.
  destruct user_id as [uid|]; [|done].
  case_bool_decide; [|done].
  rewrite bind_eq. unfold gets. rewrite first_filter_key.
  destruct (users session !! uid) as [u|]; [|done].
  cbn [fmap option_fmap option_map snd]. cbv zeta. rewrite bind_eq. unfold lift.
  destruct (dict_get _ _ _) as [w|e]; [|done]. cbv beta iota.
  by destruct (truthy w).
Qed.

Lemma shown_activities_users user_id (l : list (Z * Activity.t)) session session' :
  users session' = users session →
  (shown_activities user_id l session').1 = (shown_activities user_id l session).1.
Proof. intros Hu. by rewrite !shown_activities_eq, Hu. Qed.

(** X17: what a successful booking changes in the listing.  After a
    successful [attempt_booking], the listing for any caller that was
    answered before is answered again, with the same activities in the
    same order; every entry but the booked activity's is unchanged, and
    the booked activity's entry shows one more attendee and one place
    fewer when the user is not a Volunteer, and a capacity larger by 2
    with the same attendees when the user is a Volunteer. *)
Theorem X17_listing_after_booking clock booker activity_id session confirmation session2
    user_id views :
  attempt_booking clock booker activity_id session = (Return confirmation, session2) →
  get_activities user_id session = (Return views, session) →
  ∃ u views2,
    users session !! booker = Some u
    ∧ get_activities user_id session2 = (Return views2, session2)
    ∧ Forall2 (λ v v2,
        ActivityView.id v2 = ActivityView.id v
        ∧ (ActivityView.id v ≠ activity_id → v2 = v)
        ∧ (ActivityView.id v = activity_id →
           if decide (User.role u = VOLUNTEER)
           then ActivityView.current_capacity v2 = ActivityView.current_capacity v + 2
                ∧ ActivityView.current_attendees v2 = ActivityView.current_attendees v
                ∧ ActivityView.available_slots v ≤ ActivityView.available_slots v2
           else ActivityView.current_capacity v2 = ActivityView.current_capacity v
                ∧ ActivityView.current_attendees v2 = ActivityView.current_attendees v + 1
                ∧ ActivityView.available_slots v2 = ActivityView.available_slots v - 1))
        views views2.
Proof.
  intros (u & a & Hu & Ha & _ & _ & Hcap & _ & Hcreate)%attempt_booking_return Hlist.
  apply create_booking_return in Hcreate as [-> _].
  apply get_activities_return in Hlist as (_ & shown & Hshown & Hviews).
  exists u. rewrite get_activities_eq.
  replace (activities (add_booking session (new_booking clock booker activity_id)))
    with (activities session) by done.
  rewrite (shown_activities_users _ _ session) by done. rewrite Hshown.
  apply shown_activities_listed in Hshown as [_ Hlisted].
  revert Hlisted. induction Hviews as [|[k a'] v shown views Hview _ IH]; intros Hlisted.
  { exists []. by split_and!. }
  destruct IH as (views2 & _ & Hrest & Hall).
  { intros x Hx. apply Hlisted. by right. }
  specialize (Hlisted (k, a') ltac:(by left)). simpl in Hlisted.
  apply activity_view_return in Hview as (accessible & Hacc & ->).
  set (session2 := add_booking session (new_booking clock booker activity_id)) in *.
  exists (ActivityView.mk k (Activity.title a') (Activity.description a')
            (Activity.start_time a') (Activity.end_time a') (Activity.location a')
            (Activity.base_capacity a')
            (Spec.current_capacity session2 (k, a'))
            (Spec.current_attendees session2 (k, a'))
            (Z.max 0 (Spec.current_capacity session2 (k, a')
                      - Spec.current_attendees session2 (k, a')))
            (Activity.volunteer_slots a') (Activity.requirements a') accessible
          :: views2).
  split; [done|]. split.
  { simpl. rewrite bind_eq, activity_view_eq, Hacc. cbv zeta.
    rewrite get_current_capacity_spec, get_current_attendees_spec.
    by rewrite bind_eq, Hrest. }
  constructor; [|done]. cbn [ActivityView.id ActivityView.current_capacity
    ActivityView.current_attendees ActivityView.available_slots fst snd].
  unfold session2, Spec.current_capacity. rewrite attendees_add, volunteer_count_add.
  rewrite (owner_role_new_booking _ _ _ _ u Hu).
  cbn [new_booking Booking.activity_id Booking.status fst snd].
  split; [done|]. split.
  - intros Hne. rewrite !decide_False by (intros (? & _); congruence).
    by rewrite !Z.add_0_l.
  - intros ->. assert (a' = a) as -> by congruence.
    destruct (decide (User.role u = VOLUNTEER)) as [Hr|Hr].
    + rewrite decide_True by (by rewrite Hr).
      rewrite decide_False by (intros (_ & _ & _ & Hne); by rewrite Hr in Hne).
      split_and!; lia.
    + rewrite decide_False by (intros (_ & _ & [= ?]); done).
      rewrite decide_True by (split_and!; [done|done|by eexists|congruence]).
      assert (¬ Spec.current_capacity session (activity_id, a)
                ≤ Spec.current_attendees session (activity_id, a)) as Hfree.
      { intros Hle. apply Hcap. by right. }
      unfold Spec.current_capacity in Hfree. cbn [fst snd] in Hfree.
      split_and!; lia.
Qed.

Lemma X17_witness :
  ∃ confirmation session2 views2,
    attempt_booking (Sample.at_ (Sample.monday + 5)) 1 1 Sample.seed
    = (Return confirmation, session2)
    ∧ get_activities None session2 = (Return views2, session2)
    ∧ ∀ v2, v2 ∈ views2 → ActivityView.id v2 = 1 →
            ActivityView.current_attendees v2 = 1 ∧ ActivityView.available_slots v2 = 9.
Proof.
  destruct (attempt_booking (Sample.at_ (Sample.monday + 5)) 1 1 Sample.seed)
    as [[confirmation|e] session2] eqn:Hbook; [|vm_compute in Hbook; discriminate Hbook].
  destruct (get_activities None Sample.seed) as [[views|e] s1] eqn:Hlist;
    [|vm_compute in Hlist; discriminate Hlist].
  assert (s1 = Sample.seed) as ->.
  { apply get_activities_return in Hlist as [-> _]. reflexivity. }
  assert (∀ v, v ∈ views → ActivityView.id v = 1 →
               ActivityView.current_attendees v = 0 ∧ ActivityView.available_slots v = 10)
    as Hbefore.
  { vm_compute in Hlist. injection Hlist as <-. intros v Hin Hid.
    repeat (apply elem_of_cons in Hin as [->|Hin];
            [cbn [ActivityView.id] in Hid;
             first [discriminate Hid|split; reflexivity]|]).
    apply elem_of_nil in Hin. destruct Hin. }
  destruct (X17_listing_after_booking (Sample.at_ (Sample.monday + 5)) 1 1 Sample.seed
              confirmation session2 None views Hbook Hlist)
    as (u & views2 & Hu & Hlist2 & Hall).
  exists confirmation, session2, views2. split; [reflexivity|]. split; [exact Hlist2|].
  intros v2 Hin Hid.
  apply list_elem_of_lookup in Hin as [i Hi].
  destruct (Forall2_lookup_r _ _ _ _ _ Hall Hi) as (v & Hv & Hsame & _ & Hbooked).
  apply list_elem_of_lookup_2 in Hv.
  rewrite Hid in Hsame. symmetry in Hsame.
  destruct (Hbefore v Hv Hsame) as [Hatt Hslots].
  specialize (Hbooked Hsame).
  vm_compute in Hu. injection Hu as <-.
  destruct (decide (User.role Sample.alice = VOLUNTEER)) as [Hr|_]; [discriminate Hr|].
  destruct Hbooked as (_ & -> & ->). rewrite Hatt, Hslots. split; reflexivity.
Defined.

(** X18: who is shown every activity.  A caller that gives no user_id,
    gives 0, names a user that does not exist, or names a user whose flags
    do not ask for a wheelchair gets the answer of a caller with no
    user_id: when it is a list, it has one entry per activity of the
    session. *)
Theorem X18_unfiltered_listing user_id session views session' :
  user_id = None ∨ user_id = Some 0
  ∨ (∃ uid, user_id = Some uid ∧ users session !! uid = None)
  ∨ (∃ uid u w, user_id = Some uid ∧ users session !! uid = Some u
                ∧ dict_get (py_or (User.medical_flags u) (JObj ∅)) "wheelchair"
                    (JBool false) = Return w
                ∧ truthy w = false) →
  get_activities user_id session = (Return views, session') →
  session' = session
  ∧ get_activities None session = (Return views, session)
  ∧ (∀ activity_id,
       activity_id ∈ ActivityView.id <$> views ↔ is_Some (activities session !! activity_id))
  ∧ length views = size (activities session).
Proof.
  intros Hcaller Hrun.
  assert ((shown_activities user_id (query (activities session)) session).1
          = Return (query (activities session))) as Hshown.
  { rewrite shown_activities_eq.
    destruct Hcaller as [->|[->|[(uid & -> & Hu)|(uid & u & w & -> & Hu & Hw & Htw)]]];
      try done.
    - cbn [fst]. case_bool_decide; [|done]. by rewrite Hu.
    - cbn [fst]. case_bool_decide; [|done]. by rewrite Hu, Hw, Htw. }
  assert (get_activities None session = get_activities user_id session) as Hnone.
  { by rewrite !get_activities_eq, Hshown, shown_activities_eq. }
  apply get_activities_return in Hrun as Hret.
  destruct Hret as (-> & shown & Hshown' & Hviews).
  rewrite Hshown in Hshown'. injection Hshown' as <-.
  split_and!; [done|by rewrite Hnone| |].
  - intros activity_id. rewrite (views_ids _ _ _ Hviews), list_elem_of_fmap. split.
    + intros ([k a] & -> & Hin%elem_of_query). by exists a.
    + intros [a Ha]. exists (activity_id, a). split; [done|]. by apply elem_of_query.
  - rewrite <- (Forall2_length _ _ _ Hviews). unfold query. apply length_map_to_list.
Qed.

Lemma X18_witness :
  ∃ views,
    get_activities (Some 0) Sample.seed = (Return views, Sample.seed)
    ∧ get_activities None Sample.seed = (Return views, Sample.seed)
    ∧ length views = 5%nat.
Proof.
  destruct (get_activities (Some 0) Sample.seed) as [[views|e] s1] eqn:Hrun;
    [|vm_compute in Hrun; discriminate Hrun].
  destruct (X18_unfiltered_listing (Some 0) Sample.seed views s1)
    as (-> & Hnone & _ & Hlen).
  - right; left. reflexivity.
  - exact Hrun.
  - exists views. split; [reflexivity|]. split; [exact Hnone|].
    rewrite Hlen. vm_compute. reflexivity.
Defined.

Lemma is_accessible_raise_iff (activity : Z * Activity.t) :
  is_accessible activity = Raise AttributeError
  ↔ ∀ d, Activity.requirements activity.2 ≠ JObj d.
Proof.
  unfold is_accessible, dict_get. split.
  - by destruct (Activity.requirements activity.2).
  - intros Hd. destruct (Activity.requirements activity.2) as [| | | | |d]; try done.
    by destruct (Hd d).
Qed.

Lemma flags_raise_iff (flags : json) :
  dict_get (py_or flags (JObj ∅)) "wheelchair" (JBool false) = Raise AttributeError
  ↔ truthy flags = true ∧ ∀ d, flags ≠ JObj d.
Proof.
  unfold py_or. destruct (truthy flags) eqn:Ht.
  - unfold dict_get. split.
    + by destruct flags.
    + intros [_ Hd]. destruct flags as [| | | | |d]; try done. by destruct (Hd d).
  - split; [done|]. by intros [[=] _].
Qed.

(** X19: when the listing fails.  [get_activities] never changes the
    session and raises nothing but AttributeError; it raises exactly when
    some activity of the session has requirements that are not a dict
    (whoever asks, and whether or not that activity would be shown), or
    the caller names (by an id other than 0) a user whose medical flags
    are a truthy value that is not a dict; otherwise it returns a list. *)
Theorem X19_listing_failure user_id session :
  let bad_activity :=
    ∃ activity_id a, activities session !! activity_id = Some a
                     ∧ ∀ d, Activity.requirements a ≠ JObj d in
  let bad_flags :=
    ∃ uid u, user_id = Some uid ∧ uid ≠ 0 ∧ users session !! uid = Some u
             ∧ truthy (User.medical_flags u) = true
             ∧ ∀ d, User.medical_flags u ≠ JObj d in
  ((∃ views, get_activities user_id session = (Return views, session))
   ∧ ¬ bad_activity ∧ ¬ bad_flags)
  ∨ (get_activities user_id session = (Raise AttributeError, session)
     ∧ (bad_activity ∨ bad_flags)).
Proof.
  intros bad_activity bad_flags.
  destruct (get_activities user_id session) as [[views|e] s1] eqn:Hrun.
  - left. apply get_activities_return in Hrun as (-> & shown & Hshown & Hviews).
    split; [by exists views|]. split.
    + intros (activity_id & a & Ha%elem_of_query & Hbad).
      apply (is_accessible_raise_iff (activity_id, a)) in Hbad.
      destruct (shown_activities_cases user_id (query (activities session)) session)
        as [_ [Hs|[(_ & Hall & _)|Hs]]].
      * rewrite Hs in Hshown. injection Hshown as <-.
        apply list_elem_of_lookup in Ha as [i Hi].
        destruct (Forall2_lookup_l _ _ _ _ _ Hviews Hi) as (v & _ & Hv).
        apply activity_view_return in Hv as (accessible & Hacc & _). congruence.
      * destruct (Hall _ Ha) as [v Hv]. congruence.
      * congruence.
    + intros (uid & u & -> & Hz & Hu & Hflags%flags_raise_iff).
      rewrite shown_activities_eq, bool_decide_true, Hu, Hflags in Hshown; done.
  - right. apply get_activities_raise in Hrun as Hraise. destruct Hraise as [-> ->].
    split; [done|]. revert Hrun. rewrite get_activities_eq, shown_activities_eq. cbn [fst].
    assert (∀ l, l `sublist_of` query (activities session) →
                 for_each activity_view l session = (Raise AttributeError, session) →
                 bad_activity) as Hloop.
    { intros l Hl.
      destruct (for_each_cases activity_view l session
                  (λ a, activity_view_read_only a session))
        as [(ys & -> & _)|(e' & [k a] & -> & Hin & Hx)]; [by intros [=]|].
      intros [= ->]. exists k, a. split.
      - apply elem_of_query. by eapply elem_of_sublist.
      - apply (is_accessible_raise_iff (k, a)).
        rewrite activity_view_eq in Hx. cbn [fst] in Hx.
        destruct (is_accessible (k, a)) as [v|e]; [done|]. by injection Hx as ->. }
    destruct user_id as [uid|]; [|intros ?; left; by eapply Hloop].
    case_bool_decide as Hz; [|intros ?; left; by eapply Hloop].
    destruct (users session !! uid) as [u|] eqn:Hu; [|intros ?; left; by eapply Hloop].
    destruct (dict_get _ _ _) as [w|e] eqn:Hw.
    + destruct (truthy w); [|intros ?; left; by eapply Hloop].
      destruct (keep_accessible_cases (query (activities session)))
        as [[-> _]|[-> ([k a] & Hin & Hraise)]].
      * intros ?. left. eapply Hloop; [|done]. apply sublist_filter.
      * intros _. left. exists k, a. split; [by apply elem_of_query|].
        by apply (is_accessible_raise_iff (k, a)).
    + intros _. right. exists uid, u. split_and!; try done.
      all: apply dict_get_raise in Hw as Heq; subst e;
           by apply flags_raise_iff in Hw as [? ?].
Qed.

Lemma X19_witness :
  get_activities (Some 1) Scenario.unlisted = (Raise AttributeError, Scenario.unlisted)
  ∧ ∃ views, get_activities (Some 1) Sample.seed = (Return views, Sample.seed).
Proof.
  split.
  - destruct (X19_listing_failure (Some 1) Scenario.unlisted)
      as [[[views Hviews] _]|[Hraise _]]; [|exact Hraise].
    vm_compute in Hviews. discriminate Hviews.
  - destruct (X19_listing_failure (Some 1) Sample.seed)
      as [[Hviews _]|[Hraise _]]; [exact Hviews|].
    vm_compute in Hraise. discriminate Hraise.
Defined.

(** ** The detail of an activity *)

Lemma booking_line_eq (booking : Z * Booking.t) session :
  booking_line booking session
  = (match users session !! Booking.user_id booking.2 with
     | Some u => Return (mkBookingLine booking.1 (User.name u) (role_value (User.role u))
                           (Booking.created_at booking.2))
     | None => Raise AttributeError
     end, session).
Proof.
  unfold booking_line. rewrite bind_eq. unfold gets. rewrite first_filter_key.
  by destruct (users session !! Booking.user_id booking.2).
Qed.

Lemma booking_line_read_only booking session : (booking_line booking session).2 = session.
Proof. by rewrite booking_line_eq. Qed.

(** The Confirmed bookings on an activity, as [get_activity] selects them. *)
Lemma get_activity_eq activity_id session :
  get_activity activity_id session
  = match activities session !! activity_id with
    | None => (Return None, session)
    | Some a =>
        match (for_each booking_line
                 (filter (λ b : Z * Booking.t,
                            Booking.activity_id b.2 = activity_id
                            ∧ Booking.status b.2 = CONFIRMED)
                         (query (bookings session))) session).1 with
        | Raise e => (Raise e, session)
        | Return booking_list =>
            match (activity_view (activity_id, a) session).1 with
            | Raise e => (Raise e, session)
            | Return view => (Return (Some (view, booking_list)), session)
            end
        end
    end.
Proof.
  unfold get_activity. rewrite bind_eq. unfold gets at 1. rewrite first_filter_key.
  destruct (activities session !! activity_id) as [a|]; [|done].
  cbn [fmap option_fmap option_map]. rewrite bind_eq. unfold gets at 1.
  rewrite bind_eq. unfold gets at 1. rewrite bind_eq. unfold gets at 1.
  rewrite bind_eq.
  match goal with |- context [for_each booking_line ?l session] =>
    destruct (for_each_cases booking_line l session
                (λ b, booking_line_read_only b session))
      as [(ys & -> & _)|(e & x & -> & _)] end; [|done].
  cbn [fst]. rewrite bind_eq, activity_view_eq. unfold lift. cbn [fst snd].
  by destruct (is_accessible (activity_id, a)).
Qed.

Lemma role_value_volunteer r : role_value r = "Volunteer" ↔ r = VOLUNTEER.
Proof. by destruct r. Qed.

Lemma booking_line_return (booking : Z * Booking.t) session line :
  (booking_line booking session).1 = Return line →
  ∃ u, users session !! Booking.user_id booking.2 = Some u
       ∧ line = mkBookingLine booking.1 (User.name u) (role_value (User.role u))
                  (Booking.created_at booking.2).
Proof.
  rewrite booking_line_eq. cbn [fst].
  destruct (users session !! Booking.user_id booking.2) as [u|]; [|done].
  intros [= <-]. by exists u.
Qed.


Lemma get_activity_cases activity_id session a :
  activities session !! activity_id = Some a →
  let rows := filter (λ b : Z * Booking.t,
                        Booking.activity_id b.2 = activity_id
                        ∧ Booking.status b.2 = CONFIRMED)
                     (query (bookings session)) in
  (∃ view lines,
     get_activity activity_id session = (Return (Some (view, lines)), session)
     ∧ (activity_view (activity_id, a) session).1 = Return view
     ∧ Forall2 (λ b line, (booking_line b session).1 = Return line) rows lines)
  ∨ (get_activity activity_id session = (Raise AttributeError, session)
     ∧ ((∃ b, b ∈ rows ∧ users session !! Booking.user_id b.2 = None)
        ∨ is_accessible (activity_id, a) = Raise AttributeError)).
Proof.
  intros Ha rows. rewrite get_activity_eq, Ha. fold rows.
  destruct (for_each_cases booking_line rows session
              (λ b, booking_line_read_only b session))
    as [(lines & -> & Hlines)|(e & b & -> & Hin & Hraise)]; cbn [fst].
  - destruct (activity_view (activity_id, a) session).1 as [view|e] eqn:Hview.
    + left. by exists view, lines.
    + right. rewrite activity_view_eq in Hview. cbn [fst] in Hview.
      destruct (is_accessible (activity_id, a)) as [v|e'] eqn:Hacc; [done|].
      injection Hview as <-. apply is_accessible_raise in Hacc as Heq. subst e'.
      split; [done|by right].
  - right. rewrite booking_line_eq in Hraise. cbn [fst] in Hraise.
    destruct (users session !! Booking.user_id b.2) as [u|] eqn:Hu; [done|].
    injection Hraise as <-. split; [done|]. left. by exists b.
Qed.

(** X20: the answers of [get_activity].  It never changes the session.
    For an id with no activity it answers None (the 404 response); for an
    existing activity it either answers with a view and the lines of the
    bookings, or raises AttributeError, and it raises exactly when a
    Confirmed booking on the activity names a user that does not exist or
    the requirements of the activity are not a dict.  When every booking
    references an existing user (as in every reachable state) only the
    requirements can make it raise. *)
Theorem X20_activity_detail_outcome activity_id session :
  let dangling :=
    ∃ k b, bookings session !! k = Some b
           ∧ Booking.activity_id b = activity_id
           ∧ Booking.status b = CONFIRMED
           ∧ users session !! Booking.user_id b = None in
  (referential session → ¬ dangling)
  ∧ ((activities session !! activity_id = None
      ∧ get_activity activity_id session = (Return None, session))
     ∨ ∃ a, activities session !! activity_id = Some a
            ∧ ((get_activity activity_id session = (Raise AttributeError, session)
                ∧ (dangling ∨ ∀ d, Activity.requirements a ≠ JObj d))
               ∨ ((∃ view lines,
                     get_activity activity_id session
                     = (Return (Some (view, lines)), session))
                  ∧ ¬ dangling
                  ∧ ∃ d, Activity.requirements a = JObj d))).
Proof.
  intros dangling. split.
  { intros Href (k & b & Hb & _ & _ & Hu).
    destruct (Href k b Hb) as [[u Hu'] _]. congruence. }
  destruct (activities session !! activity_id) as [a|] eqn:Ha.
  2: { left. split; [done|]. by rewrite get_activity_eq, Ha. }
  right. exists a. split; [done|].
  destruct (get_activity_cases activity_id session a Ha)
    as [(view & lines & Hrun & Hview & Hlines)|[Hrun Hwhy]].
  - right. split; [by exists view, lines|]. split.
    + intros (k & b & Hb & Hact & Hst & Hu).
      assert ((k, b) ∈ filter (λ b : Z * Booking.t,
                                 Booking.activity_id b.2 = activity_id
                                 ∧ Booking.status b.2 = CONFIRMED)
                              (query (bookings session))) as Hin.
      { apply list_elem_of_filter. split; [done|]. by apply elem_of_query. }
      apply list_elem_of_lookup in Hin as [i Hi].
      destruct (Forall2_lookup_l _ _ _ _ _ Hlines Hi) as (line & _ & Hline).
      apply booking_line_return in Hline as (u & Hu' & _). simpl in Hu'. congruence.
    + apply activity_view_return in Hview as (accessible & Hacc & _).
      unfold is_accessible, dict_get in Hacc. simpl in Hacc.
      destruct (Activity.requirements a) as [| | | | |d]; try done. by exists d.
  - left. split; [done|].
    destruct Hwhy as [([k b] & [[Hact Hst] Hb%elem_of_query]%list_elem_of_filter & Hu)|Hacc].
    + left. by exists k, b.
    + right. by apply (is_accessible_raise_iff (activity_id, a)).
Qed.

Lemma X20_witness :
  get_activity 9 Sample.seed = (Return None, Sample.seed)
  ∧ get_activity 6 Scenario.unlisted = (Raise AttributeError, Scenario.unlisted)
  ∧ ∃ view lines, get_activity 1 Scenario.alice_yoga
                  = (Return (Some (view, lines)), Scenario.alice_yoga).
Proof.
  split_and!.
  - destruct (X20_activity_detail_outcome 9 Sample.seed) as [_ [[_ H]|(a & Ha & _)]];
      [exact H|]. vm_compute in Ha. discriminate Ha.
  - destruct (X20_activity_detail_outcome 6 Scenario.unlisted)
      as [_ [[Ha _]|(a & _ & [[H _]|[(view & lines & H) _]])]]; [|exact H|].
    + vm_compute in Ha. discriminate Ha.
    + vm_compute in H. discriminate H.
  - destruct (X20_activity_detail_outcome 1 Scenario.alice_yoga)
      as [_ [[Ha _]|(a & _ & [[H _]|[H _]])]]; [| |exact H].
    + vm_compute in Ha. discriminate Ha.
    + vm_compute in H. discriminate H.
Defined.


